(** * SWE-Merge miner ([src/msr.py]): a shallow embedding and its properties

    The miner reconstructs, per tracked identity, the pull requests
    attributable to it through a capped, paginated search API, reduces every
    match to four fields and merges the result into day shards, from which
    acceptance statistics are recomputed.

    Part I embeds the functions of [msr.py] that the properties are about,
    under their own names.  Part II states and proves the properties.

    Conventions of the embedding.
    - A Python [dict] is an insertion-ordered association list with unique
      keys ([dict_set] replaces in place, or appends).
    - [d.get(k)] of a JSON object is an [option]: [None] stands for a missing
      key and for [null] alike, which the code never tells apart (the one
      exception, [pr.get('pull_request', {})], has its own type).
    - [if x:] is Python truthiness: [None], the empty string and [0] are
      false.
    - An aware [datetime] is its number of microseconds since the epoch, a
      [timedelta] a number of microseconds.
    - Python floats are IEEE binary64 values ([spec_float] at precision 53).
    - A call that may raise returns [exc]; [try]/[except] is [try_except]. *)

From Stdlib Require Import ZArith List String Ascii Bool Lia FinFun.
From Stdlib Require Import SpecFloat DecimalString.
From Stdlib Require Import Permutation DecimalZ.
From Stdlib Require Import QArith Qround Qabs.
Import ListNotations.

Local Open Scope string_scope.
Local Open Scope Z_scope.

(* ===================================================================== *)
(** * Part I.  The embedding                                              *)
(* ===================================================================== *)

(** ** Python values *)

(** Truthiness of an optional string: [None] and the empty string are false. *)
Definition truthy (o : option string) : bool :=
  match o with
  | Some s => negb (String.eqb s EmptyString)
  | None => false
  end.

(** Truthiness of an optional integer: [None] and [0] are false. *)
Definition truthy_int (o : option Z) : bool :=
  match o with
  | Some z => negb (z =? 0)
  | None => false
  end.

(** A computation that returns or raises an [Exception]. *)
Inductive exc (A : Type) : Type :=
| Ret (a : A)
| Raise.
Arguments Ret {A} a.
Arguments Raise {A}.

Definition bind {A B : Type} (c : exc A) (k : A -> exc B) : exc B :=
  match c with
  | Ret a => k a
  | Raise => Raise
  end.

Notation "x <- c ;; k" := (bind c (fun x => k))
  (at level 61, c at next level, right associativity).

(** [try: body / except Exception: handler]. *)
Definition try_except {A : Type} (body handler : exc A) : exc A :=
  match body with
  | Ret a => Ret a
  | Raise => handler
  end.

Fixpoint mapM {A B : Type} (f : A -> exc B) (l : list A) : exc (list B) :=
  match l with
  | [] => Ret []
  | a :: l' => b <- f a ;; bs <- mapM f l' ;; Ret (b :: bs)
  end.

(** ** Insertion-ordered dictionaries *)

Section Dict.
Context {K V : Type} (eqb : K -> K -> bool).

Definition dict : Type := list (K * V).

Fixpoint dict_get (k : K) (d : dict) : option V :=
  match d with
  | [] => None
  | (k', v) :: d' => if eqb k k' then Some v else dict_get k d'
  end.

(** [k in d] *)
Definition dict_mem (k : K) (d : dict) : bool :=
  match dict_get k d with Some _ => true | None => false end.

(** [d[k] = v]: an existing key keeps its position. *)
Fixpoint dict_set (k : K) (v : V) (d : dict) : dict :=
  match d with
  | [] => [(k, v)]
  | (k', v') :: d' =>
      if eqb k k' then (k', v) :: d' else (k', v') :: dict_set k v d'
  end.

(** [d.update(other)] *)
Definition dict_update (d other : dict) : dict :=
  fold_left (fun acc kv => dict_set (fst kv) (snd kv) acc) other d.

Definition dict_keys (d : dict) : list K := map fst d.

(** [list(d.values())] *)
Definition dict_values (d : dict) : list V := map snd d.
End Dict.

(** ** Data model *)

(** The four fields kept of every pull request. *)
Record MetadataRecord : Type := {
  html_url : option string;
  created_at : option string;
  merged_at : option string;
  closed_at : option string
}.

(** [pr.get('pull_request', {})]: the key is absent (the default [{}] is
    used), present with [null], or an object, of which only [merged_at] is
    read. *)
Inductive pull_request_field : Type :=
| PullRequestAbsent
| PullRequestNull
| PullRequestObject (pr_merged_at : option string).

(** A search result of the provider, with the fields the miner reads. *)
Record RawMatch : Type := {
  raw_id : option Z;
  raw_html_url : option string;
  raw_created_at : option string;
  raw_closed_at : option string;
  raw_pull_request : pull_request_field
}.

(** ** PatternMiner: extraction *)

(** [pull_request.get('merged_at')]; [None.get] raises [AttributeError]. *)
Definition pull_request_get_merged_at (p : pull_request_field)
  : exc (option string) :=
  match p with
  | PullRequestAbsent => Ret None
  | PullRequestNull => Raise
  | PullRequestObject m => Ret m
  end.

Definition extract_pr_metadata (pr : RawMatch) : exc MetadataRecord :=
  let pull_request := raw_pull_request pr in
  let created_at := raw_created_at pr in
  merged_at <- pull_request_get_merged_at pull_request ;;
  let closed_at := raw_closed_at pr in
  let closed_at := if truthy merged_at then None else closed_at in
  Ret {| html_url := raw_html_url pr;
         created_at := created_at;
         merged_at := merged_at;
         closed_at := closed_at |}.

(** ** Dates and times *)

(** An aware [datetime], in microseconds since 1970-01-01T00:00:00Z. *)
Definition datetime : Type := Z.

(** A [timedelta], in microseconds. *)
Definition timedelta : Type := Z.

Definition us_per_second : Z := 1000000.
Definition us_per_day : Z := 86400 * us_per_second.

Definition timedelta_days (n : Z) : timedelta := n * us_per_day.
Definition timedelta_seconds (n : Z) : timedelta := n * us_per_second.

(** Python's [_divide_and_round]: the quotient nearest to [a / b], ties to
    the even one.  [/] and [mod] are floor division, as [divmod] is. *)
Definition divide_and_round (a b : Z) : Z :=
  let q := a / b in
  let r := a mod b in
  let r := r * 2 in
  let greater_than_half := if 0 <? b then b <? r else r <? b in
  if greater_than_half || ((r =? b) && Z.odd q) then q + 1 else q.

(** [timedelta / int] *)
Definition timedelta_div (t : timedelta) (n : Z) : timedelta :=
  divide_and_round t n.

(** The calendar day (UTC) of an instant, in days since the epoch: what
    [strftime('%Y-%m-%d')] renders. *)
Definition day_of (dt : datetime) : Z := dt / us_per_day.

(** Days since the epoch of a proleptic Gregorian date. *)
Definition days_from_civil (y m d : Z) : Z :=
  let y := if m <=? 2 then y - 1 else y in
  let era := y / 400 in
  let yoe := y - era * 400 in
  let mp := if 2 <? m then m - 3 else m + 9 in
  let doy := (153 * mp + 2) / 5 + d - 1 in
  let doe := yoe * 365 + yoe / 4 - yoe / 100 + doy in
  era * 146097 + doe - 719468.

(** [(dt.year, dt.month, dt.day)] of a day number. *)
Definition civil_from_days (z : Z) : Z * Z * Z :=
  let z := z + 719468 in
  let era := z / 146097 in
  let doe := z - era * 146097 in
  let yoe := (doe - doe / 1460 + doe / 36524 - doe / 146096) / 365 in
  let y := yoe + era * 400 in
  let doy := doe - (365 * yoe + yoe / 4 - yoe / 100) in
  let mp := (5 * doy + 2) / 153 in
  let d := doy - (153 * mp + 2) / 5 + 1 in
  let m := if mp <? 10 then mp + 3 else mp - 9 in
  ((if m <=? 2 then y + 1 else y), m, d).

(** [datetime(y, m, d, hh, mm, ss, tzinfo=timezone.utc)] *)
Definition utc (y m d hh mm ss : Z) : datetime :=
  days_from_civil y m d * us_per_day
  + ((hh * 60 + mm) * 60 + ss) * us_per_second.

(** ** The search provider, as the partitioner sees it *)

(** [f'{base_query} created:{start_str}..{end_str}'].  The two date strings
    are kept as the day numbers they render. *)
Record search_query : Type := {
  q_base : string;
  q_from_day : Z;
  q_to_day : Z
}.

(** What one page request comes to: [request_with_backoff] gave up, a status
    other than 200, an exception inside the [try] (a body that is not JSON),
    or a decoded page with [data.get('total_count', 0)] and
    [data.get('items', [])]. *)
Inductive search_response : Type :=
| NoResponse
| HttpError (status : Z)
| BodyError
| Page (total_count : Z) (items : list RawMatch).

(** The provider: query and page number to response ([per_page = 100],
    [sort = created], [order = asc] are fixed by the caller; the headers are
    passed through unchanged and are part of the provider here). *)
Definition search_api : Type := search_query -> Z -> search_response.

(** ** RangePartitioner *)

Definition per_page : Z := 100.

Definition prs_dict : Type := @dict Z RawMatch.

(** The body of [for pr in items]. *)
Definition add_item (st : prs_dict * Z) (pr : RawMatch) : prs_dict * Z :=
  let '(prs_by_id, total_in_partition) := st in
  match raw_id pr with
  | Some pr_id =>
      if truthy_int (Some pr_id) && negb (dict_mem Z.eqb pr_id prs_by_id)
      then (dict_set Z.eqb pr_id pr prs_by_id, total_in_partition + 1)
      else st
  | None => st
  end.

Definition add_items (items : list RawMatch) (st : prs_dict * Z)
  : prs_dict * Z :=
  fold_left add_item items st.

(** How the [while True] loop of one partition ends. *)
Inductive scan_result : Type :=
| Returned (total_in_partition : Z) (prs_by_id : prs_dict)
| Overflow (prs_by_id : prs_dict)
| PagesExhausted.

Definition limit_reached (debug_limit : option Z) (total : Z) : bool :=
  match debug_limit with
  | Some l => l <=? total
  | None => false
  end.

(** The [while True] loop, one iteration per unit of [n].  It leaves at page
    10 at the latest, so ten iterations always suffice
    ([scan_pages_enough]). *)
Fixpoint scan_pages (n : nat) (api : search_api) (query : search_query)
    (debug_limit : option Z) (page : Z) (total_in_partition : Z)
    (prs_by_id : prs_dict) : scan_result :=
  match n with
  | O => PagesExhausted
  | S n' =>
      if limit_reached debug_limit total_in_partition
      then Returned total_in_partition prs_by_id
      else
        match api query page with
        | NoResponse => Returned total_in_partition prs_by_id
        | HttpError _ => Returned total_in_partition prs_by_id
        | BodyError => Returned total_in_partition prs_by_id
        | Page total_count items =>
            match items with
            | [] => Returned total_in_partition prs_by_id
            | _ :: _ =>
                let '(prs_by_id, total_in_partition) :=
                  add_items items (prs_by_id, total_in_partition) in
                if (1000 <? total_count) && (page =? 10)
                then Overflow prs_by_id
                else if (Z.of_nat (List.length items) <? per_page) || (10 <=? page)
                then Returned total_in_partition prs_by_id
                else scan_pages n' api query debug_limit (page + 1)
                       total_in_partition prs_by_id
            end
        end
  end.

(** [fetch_prs_with_time_partition].  The recursion on the two halves has no
    bound in the source; [fuel] bounds its depth here and [None] means that
    the bound was too small.  The dictionary is threaded through: the source
    mutates the one object it was passed. *)
Fixpoint fetch_prs_with_time_partition (fuel : nat) (api : search_api)
    (base_query : string) (start_date end_date : datetime)
    (prs_by_id : prs_dict) (debug_limit : option Z)
  : option (Z * prs_dict) :=
  match fuel with
  | O => None
  | S fuel' =>
      let query := {| q_base := base_query;
                      q_from_day := day_of start_date;
                      q_to_day := day_of end_date |} in
      match scan_pages 10 api query debug_limit 1 0 prs_by_id with
      | PagesExhausted => None
      | Returned total_in_partition prs_by_id =>
          Some (total_in_partition, prs_by_id)
      | Overflow prs_by_id =>
          let time_diff := end_date - start_date in
          let mid_date := start_date + timedelta_div time_diff 2 in
          match fetch_prs_with_time_partition fuel' api base_query
                  start_date mid_date prs_by_id debug_limit with
          | None => None
          | Some (count1, prs_by_id) =>
              match fetch_prs_with_time_partition fuel' api base_query
                      (mid_date + timedelta_days 1) end_date prs_by_id
                      debug_limit with
              | None => None
              | Some (count2, prs_by_id) => Some (count1 + count2, prs_by_id)
              end
          end
      end
  end.

(** ** PatternMiner *)

Definition double_quote : string := String (ascii_of_nat 34) EmptyString.

Definition query_patterns (identifier : string) : list string :=
  [ "is:pr author:" ++ identifier;
    "is:pr " ++ double_quote ++ "co-authored-by: " ++ identifier
      ++ double_quote;
    "is:pr head:" ++ identifier ++ "/" ]%string.

(** [start_date] of [fetch_all_prs_metadata]. *)
Definition fetch_window_start (current_time : datetime)
    (start_from_date : option datetime) : datetime :=
  let six_months_ago := current_time - timedelta_days 180 in
  match start_from_date with
  | Some start_from_date => Z.max start_from_date six_months_ago
  | None => six_months_ago
  end.

(** The [for query_pattern in query_patterns] loop: one dictionary for all
    patterns. *)
Fixpoint mine_patterns (fuel : nat) (api : search_api)
    (patterns : list string) (start_date end_date : datetime)
    (prs_by_id : prs_dict) (debug_limit : option Z) : option prs_dict :=
  match patterns with
  | [] => Some prs_by_id
  | query_pattern :: rest =>
      match fetch_prs_with_time_partition fuel api query_pattern
              start_date end_date prs_by_id debug_limit with
      | None => None
      | Some (_, prs_by_id) =>
          mine_patterns fuel api rest start_date end_date prs_by_id
            debug_limit
      end
  end.

(** [fetch_all_prs_metadata]; [current_time] is [datetime.now(timezone.utc)].
    The outer [option] is the fuel of the partitioner, the inner [exc] the
    exception an extraction may raise.  The token only builds the headers,
    which are part of [api]; [agent_name] and [year] are not used by the
    source. *)
Definition fetch_all_prs_metadata (fuel : nat) (api : search_api)
    (debug_mode : bool) (current_time : datetime) (identifier : string)
    (start_from_date : option datetime)
  : option (exc (list MetadataRecord)) :=
  let debug_limit_per_pattern := if debug_mode then Some 10 else None in
  let start_date := fetch_window_start current_time start_from_date in
  let end_date := current_time in
  match mine_patterns fuel api (query_patterns identifier) start_date
          end_date [] debug_limit_per_pattern with
  | None => None
  | Some prs_by_id =>
      let all_prs := dict_values prs_by_id in
      Some (mapM extract_pr_metadata all_prs)
  end.

(** [start_from] of [update_all_agents_incremental]: one second after the
    latest persisted date, or [None]. *)
Definition start_from (latest_pr_date : option datetime) : option datetime :=
  match latest_pr_date with
  | Some latest_pr_date => Some (latest_pr_date + timedelta_seconds 1)
  | None => None
  end.

(** A synthetic provider over a fixed table of matches per query pattern,
    each with the day it was created, listed in creation order: it reports
    the number of matches in the queried day range and serves them in pages
    of [per_page]. *)
Definition matching (table : list (Z * RawMatch)) (from_day to_day : Z)
  : list RawMatch :=
  map snd (filter (fun e => (from_day <=? fst e) && (fst e <=? to_day)) table).

Definition synthetic_provider (tables : string -> list (Z * RawMatch))
  : search_api :=
  fun query page =>
    let found := matching (tables (q_base query))
                   (q_from_day query) (q_to_day query) in
    Page (Z.of_nat (List.length found))
         (firstn (Z.to_nat per_page)
            (skipn (Z.to_nat (per_page * (page - 1))) found)).

(** ** Timestamps of records *)

(** [created_at.replace('Z', '+00:00')] *)
Fixpoint replace_Z (s : string) : string :=
  match s with
  | EmptyString => EmptyString
  | String c s' =>
      if Ascii.eqb c "Z"%char
      then ("+00:00" ++ replace_Z s')%string
      else String c (replace_Z s')
  end.

(** The key of a day shard: [(dt.year, dt.month, dt.day)]. *)
Definition date_key : Type := (Z * Z * Z)%type.

Definition date_key_eqb (a b : date_key) : bool :=
  let '(y1, m1, d1) := a in
  let '(y2, m2, d2) := b in
  (y1 =? y2) && (m1 =? m2) && (d1 =? d2).

Section Timestamps.
(** [datetime.fromisoformat] is the standard library's: a parameter.  It
    raises [ValueError] on a string that is no ISO date.  The timestamps
    the provider gives end in [Z], so the parsed value is taken as the UTC
    instant and its calendar fields as those of the UTC day. *)
Variable fromisoformat : string -> exc datetime.

Definition parse_created_at (created_at : string) : exc datetime :=
  fromisoformat (replace_Z created_at).

(** The body of the loop of [group_metadata_by_date]: a record without
    [created_at] is skipped by [continue], one whose date does not parse by
    the [except] branch, which only prints. *)
Definition group_step (grouped : @dict date_key (list MetadataRecord))
    (pr_meta : MetadataRecord) : @dict date_key (list MetadataRecord) :=
  match created_at pr_meta with
  | Some s =>
      if negb (truthy (Some s)) then grouped
      else
        match parse_created_at s with
        | Ret dt =>
            let key := civil_from_days (day_of dt) in
            let bucket :=
              match dict_get date_key_eqb key grouped with
              | Some l => l
              | None => []
              end in
            dict_set date_key_eqb key (bucket ++ [pr_meta])%list grouped
        | Raise => grouped
        end
  | None => grouped
  end.

Definition group_metadata_by_date (metadata_list : list MetadataRecord)
  : @dict date_key (list MetadataRecord) :=
  fold_left group_step metadata_list [].
End Timestamps.

(** ** ShardStore *)

(** A line of a JSONL shard: text that is no JSON, or a record. *)
Inductive jsonl_line : Type :=
| InvalidJson
| Entry (r : MetadataRecord).

(** [load_jsonl] of a file that exists: an invalid line is skipped with a
    warning.  (The renaming of a [developer] key concerns the roster files,
    not the four fields of a record.) *)
Fixpoint load_jsonl (file : list jsonl_line) : list MetadataRecord :=
  match file with
  | [] => []
  | InvalidJson :: rest => load_jsonl rest
  | Entry r :: rest => r :: load_jsonl rest
  end.

(** [save_jsonl]: one line per record. *)
Definition save_jsonl (data : list MetadataRecord) : list jsonl_line :=
  map Entry data.

(** The dataset repository: its files by path, and which calls fail. *)
Record hub : Type := {
  hub_files : @dict string (list jsonl_line);
  hub_list_fails : bool;
  hub_download_fails : string -> bool;
  hub_upload_fails : string -> bool
}.

Definition list_repo_files (h : hub) : exc (list string) :=
  if hub_list_fails h then Raise else Ret (dict_keys (hub_files h)).

(** [hf_hub_download] raises on a transport failure and on a missing file. *)
Definition hf_hub_download (h : hub) (filename : string)
  : exc (list jsonl_line) :=
  if hub_download_fails h filename then Raise
  else
    match dict_get String.eqb filename (hub_files h) with
    | Some file => Ret file
    | None => Raise
    end.

(** [api.upload_file]: the file is replaced as a whole. *)
Definition upload_file (h : hub) (filename : string)
    (content : list jsonl_line) : exc hub :=
  if hub_upload_fails h filename then Raise
  else Ret {| hub_files := dict_set String.eqb filename content (hub_files h);
              hub_list_fails := hub_list_fails h;
              hub_download_fails := hub_download_fails h;
              hub_upload_fails := hub_upload_fails h |}.

(** [{meta['html_url']: meta for meta in l if meta.get('html_url')}] *)
Definition by_url_step (d : @dict string MetadataRecord)
    (meta : MetadataRecord) : @dict string MetadataRecord :=
  match html_url meta with
  | Some url => if truthy (Some url) then dict_set String.eqb url meta d else d
  | None => d
  end.

Definition by_url (l : list MetadataRecord) : @dict string MetadataRecord :=
  fold_left by_url_step l [].

(** The merge of [save_pr_metadata_to_hf], the same in both modes. *)
Definition merge_metadata (existing_metadata day_metadata : list MetadataRecord)
  : list MetadataRecord :=
  let existing_by_url := by_url existing_metadata in
  let new_by_url := by_url day_metadata in
  let existing_by_url := dict_update String.eqb existing_by_url new_by_url in
  dict_values existing_by_url.

Definition string_of_Z (z : Z) : string := NilZero.string_of_int (Z.to_int z).

(** [f'{n:02d}'] for [0 <= n]. *)
Definition pad2 (n : Z) : string :=
  if n <? 10 then ("0" ++ string_of_Z n)%string else string_of_Z n.

(** [f"{agent_identifier}/{pr_year}.{month:02d}.{day:02d}.jsonl"] *)
Definition shard_filename (agent_identifier : string) (key : date_key)
  : string :=
  let '(pr_year, month, day) := key in
  (agent_identifier ++ "/" ++ string_of_Z pr_year ++ "." ++ pad2 month
     ++ "." ++ pad2 day ++ ".jsonl")%string.

(** One iteration of [for (pr_year, month, day), day_metadata in
    grouped.items()]: a failed download counts as no existing file; a failed
    upload raises. *)
Definition save_day (agent_identifier : string) (h : hub)
    (key : date_key) (day_metadata : list MetadataRecord) : exc hub :=
  let filename := shard_filename agent_identifier key in
  let existing_metadata :=
    match hf_hub_download h filename with
    | Ret file => load_jsonl file
    | Raise => []
    end in
  let merged_metadata := merge_metadata existing_metadata day_metadata in
  upload_file h filename (save_jsonl merged_metadata).

(** The loop over the day groups; at the first exception the repository is
    left as the uploads so far made it. *)
Fixpoint save_days (agent_identifier : string)
    (grouped : list (date_key * list MetadataRecord)) (h : hub)
  : bool * hub :=
  match grouped with
  | [] => (true, h)
  | (key, day_metadata) :: rest =>
      match save_day agent_identifier h key day_metadata with
      | Ret h' => save_days agent_identifier rest h'
      | Raise => (false, h)
      end
  end.

(** What [save_pr_metadata_to_hf] reads and writes: the repository and the
    process-wide [DEBUG_PR_METADATA_CACHE]. *)
Record world : Type := {
  w_hub : hub;
  w_debug_cache : @dict string (list MetadataRecord)
}.

Section Persistence.
Variable fromisoformat : string -> exc datetime.

(** [save_pr_metadata_to_hf]; [hf_token] tells whether [get_hf_token()]
    found a token. *)
Definition save_pr_metadata_to_hf (debug_mode hf_token : bool)
    (metadata_list : list MetadataRecord) (agent_identifier : string)
    (w : world) : bool * world :=
  if debug_mode then
    let cached :=
      match dict_get String.eqb agent_identifier (w_debug_cache w) with
      | Some l => l
      | None => []
      end in
    (true,
     {| w_hub := w_hub w;
        w_debug_cache :=
          dict_set String.eqb agent_identifier
            (merge_metadata cached metadata_list) (w_debug_cache w) |})
  else if negb hf_token then (false, w)
  else
    let grouped := group_metadata_by_date fromisoformat metadata_list in
    let '(ok, h) := save_days agent_identifier grouped (w_hub w) in
    (ok, {| w_hub := h; w_debug_cache := w_debug_cache w |}).

(** ** SyncPlanner *)

Definition startswith (s p : string) : bool := String.prefix p s.

Definition endswith (s suffix : string) : bool :=
  let n := String.length s in
  let k := String.length suffix in
  (k <=? n)%nat && String.eqb (substring (n - k) k s) suffix.

(** The body of [for pr in metadata]: the inner [try] turns a date that
    does not parse (or does not compare) into [continue]. *)
Definition scan_record (latest_date : option datetime)
    (pr : MetadataRecord) : exc (option datetime) :=
  match created_at pr with
  | Some s =>
      if truthy (Some s) then
        try_except
          (dt <- parse_created_at fromisoformat s ;;
           Ret (match latest_date with
                | None => Some dt
                | Some latest => if latest <? dt then Some dt
                                 else Some latest
                end))
          (Ret latest_date)
      else Ret latest_date
  | None => Ret latest_date
  end.

Fixpoint scan_records (metadata : list MetadataRecord)
    (latest_date : option datetime) : exc (option datetime) :=
  match metadata with
  | [] => Ret latest_date
  | pr :: rest =>
      latest_date <- scan_record latest_date pr ;;
      scan_records rest latest_date
  end.

(** The body of [for filename in agent_files]: an exception while
    downloading or loading the shard is [continue].  The records are read
    only after the download returned, and reading them does not raise
    ([scan_records_returns]), so the handler always finds [latest_date] as
    it was before the file. *)
Definition scan_file (h : hub) (latest_date : option datetime)
    (filename : string) : exc (option datetime) :=
  try_except
    (file <- hf_hub_download h filename ;;
     let metadata := load_jsonl file in
     scan_records metadata latest_date)
    (Ret latest_date).

Fixpoint scan_files (h : hub) (agent_files : list string)
    (latest_date : option datetime) : exc (option datetime) :=
  match agent_files with
  | [] => Ret latest_date
  | filename :: rest =>
      latest_date <- scan_file h latest_date filename ;;
      scan_files h rest latest_date
  end.

Definition agent_files_of (agent_identifier : string)
    (files : list string) : list string :=
  let agent_pattern := (agent_identifier ++ "/")%string in
  filter (fun f => startswith f agent_pattern && endswith f ".jsonl") files.

Definition get_latest_pr_date_for_agent (h : hub)
    (agent_identifier : string) : exc (option datetime) :=
  try_except
    (files <- list_repo_files h ;;
     let agent_files := agent_files_of agent_identifier files in
     match agent_files with
     | [] => Ret None
     | _ :: _ => scan_files h agent_files None
     end)
    (Ret None).
End Persistence.

(** ** Python floats *)

(** Binary64: 53 bits of precision, infinities at exponent 1024. *)
Definition f64 : Type := spec_float.

Definition f64_of_Z (z : Z) : f64 := binary_normalize 53 1024 z 0 false.
Definition f64_add : f64 -> f64 -> f64 := SFadd 53 1024.
Definition f64_sub : f64 -> f64 -> f64 := SFsub 53 1024.
Definition f64_mul : f64 -> f64 -> f64 := SFmul 53 1024.
Definition f64_div : f64 -> f64 -> f64 := SFdiv 53 1024.

(** [max(a, b)] and [min(a, b)] of two numbers: the second replaces the first
    only when it compares strictly greater (smaller); a NaN never does. *)
Definition py_max (a b : f64) : f64 := if SFltb a b then b else a.
Definition py_min (a b : f64) : f64 := if SFltb b a then b else a.

(** [int(x)] of a float: truncation, [ValueError] on a NaN and
    [OverflowError] on an infinity. *)
Definition py_int (x : f64) : exc Z :=
  match x with
  | S754_zero _ => Ret 0
  | S754_finite s m e =>
      let magnitude :=
        match e with
        | Zneg p => Zpos m / Z.pow_pos 2 p
        | _ => Zpos m * 2 ^ e
        end in
      Ret (if s then - magnitude else magnitude)
  | S754_infinity _ => Raise
  | S754_nan => Raise
  end.

(** [round(x, 2)] of a float: the decimal with two places nearest to the
    exact value of [x], ties to even, read back as the nearest float (the
    correctly rounded quotient by 100). *)
Definition f64_round2 (x : f64) : f64 :=
  match x with
  | S754_finite s m e =>
      let hundredths :=
        match e with
        | Zneg p => divide_and_round (Zpos m * 100) (Z.pow_pos 2 p)
        | _ => Zpos m * 100 * 2 ^ e
        end in
      match hundredths with
      | Zpos k => f64_div (S754_finite s k 0) (S754_finite false 100 0)
      | _ => S754_zero s
      end
  | _ => x
  end.

(** A Python number: [0] and [0.0] are different results. *)
Inductive pynum : Type :=
| PyInt (z : Z)
| PyFloat (x : f64).

(** [round(v, 2)]: an [int] is returned as it is. *)
Definition py_round2 (v : pynum) : pynum :=
  match v with
  | PyInt z => PyInt z
  | PyFloat x => PyFloat (f64_round2 x)
  end.

(** ** StatsAggregator *)

Record pr_stats : Type := {
  total_prs : Z;
  merged : Z;
  acceptance_rate : pynum
}.

(** [sum(1 for x in l if p(x))] *)
Definition count_if {A : Type} (p : A -> bool) (l : list A) : Z :=
  Z.of_nat (List.length (filter p l)).

(** [calculate_pr_stats_from_metadata].  [merged / total_decisions] is the
    true division of two integers, which for counts below [2^53] is the
    division of their floats. *)
Definition calculate_pr_stats_from_metadata (metadata_list : list MetadataRecord)
  : pr_stats :=
  let total_prs := Z.of_nat (List.length metadata_list) in
  let merged :=
    count_if (fun pr_meta => truthy (merged_at pr_meta)) metadata_list in
  let closed_not_merged :=
    count_if (fun pr_meta => truthy (closed_at pr_meta)
                             && negb (truthy (merged_at pr_meta)))
      metadata_list in
  let total_decisions := merged + closed_not_merged in
  let acceptance_rate :=
    if 0 <? total_decisions
    then PyFloat (f64_mul (f64_div (f64_of_Z merged) (f64_of_Z total_decisions))
                    (f64_of_Z 100))
    else PyInt 0 in
  {| total_prs := total_prs;
     merged := merged;
     acceptance_rate := py_round2 acceptance_rate |}.

(** ** RateLimitedClient *)

(** A response, with the status and the two headers the client reads
    (the header table of [requests] ignores case, so both spellings looked up
    by the source are one entry). *)
Record http_response : Type := {
  status_code : Z;
  retry_after_header : option string;
  ratelimit_reset_header : option string
}.

(** What one [requests.request] call comes to, with the clock and the draw of
    [random.uniform(0, 0.5)] at that attempt. *)
Inductive attempt_outcome : Type :=
| RequestException
| Response (resp : http_response).

Record attempt : Type := {
  outcome : attempt_outcome;
  clock : f64;
  jitter : f64
}.

Definition rate_limited (status : Z) : bool :=
  (status =? 403) || (status =? 429).

Definition retryable (status : Z) : bool :=
  rate_limited status || ((500 <=? status) && (status <? 600)).

Section Backoff.
(** [float(s)] of a header is the interpreter's: a parameter.  It raises
    [ValueError] on a string that is no number. *)
Variable py_float : string -> exc f64.

(** [float(retry_after)] under [if retry_after:] and its [try]. *)
Definition retry_after_wait (resp : http_response) : option f64 :=
  match retry_after_header resp with
  | Some s =>
      if truthy (Some s) then
        match py_float s with
        | Ret wait => Some wait
        | Raise => None
        end
      else None
  | None => None
  end.

(** [int(float(reset_hdr))] under [if reset_hdr:] and its [try]. *)
Definition reset_timestamp (resp : http_response) : option Z :=
  match ratelimit_reset_header resp with
  | Some s =>
      if truthy (Some s) then
        match (x <- py_float s ;; py_int x) with
        | Ret reset_ts => Some reset_ts
        | Raise => None
        end
      else None
  | None => None
  end.

(** The wait of the branch [status in (403, 429) or 500 <= status < 600],
    from [wait = None] to the value given to [time.sleep]. *)
Definition backoff_wait (resp : http_response) (now uniform delay : f64)
  : f64 :=
  let wait := retry_after_wait resp in
  let wait :=
    match wait with
    | None =>
        if rate_limited (status_code resp) then
          match reset_timestamp resp with
          | Some reset_ts =>
              Some (py_max (f64_add (f64_sub (f64_of_Z reset_ts) now)
                              (f64_of_Z 2))
                      (f64_of_Z 1))
          | None => None
          end
        else None
    | Some wait => Some wait
    end in
  let wait :=
    match wait with
    | None => f64_add delay uniform
    | Some wait => wait
    end in
  py_max (f64_of_Z 1) (py_min wait (f64_of_Z 120)).

(** The wait after a [requests.RequestException]. *)
Definition exception_wait (uniform delay : f64) : f64 :=
  py_max (f64_of_Z 1) (py_min (f64_add delay uniform) (f64_of_Z 60)).

(** [delay = min(delay * 2, 60.0)] *)
Definition next_delay (delay : f64) : f64 :=
  py_min (f64_mul delay (f64_of_Z 2)) (f64_of_Z 60).

(** The [for attempt in range(max_retries)] loop over the outcomes of the
    successive attempts; the result is the response (or [None]) and the
    waits slept, in order. *)
Fixpoint request_with_backoff_from (delay : f64) (attempts : list attempt)
  : option http_response * list f64 :=
  match attempts with
  | [] => (None, [])
  | a :: rest =>
      match outcome a with
      | Response resp =>
          let status := status_code resp in
          if (200 <=? status) && (status <? 300) then (Some resp, [])
          else if retryable status then
            let wait := backoff_wait resp (clock a) (jitter a) delay in
            let '(r, waits) :=
              request_with_backoff_from (next_delay delay) rest in
            (r, wait :: waits)
          else (Some resp, [])
      | RequestException =>
          let wait := exception_wait (jitter a) delay in
          let '(r, waits) :=
            request_with_backoff_from (next_delay delay) rest in
          (r, wait :: waits)
      end
  end.

Definition request_with_backoff (attempts : list attempt)
  : option http_response * list f64 :=
  request_with_backoff_from (f64_of_Z 1) attempts.
End Backoff.

(** The delay in force at attempt [k] (from 0), every earlier attempt having
    been retried. *)
Definition delay_at (k : nat) : f64 := Nat.iter k next_delay (f64_of_Z 1).

(** ** Reference definitions

    The words of the specification, to compare the code with. *)

(** A field is set when it is not null. *)
Definition is_set (o : option string) : bool :=
  match o with
  | Some _ => true
  | None => false
  end.

(** A timestamp field holds a timestamp or null: never the empty string,
    which is no timestamp. *)
Definition timestamp_or_null (o : option string) : Prop :=
  o <> Some EmptyString.

(** The merge timestamp of a raw match: [merged_at] of its [pull_request]
    object, null when there is none. *)
Definition raw_merged_at (pr : RawMatch) : option string :=
  match raw_pull_request pr with
  | PullRequestObject m => m
  | _ => None
  end.

(** The fetch window starts one second after the watermark, but not before
    the lookback floor; at the floor when there is no watermark. *)
Definition window_start_spec (now : datetime) (watermark : option datetime)
  : datetime :=
  match watermark with
  | Some w => Z.max (w + timedelta_seconds 1) (now - timedelta_days 180)
  | None => now - timedelta_days 180
  end.

(** A well-formed shard: every record has a url, and no two records share
    one (the url is the key of a record within its shard). *)
Definition shard_wf (l : list MetadataRecord) : Prop :=
  NoDup (map html_url l) /\ forall r, In r l -> truthy (html_url r) = true.

(** The record kept under a url in a list of records: the last one. *)
Definition lookup_url (url : string) (l : list MetadataRecord)
  : option MetadataRecord :=
  dict_get String.eqb url (by_url l).

(** Every record of a shard file carries a url. *)
Definition shard_urls_set (file : list jsonl_line) : Prop :=
  forall r, In (Entry r) file -> html_url r <> None.

Definition hub_urls_set (h : hub) : Prop :=
  forall name file, In (name, file) (hub_files h) -> shard_urls_set file.

Definition cache_urls_set (cache : @dict string (list MetadataRecord)) : Prop :=
  forall agent l r, In (agent, l) cache -> In r l -> html_url r <> None.

Definition url_of (r : MetadataRecord) : string :=
  match html_url r with
  | Some u => u
  | None => EmptyString
  end.

(** A dictionary keyed by url: every record sits under its own, true url. *)
Definition url_keyed (d : @dict string MetadataRecord) : Prop :=
  forall k r, In (k, r) d -> html_url r = Some k /\ truthy (Some k) = true.

(** ** Example data *)

Definition merged_and_closed_match : RawMatch :=
  {| raw_id := Some 7;
     raw_html_url := Some "https://github.com/o/r/pull/7";
     raw_created_at := Some "2024-01-01T00:00:00Z";
     raw_closed_at := Some "2024-01-02T00:00:00Z";
     raw_pull_request := PullRequestObject (Some "2024-01-02T00:00:00Z") |}.

Definition merged_and_closed_record : MetadataRecord :=
  {| html_url := Some "https://github.com/o/r/pull/7";
     created_at := Some "2024-01-01T00:00:00Z";
     merged_at := Some "2024-01-02T00:00:00Z";
     closed_at := None |}.

(** ** Statistics, in the words of the specification *)

(** The number of records with a non-null [merged_at]. *)
Definition merged_count (l : list MetadataRecord) : Z :=
  count_if (fun r => is_set (merged_at r)) l.

(** The number of records closed without merge. *)
Definition closed_without_merge_count (l : list MetadataRecord) : Z :=
  count_if (fun r => is_set (closed_at r) && negb (is_set (merged_at r))) l.

(** The exact value of a float, as a fraction (zero for what is no
    number). *)
Definition exact_value (x : f64) : Q :=
  match x with
  | S754_finite s m e =>
      let magnitude :=
        match e with
        | Zneg p => Zpos m # (2 ^ p)%positive
        | _ => inject_Z (Zpos m * 2 ^ e)
        end in
      if s then Qopp magnitude else magnitude
  | _ => inject_Z 0
  end.

(** The integer nearest to a fraction, the even one of two that are equally
    near. *)
Definition round_half_even (q : Q) : Z :=
  let below := Qfloor q in
  match Qcompare (Qminus q (inject_Z below)) (1 # 2) with
  | Lt => below
  | Gt => below + 1
  | Eq => if Z.even below then below else below + 1
  end.

(** The float nearest to the fraction [n / d], with the sign [s]: the
    correctly rounded quotient of the two integers. *)
Definition float_of_fraction (s : bool) (n d : positive) : f64 :=
  f64_div (S754_finite s n 0) (S754_finite false d 0).

(** A float rounded to two decimals: the number of hundredths nearest to
    its exact value, as a float again; what is no number stays. *)
Definition round_to_2_decimals (x : f64) : f64 :=
  match x with
  | S754_finite s _ _ =>
      match round_half_even (Qmult (Qabs (exact_value x)) (inject_Z 100)) with
      | Zpos hundredths => float_of_fraction s hundredths 100
      | _ => S754_zero s
      end
  | _ => x
  end.

(** [merged / (merged + closed_without_merge) * 100] rounded to two
    decimals, in floating point; the integer [0] when nothing is decided. *)
Definition acceptance_rate_spec (merged closed_without_merge : Z) : pynum :=
  if merged + closed_without_merge =? 0 then PyInt 0
  else PyFloat
         (round_to_2_decimals
            (f64_mul
               (f64_div (f64_of_Z merged)
                  (f64_of_Z (merged + closed_without_merge)))
               (f64_of_Z 100))).

Definition timestamps_well_formed (l : list MetadataRecord) : Prop :=
  forall r, In r l ->
    timestamp_or_null (merged_at r) /\ timestamp_or_null (closed_at r).

(** The three records of the worked example: A merged, B closed without
    merge, C still open. *)
Definition agent_x_records : list MetadataRecord :=
  [ {| html_url := Some "https://github.com/o/r/pull/1";
       created_at := Some "2024-01-01T00:00:00Z";
       merged_at := Some "2024-01-02T00:00:00Z";
       closed_at := None |};
    {| html_url := Some "https://github.com/o/r/pull/2";
       created_at := Some "2024-01-03T00:00:00Z";
       merged_at := None;
       closed_at := Some "2024-01-04T00:00:00Z" |};
    {| html_url := Some "https://github.com/o/r/pull/3";
       created_at := Some "2024-01-05T00:00:00Z";
       merged_at := None;
       closed_at := None |} ].

(** [k] copies of a record. *)
Definition copies (k : nat) (r : MetadataRecord) : list MetadataRecord :=
  repeat r k.

(** A merged record and one closed without merge, for rates that need
    rounding. *)
Definition merged_record : MetadataRecord :=
  {| html_url := None; created_at := None;
     merged_at := Some "2024-01-02T00:00:00Z"; closed_at := None |}.

Definition closed_record : MetadataRecord :=
  {| html_url := None; created_at := None;
     merged_at := None; closed_at := Some "2024-01-04T00:00:00Z" |}.

(** ** The watermark, in the words of the specification *)

Section WatermarkSpec.
Variable fromisoformat : string -> exc datetime.

(** The creation date of a record, when it has one that parses: [None]
    for a [created_at] that is missing, null, empty or no ISO date. *)
Definition parsed_date (r : MetadataRecord) : option datetime :=
  match created_at r with
  | Some s =>
      if truthy (Some s) then
        match parse_created_at fromisoformat s with
        | Ret dt => Some dt
        | Raise => None
        end
      else None
  | None => None
  end.

Definition later (latest : option datetime) (dt : datetime)
  : option datetime :=
  match latest with
  | None => Some dt
  | Some l => Some (Z.max l dt)
  end.

(** The maximum of a list of dates, absent for the empty list. *)
Definition max_date (l : list datetime) : option datetime :=
  fold_left later l None.

Definition dated (records : list MetadataRecord) : list datetime :=
  flat_map (fun r => match parsed_date r with
                     | Some dt => [dt]
                     | None => []
                     end) records.

(** The records of the shards that can be read. *)
Definition readable_records (h : hub) (files : list string)
  : list MetadataRecord :=
  flat_map (fun f => match hf_hub_download h f with
                     | Ret file => load_jsonl file
                     | Raise => []
                     end) files.

(** The watermark: the maximum [created_at] over the records of the
    identity's shards that can be read and dated. *)
Definition watermark_spec (h : hub) (agent_identifier : string)
  : option datetime :=
  max_date
    (dated (readable_records h
              (agent_files_of agent_identifier (dict_keys (hub_files h))))).
End WatermarkSpec.

(** ** An ISO parser for the examples

    [datetime.fromisoformat] on the strings [YYYY-MM-DDTHH:MM:SS+00:00],
    which is what a timestamp of the provider becomes once its [Z] is
    replaced; every other string is refused here. *)

Definition digit (c : ascii) : option Z :=
  let n := nat_of_ascii c in
  if (48 <=? n)%nat && (n <=? 57)%nat then Some (Z.of_nat (n - 48)) else None.

Fixpoint digits (s : string) (acc : Z) : option Z :=
  match s with
  | EmptyString => Some acc
  | String c s' =>
      match digit c with
      | Some d => digits s' (acc * 10 + d)
      | None => None
      end
  end.

Definition number_at (s : string) (from len : nat) : option Z :=
  digits (substring from len s) 0.

Definition is_leap (y : Z) : bool :=
  ((y mod 4 =? 0) && negb (y mod 100 =? 0)) || (y mod 400 =? 0).

Definition days_in_month (y m : Z) : Z :=
  if m =? 2 then (if is_leap y then 29 else 28)
  else if (m =? 4) || (m =? 6) || (m =? 9) || (m =? 11) then 30
  else 31.

Definition fromisoformat_utc (s : string) : exc datetime :=
  if (String.length s =? 25)%nat
     && String.eqb (substring 4 1 s) "-"
     && String.eqb (substring 7 1 s) "-"
     && String.eqb (substring 10 1 s) "T"
     && String.eqb (substring 13 1 s) ":"
     && String.eqb (substring 16 1 s) ":"
     && String.eqb (substring 19 6 s) "+00:00"
  then
    match number_at s 0 4, number_at s 5 2, number_at s 8 2,
          number_at s 11 2, number_at s 14 2, number_at s 17 2 with
    | Some y, Some m, Some d, Some hh, Some mm, Some ss =>
        if (1 <=? y) && (1 <=? m) && (m <=? 12) && (1 <=? d)
           && (d <=? days_in_month y m) && (hh <? 24) && (mm <? 60)
           && (ss <? 60)
        then Ret (utc y m d hh mm ss)
        else Raise
    | _, _, _, _, _, _ => Raise
    end
  else Raise.

(** Two day shards of one identity; the first cannot be downloaded. *)
Definition failing_hub : hub :=
  {| hub_files :=
       [ ("agent-x/2024.01.01.jsonl",
          [Entry {| html_url := Some "https://github.com/o/r/pull/1";
                    created_at := Some "2024-01-01T00:00:00Z";
                    merged_at := None; closed_at := None |}]);
         ("agent-x/2024.01.02.jsonl",
          [Entry {| html_url := Some "https://github.com/o/r/pull/2";
                    created_at := Some "2024-01-02T00:00:00Z";
                    merged_at := None; closed_at := None |}]) ];
     hub_list_fails := false;
     hub_download_fails :=
       (fun f => String.eqb f "agent-x/2024.01.01.jsonl");
     hub_upload_fails := fun _ => false |}.

(** A repository without files, on which every call succeeds. *)
Definition empty_world : world :=
  {| w_hub := {| hub_files := [];
                 hub_list_fails := false;
                 hub_download_fails := fun _ => false;
                 hub_upload_fails := fun _ => false |};
     w_debug_cache := [] |}.

(** A mined record without creation date, and one whose date is no date. *)
Definition undated_record : MetadataRecord :=
  {| html_url := Some "https://github.com/o/r/pull/9";
     created_at := None;
     merged_at := None;
     closed_at := None |}.

Definition misdated_record : MetadataRecord :=
  {| html_url := Some "https://github.com/o/r/pull/10";
     created_at := Some "yesterday";
     merged_at := None;
     closed_at := None |}.

(** Every record of every day group has a creation date that parses. *)
Definition dated_groups (fromisoformat : string -> exc datetime)
    (grouped : @dict date_key (list MetadataRecord)) : Prop :=
  forall key bucket r,
    In (key, bucket) grouped -> In r bucket ->
    parsed_date fromisoformat r <> None.

(** ** The wait of the client, in the words of the specification *)

(** A value clamped to [[lo, hi]]. *)
Definition clamp (lo hi w : f64) : f64 := py_max lo (py_min w hi).

(** Exponential backoff: 1 second, doubled at each attempt, capped at 60. *)
Definition backoff_spec (k : nat) : f64 :=
  f64_of_Z (Z.min (2 ^ Z.of_nat k) 60).

(** The whole part of a fraction: rounding toward zero. *)
Definition truncate (q : Q) : Z :=
  if Qle_bool (inject_Z 0) q then Qfloor q else Qceiling q.

(** A number of seconds as a whole number; an infinity and a NaN are
    none. *)
Definition whole_seconds (x : f64) : option Z :=
  match x with
  | S754_infinity _ => None
  | S754_nan => None
  | _ => Some (truncate (exact_value x))
  end.

Section WaitSpec.
Variable py_float : string -> exc f64.

(** The number a header holds: none when the response has no such header
    or the header holds no number. *)
Definition header_number (header : option string) : option f64 :=
  match header with
  | Some value =>
      match py_float value with
      | Ret x => Some x
      | Raise => None
      end
  | None => None
  end.

(** The provider-supplied retry-after duration. *)
Definition retry_after_spec (resp : http_response) : option f64 :=
  header_number (retry_after_header resp).

(** The provider-supplied rate-limit-reset timestamp, in whole seconds;
    it counts for 403 and 429 only. *)
Definition reset_spec (resp : http_response) : option Z :=
  if (status_code resp =? 403) || (status_code resp =? 429) then
    match header_number (ratelimit_reset_header resp) with
    | Some x => whole_seconds x
    | None => None
    end
  else None.

(** In priority order: the retry-after duration; else, for 403 and 429
    only, [reset - now + 2]; else the backoff of the attempt plus the jitter
    drawn; clamped to [[1, 120]]. *)
Definition wait_spec (resp : http_response) (now uniform : f64) (k : nat)
  : f64 :=
  clamp (f64_of_Z 1) (f64_of_Z 120)
    (match retry_after_spec resp with
     | Some retry_after => retry_after
     | None =>
         match reset_spec resp with
         | Some reset =>
             f64_add (f64_sub (f64_of_Z reset) now) (f64_of_Z 2)
         | None => f64_add (backoff_spec k) uniform
         end
     end).

(** The waits of a run in which every attempt is retried, attempt [k]
    first. *)
Fixpoint waits_spec (k : nat) (attempts : list attempt) : list f64 :=
  match attempts with
  | [] => []
  | a :: rest =>
      match outcome a with
      | Response resp => wait_spec resp (clock a) (jitter a) k
      | RequestException =>
          clamp (f64_of_Z 1) (f64_of_Z 60)
            (f64_add (backoff_spec k) (jitter a))
      end :: waits_spec (S k) rest
  end.
End WaitSpec.

(** An attempt that is retried: no response, or a response with status 403,
    429 or 5xx. *)
Definition retried (a : attempt) : bool :=
  match outcome a with
  | RequestException => true
  | Response resp => retryable (status_code resp)
  end.

(** A parser of header values for the examples: whole numbers of seconds. *)
Definition py_float_digits (s : string) : exc f64 :=
  match s with
  | EmptyString => Raise
  | _ => match digits s 0 with
         | Some n => Ret (f64_of_Z n)
         | None => Raise
         end
  end.

(** Responses for the examples: a 429 with [Retry-After: 7], a 403 whose
    limit resets at second 1030, a 503 with the same reset header, and a 429
    asking for 500 seconds. *)
Definition resp_retry_after : http_response :=
  {| status_code := 429; retry_after_header := Some "7";
     ratelimit_reset_header := Some "1030" |}.

Definition resp_reset : http_response :=
  {| status_code := 403; retry_after_header := None;
     ratelimit_reset_header := Some "1030" |}.

Definition resp_server_error : http_response :=
  {| status_code := 503; retry_after_header := None;
     ratelimit_reset_header := Some "1030" |}.

Definition resp_retry_after_long : http_response :=
  {| status_code := 429; retry_after_header := Some "500";
     ratelimit_reset_header := None |}.

(** ** A synthetic provider with evenly spread matches *)

(** [f'{y}-{m:02d}-{d:02d}T00:00:00Z'] of a day number. *)
Definition iso_midnight (day : Z) : string :=
  let '(y, m, d) := civil_from_days day in
  (string_of_Z y ++ "-" ++ pad2 m ++ "-" ++ pad2 d ++ "T00:00:00Z")%string.

(** Match number [k] (from 0) of a table with [per_day] matches on each day
    from [day0] on: an open pull request with id [k + 1]. *)
Definition spread_match (day0 : Z) (per_day : nat) (k : nat) : Z * RawMatch :=
  let day := day0 + Z.of_nat (k / per_day) in
  (day,
   {| raw_id := Some (Z.of_nat k + 1);
      raw_html_url :=
        Some ("https://github.com/o/r/pull/" ++ string_of_Z (Z.of_nat k + 1))%string;
      raw_created_at := Some (iso_midnight day);
      raw_closed_at := None;
      raw_pull_request := PullRequestObject None |}).

Definition evenly_spread (day0 : Z) (per_day total : nat)
  : list (Z * RawMatch) :=
  map (spread_match day0 per_day) (seq 0 total).

(** 1500 matches, ten a day over the 150 days from 2024-01-01 to
    2024-05-29, whatever the query pattern. *)
Definition day_2024_01_01 : Z := days_from_civil 2024 1 1.

Definition provider_1500 : search_api :=
  synthetic_provider (fun _ => evenly_spread day_2024_01_01 10 1500).

(** Two matches, the first found by every pattern, the second by the
    author pattern only. *)
Definition shared_match : Z * RawMatch :=
  spread_match day_2024_01_01 1 0.

Definition author_only_match : Z * RawMatch :=
  spread_match day_2024_01_01 1 1.

Definition provider_two_patterns : search_api :=
  synthetic_provider
    (fun pattern =>
       if String.eqb pattern "is:pr author:agent-x"
       then [shared_match; author_only_match]
       else [shared_match]).

(** The ids of a list of matches that the partitioner takes: those that are
    true. *)
Definition taken_ids (items : list RawMatch) : list Z :=
  flat_map (fun pr => match raw_id pr with
                      | Some i => if truthy_int (Some i) then [i] else []
                      | None => []
                      end) items.

(** No day of the table holds more than 1000 matches of a pattern. *)
Definition thin (tables : string -> list (Z * RawMatch)) : Prop :=
  forall pattern day,
    (List.length (matching (tables pattern) day day) <= 1000)%nat.

(** ** The partitioner, in the words of the specification *)

(** A day lies in the range of a query. *)
Definition in_days (from_day to_day day : Z) : Prop :=
  from_day <= day <= to_day.

(** The dictionary [d'] is [d] extended by exactly the ids of [items], with
    no key twice. *)
Definition collects (d d' : prs_dict) (items : list RawMatch) : Prop :=
  NoDup (dict_keys d')
  /\ forall i, In i (dict_keys d')
               <-> In i (dict_keys d) \/ In i (taken_ids items).

(** The dictionary that holds the 1500 matches of [provider_1500], each once,
    under its id. *)
Definition all_1500 : prs_dict :=
  map (fun e => (match raw_id (snd e) with Some i => i | None => 0 end, snd e))
      (evenly_spread day_2024_01_01 10 1500).

Definition range_start : datetime := utc 2024 1 1 0 0 0.
Definition range_end : datetime := utc 2024 5 29 23 59 59.

(** ** Further reference definitions *)

(** What a pass over several patterns finds in a day range: the matches of
    the patterns, one pattern after the other. *)
Definition matches_of_patterns (tables : string -> list (Z * RawMatch))
    (patterns : list string) (from_day to_day : Z) : list RawMatch :=
  flat_map (fun p => matching (tables p) from_day to_day) patterns.

(** The dictionary of a scan, however it ends. *)
Definition scan_dict (r : scan_result) : option prs_dict :=
  match r with
  | Returned _ d => Some d
  | Overflow d => Some d
  | PagesExhausted => None
  end.

(** The provider serves pages of at most [per_page] items. *)
Definition pages_bounded (api : search_api) : Prop :=
  forall query page total_count items,
    api query page = Page total_count items ->
    Z.of_nat (List.length items) <= per_page.

(** A float between two bounds (so not a NaN). *)
Definition between (lo hi w : f64) : Prop :=
  SFleb lo w = true /\ SFleb w hi = true.

(** The record of a raw match: url and creation date copied, the merge
    date of the pull request, and the closing date unless merged. *)
Definition extracted (pr : RawMatch) : MetadataRecord :=
  {| html_url := raw_html_url pr;
     created_at := raw_created_at pr;
     merged_at := raw_merged_at pr;
     closed_at := if truthy (raw_merged_at pr) then None
                  else raw_closed_at pr |}.

(** The day key of a record, when its creation date parses. *)
Definition date_key_of (fromisoformat : string -> exc datetime)
    (r : MetadataRecord) : option date_key :=
  match parsed_date fromisoformat r with
  | Some dt => Some (civil_from_days (day_of dt))
  | None => None
  end.

(** The record was created on the day [key]. *)
Definition on_day (fromisoformat : string -> exc datetime) (key : date_key)
    (r : MetadataRecord) : bool :=
  match date_key_of fromisoformat r with
  | Some k => date_key_eqb k key
  | None => false
  end.

(** [grouped[key]] of the [defaultdict]: the empty list when absent. *)
Definition group_get (key : date_key)
    (grouped : @dict date_key (list MetadataRecord))
  : list MetadataRecord :=
  match dict_get date_key_eqb key grouped with
  | Some bucket => bucket
  | None => []
  end.

(** The upsert, record by record: every existing record stays where it is,
    replaced by the new record of the same url if there is one, and the new
    records with other urls follow, in the order their urls first appear. *)
Definition upserted (existing new : list MetadataRecord)
  : list MetadataRecord :=
  (map (fun r => match lookup_url (url_of r) new with
                 | Some r' => r'
                 | None => r
                 end) existing
   ++ filter (fun r => negb (dict_mem String.eqb (url_of r) (by_url existing)))
        (dict_values (by_url new)))%list.

(** ** Leaderboard rows *)

(** A row of the leaderboard, as [update_all_agents_incremental] builds it:
    name, organization, identifier and the statistics. *)
Record leaderboard_entry : Type := {
  le_agent_name : string;
  le_organization : string;
  le_github_identifier : string;
  le_stats : pr_stats
}.

(** [{entry['github_identifier']: entry for entry in cache_list}] *)
Definition cache_to_dict (cache_list : list leaderboard_entry)
  : @dict string leaderboard_entry :=
  fold_left
    (fun d entry => dict_set String.eqb (le_github_identifier entry) entry d)
    cache_list [].

(** [list(cache_dict.values())] *)
Definition dict_to_cache (cache_dict : @dict string leaderboard_entry)
  : list leaderboard_entry :=
  dict_values cache_dict.

(** A record is decided when it is merged or closed. *)
Definition decided (r : MetadataRecord) : bool :=
  truthy (merged_at r) || truthy (closed_at r).

(** The dates of the identity's records that can be read and dated. *)
Definition agent_dates (fromisoformat : string -> exc datetime) (h : hub)
    (agent_identifier : string) : list datetime :=
  dated fromisoformat
    (readable_records h
       (agent_files_of agent_identifier (dict_keys (hub_files h)))).

(** ** Reading a period back: [load_pr_metadata_for_year] *)

(** [c in s] *)
Fixpoint has_char (c : ascii) (s : string) : bool :=
  match s with
  | EmptyString => false
  | String a s' => Ascii.eqb a c || has_char c s'
  end.

(** [s.split(sep)] for a separator of one character. *)
Fixpoint split_on (sep : ascii) (s : string) : list string :=
  match s with
  | EmptyString => [EmptyString]
  | String a s' =>
      if Ascii.eqb a sep then EmptyString :: split_on sep s'
      else
        match split_on sep s' with
        | part :: parts => String a part :: parts
        | [] => [String a EmptyString]
        end
  end.

(** A record with the [agent_identifier] key that the loader adds. *)
Record tagged_record : Type := {
  agent_identifier : string;
  tagged_meta : MetadataRecord
}.

Definition tag (agent : string) (r : MetadataRecord) : tagged_record :=
  {| agent_identifier := agent; tagged_meta := r |}.

(** The test of the first loop: a [.jsonl] path of two parts whose second
    part starts with the year and a dot. *)
Definition year_file (year : Z) (f : string) : bool :=
  if endswith f ".jsonl" then
    let parts := split_on "/" f in
    if (List.length parts =? 2)%nat then
      let filename := nth 1 parts EmptyString in
      startswith filename (string_of_Z year ++ ".")
    else false
  else false.

(** The body of the second loop, with its [try]: the records of one shard,
    tagged with the first part of its path; nothing when the path has not
    two parts or the download raises. *)
Definition load_year_file (h : hub) (filename : string)
  : exc (list tagged_record) :=
  try_except
    (let parts := split_on "/" filename in
     if negb (List.length parts =? 2)%nat then Ret []
     else
       let agent_identifier := nth 0 parts EmptyString in
       file <- hf_hub_download h filename ;;
       let day_metadata := load_jsonl file in
       Ret (map (tag agent_identifier) day_metadata))
    (Ret []).

Fixpoint load_year_files (h : hub) (year_files : list string)
    (all_metadata : list tagged_record) : exc (list tagged_record) :=
  match year_files with
  | [] => Ret all_metadata
  | filename :: rest =>
      day_metadata <- load_year_file h filename ;;
      load_year_files h rest (all_metadata ++ day_metadata)%list
  end.

(** The records of the debug cache, each tagged with its identity. *)
Definition cached_metadata (cache : @dict string (list MetadataRecord))
  : list tagged_record :=
  flat_map (fun entry => map (tag (fst entry)) (snd entry)) cache.

(** [load_pr_metadata_for_year]: in debug mode the cache, when it holds a
    record; otherwise the shards of the year. *)
Definition load_pr_metadata_for_year (debug_mode : bool) (w : world)
    (year : Z) : exc (list tagged_record) :=
  let all_metadata :=
    if debug_mode && negb (match w_debug_cache w with [] => true | _ => false end)
    then cached_metadata (w_debug_cache w)
    else [] in
  match all_metadata with
  | _ :: _ => Ret all_metadata
  | [] =>
      try_except
        (files <- list_repo_files (w_hub w) ;;
         let year_files := filter (year_file year) files in
         load_year_files (w_hub w) year_files [])
        (Ret [])
  end.

(** The tagged records of one shard that can be read. *)
Definition shard_records (h : hub) (f : string) : list tagged_record :=
  match hf_hub_download h f with
  | Ret file => map (tag (nth 0 (split_on "/" f) EmptyString)) (load_jsonl file)
  | Raise => []
  end.

(** ** The cycle: [update_all_agents_incremental] *)

(** A roster entry; a field is [None] when its key is missing. *)
Record agent_entry : Type := {
  github_identifier : option string;
  agent_name : option string;
  organization : option string
}.

(** [d.get(key, 'Unknown')] of a roster entry. *)
Definition get_or_unknown (field : option string) : string :=
  match field with
  | Some s => s
  | None => "Unknown"
  end.

(** What a cycle is run against: the provider with the fuel of its
    bisections, the clock ([datetime.now(timezone.utc)], and the year of
    [datetime.now()]), the mode and whether a store token is set. *)
Record cycle_env : Type := {
  env_fuel : nat;
  env_api : search_api;
  env_now : datetime;
  env_year : Z;
  env_debug : bool;
  env_hf_token : bool
}.

Section Cycle.
Variable fromisoformat : string -> exc datetime.
Variable env : cycle_env.

(** The body of the [try] of one identity.  [None]: out of fuel.  Otherwise
    the store as the body left it, and the dictionary with the entry of the
    identity, or [Raise] where the body raised (the loop answers with
    [continue]). *)
Definition process_agent (agent : agent_entry) (identifier : string)
    (w : world) (cache_dict : @dict string leaderboard_entry)
  : option (world * exc (@dict string leaderboard_entry)) :=
  match get_latest_pr_date_for_agent fromisoformat (w_hub w) identifier with
  | Raise => Some (w, Raise)
  | Ret latest_pr_date =>
      let start_from := start_from latest_pr_date in
      match fetch_all_prs_metadata (env_fuel env) (env_api env)
              (env_debug env) (env_now env) identifier start_from with
      | None => None
      | Some Raise => Some (w, Raise)
      | Some (Ret new_metadata) =>
          let w :=
            match new_metadata with
            | [] => w
            | _ :: _ =>
                snd (save_pr_metadata_to_hf fromisoformat (env_debug env)
                       (env_hf_token env) new_metadata identifier w)
            end in
          match load_pr_metadata_for_year (env_debug env) w (env_year env) with
          | Raise => Some (w, Raise)
          | Ret all_year_metadata =>
              let agent_metadata :=
                filter (fun pr => String.eqb (agent_identifier pr) identifier)
                  all_year_metadata in
              let stats :=
                calculate_pr_stats_from_metadata
                  (map tagged_meta agent_metadata) in
              Some (w,
                    Ret (dict_set String.eqb identifier
                           {| le_agent_name :=
                                get_or_unknown (agent_name agent);
                              le_organization :=
                                get_or_unknown (organization agent);
                              le_github_identifier := identifier;
                              le_stats := stats |} cache_dict))
          end
      end
  end.

(** One turn of [for agent in agents]: an entry without identifier is
    skipped; an exception leaves the dictionary as it was. *)
Definition agent_step (agent : agent_entry)
    (st : world * @dict string leaderboard_entry)
  : option (world * @dict string leaderboard_entry) :=
  match github_identifier agent with
  | Some identifier =>
      if truthy (Some identifier) then
        match process_agent agent identifier (fst st) (snd st) with
        | None => None
        | Some (w, Ret cache_dict) => Some (w, cache_dict)
        | Some (w, Raise) => Some (w, snd st)
        end
      else Some st
  | None => Some st
  end.

Fixpoint agents_loop (agents : list agent_entry)
    (st : world * @dict string leaderboard_entry)
  : option (world * @dict string leaderboard_entry) :=
  match agents with
  | [] => Some st
  | agent :: rest =>
      match agent_step agent st with
      | None => None
      | Some st' => agents_loop rest st'
      end
  end.

(** [update_all_agents_incremental]; [agents] is what [load_agents_from_hf]
    returned ([None] when it failed). *)
Definition update_all_agents_incremental (agents : option (list agent_entry))
    (w : world) : option (world * @dict string leaderboard_entry) :=
  match agents with
  | None => Some (w, [])
  | Some [] => Some (w, [])
  | Some agents => agents_loop agents (w, [])
  end.
End Cycle.

(** ** Reference definitions for the cycle *)

(** What the store holds for a year: the tagged records of the shards that
    the loader selects and can read. *)
Definition stored_for_year (h : hub) (year : Z) : list tagged_record :=
  if hub_list_fails h then []
  else flat_map (shard_records h)
         (filter (year_file year) (dict_keys (hub_files h))).

(** The records of one identity among them. *)
Definition agent_view (h : hub) (year : Z) (k : string)
  : list tagged_record :=
  filter (fun pr => String.eqb (agent_identifier pr) k)
    (stored_for_year h year).

(** The entry the cycle stores for an identity. *)
Definition entry_of (agent : agent_entry) (identifier : string)
    (stored : list tagged_record) : leaderboard_entry :=
  {| le_agent_name := get_or_unknown (agent_name agent);
     le_organization := get_or_unknown (organization agent);
     le_github_identifier := identifier;
     le_stats :=
       calculate_pr_stats_from_metadata
         (map tagged_meta
            (filter (fun pr => String.eqb (agent_identifier pr) identifier)
               stored)) |}.

(** Example data: a store after one day was saved, and a small cycle. *)
Definition example_saved_hub : hub :=
  match save_day "agent-x" (w_hub empty_world) (2024, 1, 1) agent_x_records
  with
  | Ret h => h
  | Raise => w_hub empty_world
  end.

Definition example_env : cycle_env :=
  {| env_fuel := 4;
     env_api := provider_two_patterns;
     env_now := utc 2024 2 1 0 0 0;
     env_year := 2024;
     env_debug := false;
     env_hf_token := true |}.

Definition example_env_debug : cycle_env :=
  {| env_fuel := 4;
     env_api := provider_two_patterns;
     env_now := utc 2024 2 1 0 0 0;
     env_year := 2024;
     env_debug := true;
     env_hf_token := true |}.

Definition agent_x_entry : agent_entry :=
  {| github_identifier := Some "agent-x";
     agent_name := Some "Agent X";
     organization := None |}.

Definition nameless_entry : agent_entry :=
  {| github_identifier := None;
     agent_name := Some "No Identifier";
     organization := None |}.


(* ===================================================================== *)
(** * Part II.  Properties                                                *)
(* ===================================================================== *)

(** ** Dictionaries *)

Section DictFacts.
Context {K V : Type} (eqb : K -> K -> bool).
Hypothesis eqb_eq : forall x y, eqb x y = true <-> x = y.

Lemma eqb_refl_true (k : K) : eqb k k = true.
Proof. now apply eqb_eq. Qed.

Lemma eqb_neq_false (k k' : K) : k <> k' -> eqb k k' = false.
Proof.
  intros Hne. destruct (eqb k k') eqn:E; [|reflexivity].
  apply eqb_eq in E. contradiction.
Qed.

Lemma dict_get_In (k : K) (v : V) (d : @dict K V) :
  dict_get eqb k d = Some v -> In (k, v) d.
Proof.
  induction d as [|[k' v'] d IH]; simpl; [discriminate|].
  destruct (eqb k k') eqn:E.
  - apply eqb_eq in E. subst k'. intros [= ->]. now left.
  - intros H. right. now apply IH.
Qed.

Lemma dict_get_None (k : K) (d : @dict K V) :
  dict_get eqb k d = None <-> ~ In k (dict_keys d).
Proof.
  induction d as [|[k' v'] d IH]; simpl.
  - split; [intros _ []|reflexivity].
  - destruct (eqb k k') eqn:E.
    + apply eqb_eq in E. subst k'. split; [discriminate|].
      intros H. exfalso. apply H. now left.
    + rewrite IH. split.
      * intros H [->|Hin]; [|now apply H].
        rewrite eqb_refl_true in E. discriminate.
      * intros H Hin. apply H. now right.
Qed.

Lemma dict_mem_In (k : K) (d : @dict K V) :
  dict_mem eqb k d = true <-> In k (dict_keys d).
Proof.
  unfold dict_mem. destruct (dict_get eqb k d) as [v|] eqn:E.
  - split; [intros _|reflexivity].
    apply dict_get_In in E. apply (in_map fst) in E. exact E.
  - split; [discriminate|]. intros Hin.
    apply dict_get_None in E. contradiction.
Qed.

Lemma dict_get_nodup (k : K) (v : V) (d : @dict K V) :
  NoDup (dict_keys d) -> In (k, v) d -> dict_get eqb k d = Some v.
Proof.
  induction d as [|[k' v'] d IH]; simpl; [intros _ []|].
  intros Hnd [Heq|Hin].
  - injection Heq as -> ->. now rewrite eqb_refl_true.
  - inversion Hnd as [|? ? Hnotin Hnd']; subst.
    destruct (eqb k k') eqn:E.
    + apply eqb_eq in E. subst k'. exfalso. apply Hnotin.
      apply (in_map fst) in Hin. exact Hin.
    + now apply IH.
Qed.

Lemma dict_get_set_eq (k : K) (v : V) (d : @dict K V) :
  dict_get eqb k (dict_set eqb k v d) = Some v.
Proof.
  induction d as [|[k' v'] d IH]; simpl.
  - now rewrite eqb_refl_true.
  - destruct (eqb k k') eqn:E; simpl; rewrite E; [reflexivity|exact IH].
Qed.

Lemma dict_get_set_neq (k k0 : K) (v : V) (d : @dict K V) :
  k0 <> k -> dict_get eqb k0 (dict_set eqb k v d) = dict_get eqb k0 d.
Proof.
  intros Hne. induction d as [|[k' v'] d IH]; simpl.
  - now rewrite eqb_neq_false.
  - destruct (eqb k k') eqn:E; simpl.
    + apply eqb_eq in E. subst k'. now rewrite (eqb_neq_false k0 k).
    + now rewrite IH.
Qed.

Lemma dict_keys_set (k : K) (v : V) (d : @dict K V) :
  dict_keys (dict_set eqb k v d)
  = if dict_mem eqb k d then dict_keys d else (dict_keys d ++ [k])%list.
Proof.
  unfold dict_mem.
  induction d as [|[k' v'] d IH]; simpl; [reflexivity|].
  destruct (eqb k k') eqn:E; simpl; [reflexivity|].
  rewrite IH. now destruct (dict_get eqb k d).
Qed.

Lemma dict_set_length (k : K) (v : V) (d : @dict K V) :
  List.length (dict_set eqb k v d)
  = if dict_mem eqb k d then List.length d else S (List.length d).
Proof.
  pose proof (dict_keys_set k v d) as H.
  apply (f_equal (@List.length K)) in H. unfold dict_keys in H.
  rewrite length_map in H. rewrite H.
  destruct (dict_mem eqb k d).
  - now rewrite length_map.
  - rewrite length_app, length_map. simpl. lia.
Qed.

Lemma dict_set_nodup (k : K) (v : V) (d : @dict K V) :
  NoDup (dict_keys d) -> NoDup (dict_keys (dict_set eqb k v d)).
Proof.
  intros Hnd. rewrite dict_keys_set.
  destruct (dict_mem eqb k d) eqn:E; [exact Hnd|].
  apply NoDup_app; [exact Hnd|repeat constructor; intros []|].
  intros x Hin [<-|[]].
  apply dict_mem_In in Hin. congruence.
Qed.

Lemma dict_set_In (k k0 : K) (v v0 : V) (d : @dict K V) :
  In (k0, v0) (dict_set eqb k v d) -> (k0 = k /\ v0 = v) \/ In (k0, v0) d.
Proof.
  induction d as [|[k' v'] d IH]; simpl.
  - intros [[= <- <-]|[]]. now left.
  - destruct (eqb k k') eqn:E; simpl.
    + apply eqb_eq in E. subst k'.
      intros [[= <- <-]|Hin]; [now left|right; now right].
    + intros [Heq|Hin]; [right; now left|].
      destruct (IH Hin) as [H|H]; [now left|right; now right].
Qed.

Lemma dict_update_nodup (d other : @dict K V) :
  NoDup (dict_keys d) -> NoDup (dict_keys (dict_update eqb d other)).
Proof.
  unfold dict_update. revert d.
  induction other as [|[k v] other IH]; simpl; intros d Hnd; [exact Hnd|].
  apply IH. now apply dict_set_nodup.
Qed.

Lemma dict_update_get (k : K) (d other : @dict K V) :
  dict_get eqb k (dict_update eqb d other)
  = match dict_get eqb k (dict_update eqb [] other) with
    | Some v => Some v
    | None => dict_get eqb k d
    end.
Proof.
  unfold dict_update.
  revert d.
  induction other as [|[k' v'] other IH] using rev_ind; intros d.
  - simpl. reflexivity.
  - rewrite !fold_left_app. simpl.
    destruct (eqb k k') eqn:E.
    + apply eqb_eq in E. subst k'. now rewrite !dict_get_set_eq.
    + assert (Hne : k <> k').
      { intros ->. rewrite eqb_refl_true in E. discriminate. }
      rewrite !dict_get_set_neq by exact Hne. apply IH.
Qed.
End DictFacts.

(** ** PatternMiner: extraction *)

Lemma truthy_is_set (o : option string) :
  timestamp_or_null o -> truthy o = is_set o.
Proof.
  unfold timestamp_or_null. destruct o as [s|]; simpl; [|reflexivity].
  intros H. destruct (String.eqb_spec s EmptyString) as [->|_]; simpl.
  - now contradiction H.
  - reflexivity.
Qed.

(** Extraction returns for every raw match whose [pull_request] is not
    [null]. *)
Lemma extract_pr_metadata_returns (pr : RawMatch) :
  raw_pull_request pr <> PullRequestNull ->
  exists r, extract_pr_metadata pr = Ret r.
Proof.
  unfold extract_pr_metadata. destruct (raw_pull_request pr); simpl.
  - eauto.
  - intros H. now contradiction H.
  - eauto.
Qed.

(** The three fields other than [closed_at] are copied. *)
Lemma extract_pr_metadata_fields (pr : RawMatch) (r : MetadataRecord) :
  extract_pr_metadata pr = Ret r ->
  html_url r = raw_html_url pr /\ created_at r = raw_created_at pr
  /\ merged_at r = raw_merged_at pr
  /\ closed_at r = if truthy (raw_merged_at pr) then None
                   else raw_closed_at pr.
Proof.
  unfold extract_pr_metadata, raw_merged_at.
  destruct (raw_pull_request pr); simpl; try discriminate;
    intros [= <-]; simpl; auto.
Qed.

(** C3.  Merge implies closed: in the record extracted from a raw match, a
    non-null [merged_at] comes with a null [closed_at], whatever the raw
    match's own [closed_at] is; the two are never set together.  (The merge
    timestamp of a raw match is a timestamp or null.) *)
Theorem extract_merged_implies_closed_null
    (pr : RawMatch) (r : MetadataRecord) :
  timestamp_or_null (raw_merged_at pr) ->
  extract_pr_metadata pr = Ret r ->
  (merged_at r <> None -> closed_at r = None)
  /\ ~ (is_set (merged_at r) = true /\ is_set (closed_at r) = true)
  /\ (forall closed : option string,
        raw_merged_at pr <> None ->
        exists r',
          extract_pr_metadata
            {| raw_id := raw_id pr;
               raw_html_url := raw_html_url pr;
               raw_created_at := raw_created_at pr;
               raw_closed_at := closed;
               raw_pull_request := raw_pull_request pr |} = Ret r'
          /\ closed_at r' = None /\ merged_at r' = raw_merged_at pr).
Proof.
  intros Hwf Hex.
  destruct (extract_pr_metadata_fields pr r Hex) as (_ & _ & Hm & Hc).
  rewrite (truthy_is_set _ Hwf) in Hc.
  assert (H1 : merged_at r <> None -> closed_at r = None).
  { rewrite Hm, Hc. destruct (raw_merged_at pr); simpl; [reflexivity|].
    intros H. now contradiction H. }
  split; [exact H1|]. split.
  - intros [Hs Hcl]. destruct (merged_at r) eqn:E; [|discriminate].
    rewrite H1 in Hcl by discriminate. discriminate.
  - intros closed Hset.
    set (pr' := {| raw_id := raw_id pr; raw_html_url := raw_html_url pr;
                   raw_created_at := raw_created_at pr;
                   raw_closed_at := closed;
                   raw_pull_request := raw_pull_request pr |}).
    assert (Hsame : raw_merged_at pr' = raw_merged_at pr) by reflexivity.
    destruct (extract_pr_metadata_returns pr') as [r' Hr'].
    { subst pr'. simpl. unfold raw_merged_at in Hset.
      destruct (raw_pull_request pr); try discriminate.
      now contradiction Hset. }
    exists r'. split; [exact Hr'|].
    destruct (extract_pr_metadata_fields pr' r' Hr') as (_ & _ & Hm' & Hc').
    rewrite Hsame in Hm', Hc'. rewrite (truthy_is_set _ Hwf) in Hc'.
    split; [|exact Hm'].
    rewrite Hc'. destruct (raw_merged_at pr); simpl; [reflexivity|].
    now contradiction Hset.
Qed.

Lemma extract_merged_implies_closed_null_witness :
  extract_pr_metadata merged_and_closed_match = Ret merged_and_closed_record
  /\ closed_at merged_and_closed_record = None.
Proof.
  split; [reflexivity|].
  refine (proj1 (extract_merged_implies_closed_null
                   merged_and_closed_match merged_and_closed_record _ _) _).
  - unfold timestamp_or_null. simpl. discriminate.
  - reflexivity.
  - simpl. discriminate.
Defined.

(** The boundary of C3: an empty string is no timestamp, and is false for
    [if merged_at:], so a raw match carrying one keeps its [closed_at]. *)
Lemma extract_empty_merged_at_keeps_closed :
  extract_pr_metadata
    {| raw_id := Some 7;
       raw_html_url := None;
       raw_created_at := None;
       raw_closed_at := Some "2024-01-02T00:00:00Z";
       raw_pull_request := PullRequestObject (Some EmptyString) |}
  = Ret {| html_url := None;
           created_at := None;
           merged_at := Some EmptyString;
           closed_at := Some "2024-01-02T00:00:00Z" |}.
Proof. reflexivity. Qed.

(** ** SyncPlanner: the fetch window *)

(** C5.  The fetch window starts at [max(watermark + 1 second, now - 180
    days)] when there is a watermark and at [now - 180 days] when there is
    none; a watermark of 2024-06-01T00:00:00Z within the floor gives
    2024-06-01T00:00:01Z. *)
Theorem fetch_window_start_correct
    (now : datetime) (watermark : option datetime) :
  fetch_window_start now (start_from watermark)
  = window_start_spec now watermark
  /\ fetch_window_start now (start_from None) = now - timedelta_days 180
  /\ (now - timedelta_days 180 <= utc 2024 6 1 0 0 1 ->
      fetch_window_start now (start_from (Some (utc 2024 6 1 0 0 0)))
      = utc 2024 6 1 0 0 1).
Proof.
  split; [|split].
  - destruct watermark; reflexivity.
  - reflexivity.
  - intros Hfloor. unfold fetch_window_start, start_from.
    change (utc 2024 6 1 0 0 0 + timedelta_seconds 1)
      with (utc 2024 6 1 0 0 1).
    apply Z.max_l. exact Hfloor.
Qed.

Lemma fetch_window_start_correct_witness :
  fetch_window_start (utc 2024 7 1 12 0 0)
    (start_from (Some (utc 2024 6 1 0 0 0)))
  = utc 2024 6 1 0 0 1.
Proof.
  refine (proj2 (proj2 (fetch_window_start_correct
                          (utc 2024 7 1 12 0 0) None)) _).
  vm_compute. discriminate.
Defined.

(** ** ShardStore: the merge *)

Lemma NoDup_app_disjoint {A : Type} (l1 l2 : list A) (a : A) :
  NoDup (l1 ++ l2) -> In a l1 -> ~ In a l2.
Proof.
  induction l1 as [|x l1 IH]; simpl; intros Hn Hin; [contradiction|].
  inversion Hn as [|? ? Hnotin Hn']; subst.
  destruct Hin as [->|Hin]; [|now apply IH].
  intros Hin2. apply Hnotin. apply in_or_app. now right.
Qed.

Lemma dict_set_fresh {K V : Type} (eqb : K -> K -> bool)
    (k : K) (v : V) (d : @dict K V) :
  dict_mem eqb k d = false -> dict_set eqb k v d = (d ++ [(k, v)])%list.
Proof.
  unfold dict_mem. induction d as [|[k' v'] d IH]; simpl; [reflexivity|].
  destruct (eqb k k'); [discriminate|].
  intros H. now rewrite IH.
Qed.

Lemma by_url_step_keyed (d : @dict string MetadataRecord) (r : MetadataRecord) :
  url_keyed d -> url_keyed (by_url_step d r).
Proof.
  intros Hd. unfold by_url_step.
  destruct (html_url r) as [u|] eqn:Hu; [|exact Hd].
  destruct (truthy (Some u)) eqn:Ht; [|exact Hd].
  intros k r' Hin.
  apply (dict_set_In String.eqb String.eqb_eq) in Hin.
  destruct Hin as [[-> ->]|Hin]; [now split|now apply Hd].
Qed.

Lemma by_url_step_nodup (d : @dict string MetadataRecord) (r : MetadataRecord) :
  NoDup (dict_keys d) -> NoDup (dict_keys (by_url_step d r)).
Proof.
  intros Hd. unfold by_url_step.
  destruct (html_url r) as [u|]; [|exact Hd].
  destruct (truthy (Some u)); [|exact Hd].
  now apply (dict_set_nodup String.eqb String.eqb_eq).
Qed.

Lemma by_url_fold_inv (l : list MetadataRecord)
    (d : @dict string MetadataRecord) :
  url_keyed d -> NoDup (dict_keys d) ->
  url_keyed (fold_left by_url_step l d)
  /\ NoDup (dict_keys (fold_left by_url_step l d)).
Proof.
  revert d. induction l as [|r l IH]; simpl; intros d Hk Hn; [now split|].
  apply IH; [now apply by_url_step_keyed|now apply by_url_step_nodup].
Qed.

Lemma by_url_inv (l : list MetadataRecord) :
  url_keyed (by_url l) /\ NoDup (dict_keys (by_url l)).
Proof.
  apply by_url_fold_inv; [intros k r []|constructor].
Qed.

Lemma dict_update_keyed (d other : @dict string MetadataRecord) :
  url_keyed d -> url_keyed other -> url_keyed (dict_update String.eqb d other).
Proof.
  unfold dict_update. revert d.
  induction other as [|[k v] other IH]; simpl; intros d Hd Ho; [exact Hd|].
  apply IH.
  - intros k' r' Hin.
    apply (dict_set_In String.eqb String.eqb_eq) in Hin.
    destruct Hin as [[-> ->]|Hin]; [apply Ho; now left|now apply Hd].
  - intros k' r' Hin. apply Ho. now right.
Qed.

(** The dictionary the merge builds, before its values are listed. *)
Lemma merge_metadata_dict (existing new : list MetadataRecord) :
  merge_metadata existing new
  = dict_values (dict_update String.eqb (by_url existing) (by_url new))
  /\ url_keyed (dict_update String.eqb (by_url existing) (by_url new))
  /\ NoDup (dict_keys (dict_update String.eqb (by_url existing) (by_url new))).
Proof.
  destruct (by_url_inv existing) as [Hke Hne].
  destruct (by_url_inv new) as [Hkn Hnn].
  split; [reflexivity|]. split.
  - now apply dict_update_keyed.
  - now apply (dict_update_nodup String.eqb String.eqb_eq).
Qed.

Lemma url_keyed_values (d : @dict string MetadataRecord) :
  url_keyed d -> map (fun r => (url_of r, r)) (dict_values d) = d.
Proof.
  unfold dict_values. induction d as [|[k r] d IH]; simpl; intros Hd;
    [reflexivity|].
  rewrite IH by (intros k' r' Hin; apply Hd; now right).
  destruct (Hd k r (or_introl eq_refl)) as [Hu _].
  unfold url_of. now rewrite Hu.
Qed.

Lemma url_keyed_values_wf (d : @dict string MetadataRecord) :
  url_keyed d -> NoDup (dict_keys d) -> shard_wf (dict_values d).
Proof.
  intros Hd Hn. split.
  - assert (Hmap : map html_url (dict_values d) = map Some (dict_keys d)).
    { unfold dict_values, dict_keys. rewrite !map_map.
      apply map_ext_in. intros [k r] Hin. simpl. now apply Hd. }
    rewrite Hmap. apply Injective_map_NoDup; [|exact Hn].
    intros x y [= ->]. reflexivity.
  - intros r Hin. unfold dict_values in Hin. apply in_map_iff in Hin.
    destruct Hin as [[k r'] [<- Hin]]. simpl.
    destruct (Hd k r' Hin) as [-> Ht]. exact Ht.
Qed.

(** On a well-formed shard, keying by url changes nothing. *)
Lemma by_url_fold_wf (l : list MetadataRecord)
    (d : @dict string MetadataRecord) :
  (forall r, In r l -> truthy (html_url r) = true) ->
  NoDup (dict_keys d ++ map url_of l) ->
  fold_left by_url_step l d = (d ++ map (fun r => (url_of r, r)) l)%list.
Proof.
  revert d. induction l as [|r l IH]; simpl; intros d Ht Hn.
  - now rewrite app_nil_r.
  - assert (Hr : truthy (html_url r) = true) by (apply Ht; now left).
    unfold by_url_step at 2. unfold url_of at 1.
    destruct (html_url r) as [u|] eqn:Hu; [|discriminate].
    rewrite Hr.
    assert (Hfresh : dict_mem String.eqb u d = false).
    { destruct (dict_mem String.eqb u d) eqn:E; [|reflexivity].
      apply (dict_mem_In String.eqb String.eqb_eq) in E.
      exfalso. apply (NoDup_app_disjoint _ _ u Hn E).
      left. unfold url_of. now rewrite Hu. }
    rewrite dict_set_fresh by exact Hfresh.
    rewrite IH.
    + now rewrite <- app_assoc.
    + intros r' Hin. apply Ht. now right.
    + unfold dict_keys in *. rewrite map_app. simpl.
      rewrite <- app_assoc. simpl.
      replace u with (url_of r) by (unfold url_of; now rewrite Hu).
      exact Hn.
Qed.

Lemma shard_wf_url_of (l : list MetadataRecord) :
  shard_wf l -> NoDup (map url_of l).
Proof.
  intros [Hn Ht].
  assert (Hmap : map html_url l = map Some (map url_of l)).
  { rewrite map_map. apply map_ext_in. intros r Hin. unfold url_of.
    specialize (Ht r Hin). destruct (html_url r); [reflexivity|discriminate]. }
  rewrite Hmap in Hn. now apply NoDup_map_inv in Hn.
Qed.

Lemma by_url_wf (l : list MetadataRecord) :
  shard_wf l -> by_url l = map (fun r => (url_of r, r)) l.
Proof.
  intros Hwf. unfold by_url.
  rewrite by_url_fold_wf; [reflexivity|apply Hwf|].
  simpl. now apply shard_wf_url_of.
Qed.

Lemma by_url_values (d : @dict string MetadataRecord) :
  url_keyed d -> NoDup (dict_keys d) -> by_url (dict_values d) = d.
Proof.
  intros Hd Hn.
  rewrite by_url_wf by now apply url_keyed_values_wf.
  now apply url_keyed_values.
Qed.

Lemma dict_update_nil (d : @dict string MetadataRecord) :
  NoDup (dict_keys d) -> dict_update String.eqb [] d = d.
Proof.
  unfold dict_update.
  assert (Hgen : forall base : @dict string MetadataRecord,
             NoDup (dict_keys base ++ dict_keys d) ->
             fold_left (fun acc kv => dict_set String.eqb (fst kv) (snd kv) acc)
               d base = (base ++ d)%list).
  { induction d as [|[k v] d IH]; simpl; intros base Hn.
    - now rewrite app_nil_r.
    - assert (Hfresh : dict_mem String.eqb k base = false).
      { destruct (dict_mem String.eqb k base) eqn:E; [|reflexivity].
        apply (dict_mem_In String.eqb String.eqb_eq) in E.
        exfalso. apply (NoDup_app_disjoint _ _ k Hn E). now left. }
      rewrite dict_set_fresh by exact Hfresh.
      rewrite IH; [now rewrite <- app_assoc|].
      unfold dict_keys in *. rewrite map_app. simpl.
      now rewrite <- app_assoc. }
  intros Hn. now apply (Hgen []).
Qed.

Lemma merge_metadata_lookup (existing new : list MetadataRecord) (url : string) :
  lookup_url url (merge_metadata existing new)
  = match lookup_url url new with
    | Some r => Some r
    | None => lookup_url url existing
    end.
Proof.
  destruct (merge_metadata_dict existing new) as (-> & Hk & Hn).
  unfold lookup_url. rewrite by_url_values by assumption.
  rewrite (dict_update_get String.eqb String.eqb_eq).
  rewrite dict_update_nil by apply by_url_inv. reflexivity.
Qed.

Lemma merge_metadata_wf (existing new : list MetadataRecord) :
  shard_wf (merge_metadata existing new).
Proof.
  destruct (merge_metadata_dict existing new) as (-> & Hk & Hn).
  now apply url_keyed_values_wf.
Qed.

Lemma merge_metadata_one (existing : list MetadataRecord) (r : MetadataRecord) :
  truthy (html_url r) = true ->
  merge_metadata existing [r]
  = dict_values (dict_set String.eqb (url_of r) r (by_url existing)).
Proof.
  intros Ht. unfold merge_metadata, by_url at 2. simpl.
  unfold by_url_step, url_of.
  destruct (html_url r) as [u|]; [|discriminate].
  rewrite Ht. reflexivity.
Qed.

Lemma shard_wf_mem (existing : list MetadataRecord) (r : MetadataRecord) :
  shard_wf existing -> truthy (html_url r) = true ->
  dict_mem String.eqb (url_of r) (by_url existing) = true
  <-> In (html_url r) (map html_url existing).
Proof.
  intros Hwf Ht.
  rewrite (dict_mem_In String.eqb String.eqb_eq).
  rewrite by_url_wf by exact Hwf.
  unfold dict_keys. rewrite map_map. simpl.
  assert (Hurl : forall x, truthy (html_url x) = true ->
                           html_url x = Some (url_of x)).
  { intros x Hx. unfold url_of. destruct (html_url x); [reflexivity|].
    discriminate. }
  rewrite !in_map_iff. split; intros (x & Hx & Hin); exists x; split;
    try exact Hin.
  - rewrite (Hurl x) by (apply Hwf; exact Hin). rewrite (Hurl r Ht).
    now f_equal.
  - rewrite (Hurl x) in Hx by (apply Hwf; exact Hin).
    rewrite (Hurl r Ht) in Hx. now injection Hx.
Qed.

(** C6.  The merged shard is the existing records merged with the new ones
    keyed by url, a new record overwriting an existing one of the same url;
    upserting a record whose url is in the shard leaves the cardinality
    unchanged, upserting one with a new url adds exactly one.  (A shard is
    keyed by url: its records have pairwise distinct urls; the merge keeps
    it so.) *)
Theorem merge_metadata_upsert (existing new : list MetadataRecord) :
  (forall url,
      lookup_url url (merge_metadata existing new)
      = match lookup_url url new with
        | Some r => Some r
        | None => lookup_url url existing
        end)
  /\ shard_wf (merge_metadata existing new)
  /\ (forall r,
        shard_wf existing -> truthy (html_url r) = true ->
        In r (merge_metadata existing [r])
        /\ (In (html_url r) (map html_url existing) ->
            List.length (merge_metadata existing [r]) = List.length existing)
        /\ (~ In (html_url r) (map html_url existing) ->
            List.length (merge_metadata existing [r])
            = S (List.length existing))).
Proof.
  split; [apply merge_metadata_lookup|].
  split; [apply merge_metadata_wf|].
  intros r Hwf Ht.
  rewrite (merge_metadata_one existing r Ht).
  pose proof (dict_set_length String.eqb (url_of r) r (by_url existing))
    as Hlen.
  pose proof (shard_wf_mem existing r Hwf Ht) as Hmem.
  assert (Hsize : List.length (by_url existing) = List.length existing).
  { rewrite by_url_wf by exact Hwf. apply length_map. }
  unfold dict_values. rewrite !length_map.
  split; [|split].
  - apply in_map_iff. exists (url_of r, r). split; [reflexivity|].
    apply (dict_get_In String.eqb String.eqb_eq).
    apply (dict_get_set_eq String.eqb String.eqb_eq).
  - intros Hin. apply Hmem in Hin. rewrite Hin in Hlen. lia.
  - intros Hnotin.
    destruct (dict_mem String.eqb (url_of r) (by_url existing)) eqn:E.
    + exfalso. apply Hnotin. now apply Hmem.
    + lia.
Qed.

Lemma merge_metadata_upsert_witness :
  List.length (merge_metadata [merged_and_closed_record]
                 [merged_and_closed_record]) = 1%nat.
Proof.
  refine (proj1 (proj2 (proj2 (proj2 (merge_metadata_upsert
            [merged_and_closed_record] [])) merged_and_closed_record _ _)) _).
  - split; [repeat constructor; intros []|].
    intros r [<-|[]]. reflexivity.
  - reflexivity.
  - left. reflexivity.
Defined.

Lemma merge_metadata_has_url (existing new : list MetadataRecord)
    (r : MetadataRecord) :
  In r (merge_metadata existing new) -> html_url r <> None.
Proof.
  intros Hin. destruct (merge_metadata_wf existing new) as [_ Ht].
  specialize (Ht r Hin). destruct (html_url r); [discriminate|].
  discriminate.
Qed.

Lemma save_jsonl_urls_set (existing new : list MetadataRecord) :
  shard_urls_set (save_jsonl (merge_metadata existing new)).
Proof.
  intros r Hin. unfold save_jsonl in Hin. apply in_map_iff in Hin.
  destruct Hin as (r' & [= ->] & Hin).
  now apply merge_metadata_has_url in Hin.
Qed.

Lemma save_day_files (agent : string) (h h' : hub) (key : date_key)
    (day_metadata : list MetadataRecord) :
  save_day agent h key day_metadata = Ret h' ->
  exists existing,
    hub_files h'
    = dict_set String.eqb (shard_filename agent key)
        (save_jsonl (merge_metadata existing day_metadata)) (hub_files h).
Proof.
  unfold save_day, upload_file.
  destruct (hub_upload_fails h (shard_filename agent key)); [discriminate|].
  intros [= <-]. simpl. eauto.
Qed.

Lemma save_day_urls_set (agent : string) (h h' : hub) (key : date_key)
    (day_metadata : list MetadataRecord) :
  hub_urls_set h -> save_day agent h key day_metadata = Ret h' ->
  hub_urls_set h'.
Proof.
  intros Hh Hsave. destruct (save_day_files _ _ _ _ _ Hsave) as [ex Hfiles].
  intros name file Hin. rewrite Hfiles in Hin.
  apply (dict_set_In String.eqb String.eqb_eq) in Hin.
  destruct Hin as [[_ ->]|Hin]; [apply save_jsonl_urls_set|].
  now apply (Hh name).
Qed.

Lemma save_days_urls_set (agent : string)
    (grouped : list (date_key * list MetadataRecord)) (h : hub) :
  hub_urls_set h -> hub_urls_set (snd (save_days agent grouped h)).
Proof.
  revert h. induction grouped as [|[key day] grouped IH]; simpl; intros h Hh;
    [exact Hh|].
  destruct (save_day agent h key day) as [h'|] eqn:E; [|exact Hh].
  apply IH. now apply (save_day_urls_set agent h h' key day).
Qed.

(** C10.  Every record the merge yields has a non-null [html_url]: a record,
    existing or new, whose [html_url] is missing or null is dropped; so the
    files an upsert writes, in the repository or in the debug cache, carry a
    url on every line, and the invariant is kept by every upsert. *)
Theorem merge_drops_records_without_url
    (fromisoformat : string -> exc datetime)
    (existing new : list MetadataRecord) :
  (forall r, In r (merge_metadata existing new) -> html_url r <> None)
  /\ (forall r, html_url r = None -> ~ In r (merge_metadata existing new))
  /\ (forall agent h key h',
        save_day agent h key new = Ret h' ->
        exists written,
          dict_get String.eqb (shard_filename agent key) (hub_files h')
          = Some written
          /\ shard_urls_set written)
  /\ (forall debug_mode hf_token agent w,
        hub_urls_set (w_hub w) -> cache_urls_set (w_debug_cache w) ->
        let w' := snd (save_pr_metadata_to_hf fromisoformat debug_mode
                         hf_token new agent w) in
        hub_urls_set (w_hub w') /\ cache_urls_set (w_debug_cache w')).
Proof.
  split; [intros r; apply merge_metadata_has_url|].
  split.
  { intros r Hnone Hin. now apply merge_metadata_has_url in Hin. }
  split.
  { intros agent h key h' Hsave.
    destruct (save_day_files _ _ _ _ _ Hsave) as [ex Hfiles].
    exists (save_jsonl (merge_metadata ex new)). split.
    - rewrite Hfiles. apply (dict_get_set_eq String.eqb String.eqb_eq).
    - apply save_jsonl_urls_set. }
  intros debug_mode hf_token agent w Hh Hc.
  unfold save_pr_metadata_to_hf.
  destruct debug_mode; simpl.
  - split; [exact Hh|].
    intros a l r Hin Hr.
    apply (dict_set_In String.eqb String.eqb_eq) in Hin.
    destruct Hin as [[_ ->]|Hin].
    + now apply merge_metadata_has_url in Hr.
    + now apply (Hc a l r).
  - destruct hf_token; simpl; [|now split].
    pose proof (save_days_urls_set agent
                  (group_metadata_by_date fromisoformat new) (w_hub w) Hh)
      as Hsaved.
    destruct (save_days agent (group_metadata_by_date fromisoformat new)
                (w_hub w)) as [ok h']. simpl in *. now split.
Qed.

Lemma merge_drops_records_without_url_witness :
  html_url merged_and_closed_record <> None.
Proof.
  refine (proj1 (merge_drops_records_without_url
                   (fun _ => Raise) [] [merged_and_closed_record])
            merged_and_closed_record _).
  left. reflexivity.
Defined.

(** ** StatsAggregator *)

Lemma count_if_ext {A : Type} (p q : A -> bool) (l : list A) :
  (forall a, In a l -> p a = q a) -> count_if p l = count_if q l.
Proof.
  intros H. unfold count_if. now rewrite (filter_ext_in p q l H).
Qed.

Lemma count_if_nonneg {A : Type} (p : A -> bool) (l : list A) :
  0 <= count_if p l.
Proof. unfold count_if. lia. Qed.

Lemma count_if_none {A : Type} (p : A -> bool) (l : list A) :
  (forall a, In a l -> p a = false) -> count_if p l = 0.
Proof.
  intros H. rewrite (count_if_ext p (fun _ => false) l H).
  unfold count_if. induction l as [|a l IH]; simpl; [reflexivity|].
  apply IH. intros x Hx. apply H. now right.
Qed.

(** ** Rounding to two decimals *)

Lemma round_half_even_fraction (a : Z) (b : positive) :
  round_half_even (a # b) = divide_and_round a (Zpos b).
Proof.
  unfold round_half_even, divide_and_round, Qcompare, Qminus, Qplus, Qopp,
    Qfloor, inject_Z.
  cbn [Qnum Qden].
  pose proof (Z.mod_eq a (Zpos b) ltac:(discriminate)) as Hmod.
  pose proof (Z.mod_pos_bound a (Zpos b) ltac:(reflexivity)) as Hb.
  set (q := a / Zpos b) in *. set (r := a mod Zpos b) in *.
  change (0 <? Zpos b) with true. cbv iota.
  rewrite Pos.mul_1_r, <- Z.negb_even.
  destruct (Z.compare_spec ((a * 1 + - q * Zpos b) * 2) (1 * Zpos b))
    as [E|E|E];
    destruct (Z.ltb_spec (Zpos b) (r * 2));
    destruct (Z.eqb_spec (r * 2) (Zpos b));
    try lia; cbn [orb andb negb]; try reflexivity;
    destruct (Z.even q); reflexivity.
Qed.

Lemma divide_and_round_one (n : Z) : divide_and_round n 1 = n.
Proof.
  unfold divide_and_round. rewrite Z.div_1_r, Z.mod_1_r. reflexivity.
Qed.

(** [round(x, 2)] is the rounding to two decimals. *)
Lemma f64_round2_spec (x : f64) : f64_round2 x = round_to_2_decimals x.
Proof.
  destruct x as [s|s| |s m e]; try reflexivity.
  unfold f64_round2, round_to_2_decimals, exact_value.
  assert (Hq : round_half_even
                 (Qmult
                    (Qabs
                       (if s
                        then Qopp match e with
                                  | Zneg p => Zpos m # (2 ^ p)%positive
                                  | _ => inject_Z (Zpos m * 2 ^ e)
                                  end
                        else match e with
                             | Zneg p => Zpos m # (2 ^ p)%positive
                             | _ => inject_Z (Zpos m * 2 ^ e)
                             end)) (inject_Z 100))
               = match e with
                 | Zneg p => divide_and_round (Zpos m * 100) (Z.pow_pos 2 p)
                 | _ => Zpos m * 100 * 2 ^ e
                 end).
  { destruct e as [|p|p].
    - destruct s; unfold Qabs, Qopp, inject_Z, Qmult; cbn [Qnum Qden];
        rewrite round_half_even_fraction;
        change (Zpos (1 * 1)) with 1; rewrite divide_and_round_one;
        change (2 ^ 0) with 1; lia.
    - assert (Hpos : 0 < Zpos m * 2 ^ Zpos p) by
        (apply Z.mul_pos_pos; [reflexivity|apply Z.pow_pos_nonneg; lia]).
      destruct s; unfold Qabs, Qopp, inject_Z, Qmult; cbn [Qnum Qden];
        rewrite round_half_even_fraction;
        change (Zpos (1 * 1)) with 1; rewrite divide_and_round_one; lia.
    - change (Z.pow_pos 2 p) with (2 ^ Zpos p).
      rewrite <- Pos2Z.inj_pow.
      destruct s; unfold Qabs, Qopp, Qmult, inject_Z;
        cbn [Qnum Qden Z.abs Z.opp];
        rewrite Pos.mul_1_r; apply round_half_even_fraction. }
  rewrite Hq. reflexivity.
Qed.

(** The reference rounding is the nearest integer, even on a tie. *)
Lemma round_half_even_nearest (q : Q) :
  Qle (Qabs (Qminus q (inject_Z (round_half_even q)))) (1 # 2)
  /\ (Qeq (Qabs (Qminus q (inject_Z (round_half_even q)))) (1 # 2) ->
      Z.even (round_half_even q) = true).
Proof.
  destruct q as [a b].
  unfold round_half_even, Qcompare, Qle, Qeq, Qabs, Qminus, Qplus, Qopp,
    Qfloor, inject_Z.
  cbn [Qnum Qden].
  pose proof (Z.mod_eq a (Zpos b) ltac:(discriminate)) as Hmod.
  pose proof (Z.mod_pos_bound a (Zpos b) ltac:(reflexivity)) as Hb.
  set (k := a / Zpos b) in *. set (r := a mod Zpos b) in *.
  rewrite Pos.mul_1_r.
  destruct (Z.compare_spec ((a * 1 + - k * Zpos b) * 2) (1 * Zpos b))
    as [E|E|E]; cbn [Qnum Qden]; rewrite ?Pos.mul_1_r.
  - destruct (Z.even k) eqn:Ek; cbn [Qnum Qden]; rewrite ?Pos.mul_1_r.
    + split; [lia|intros _; exact Ek].
    + split; [lia|intros _].
      rewrite Z.even_add, Ek. reflexivity.
  - split; [lia|lia].
  - split; [lia|lia].
Qed.

(** C4.  The statistics of a list of records: [total] is its length,
    [merged] the number of records with a non-null [merged_at], and
    [acceptance_rate] is [merged / (merged + closed without merge) * 100]
    rounded to two decimals, [0] when nothing is decided; the empty list
    gives [(0, 0, 0)], a list of open records gives rate [0], and the worked
    example gives [(3, 1, 50.0)].  One merged of three decided gives the
    float 33.33 and two of three the float 66.67 (the floats nearest to
    3333/100 and 6667/100). *)
Theorem calculate_pr_stats_correct (l : list MetadataRecord) :
  timestamps_well_formed l ->
  total_prs (calculate_pr_stats_from_metadata l) = Z.of_nat (List.length l)
  /\ merged (calculate_pr_stats_from_metadata l) = merged_count l
  /\ acceptance_rate (calculate_pr_stats_from_metadata l)
     = acceptance_rate_spec (merged_count l) (closed_without_merge_count l)
  /\ (merged_count l + closed_without_merge_count l = 0 ->
      acceptance_rate (calculate_pr_stats_from_metadata l) = PyInt 0)
  /\ ((forall r, In r l -> merged_at r = None /\ closed_at r = None) ->
      acceptance_rate (calculate_pr_stats_from_metadata l) = PyInt 0
      /\ merged (calculate_pr_stats_from_metadata l) = 0)
  /\ calculate_pr_stats_from_metadata []
     = {| total_prs := 0; merged := 0; acceptance_rate := PyInt 0 |}
  /\ calculate_pr_stats_from_metadata agent_x_records
     = {| total_prs := 3; merged := 1;
          acceptance_rate := PyFloat (f64_of_Z 50) |}
  /\ calculate_pr_stats_from_metadata
       (copies 1 merged_record ++ copies 2 closed_record)
     = {| total_prs := 3; merged := 1;
          acceptance_rate :=
            PyFloat (S754_finite false 4690780486883082 (-47)) |}
  /\ calculate_pr_stats_from_metadata
       (copies 2 merged_record ++ copies 1 closed_record)
     = {| total_prs := 3; merged := 2;
          acceptance_rate :=
            PyFloat (S754_finite false 4691484174324859 (-46)) |}
  /\ float_of_fraction false 3333 100
     = S754_finite false 4690780486883082 (-47)
  /\ float_of_fraction false 6667 100
     = S754_finite false 4691484174324859 (-46).
Proof.
  intros Hwf.
  assert (Hm : count_if (fun pr_meta => truthy (merged_at pr_meta)) l
               = merged_count l).
  { apply count_if_ext. intros r Hr. apply truthy_is_set. now apply Hwf. }
  assert (Hc : count_if (fun pr_meta => truthy (closed_at pr_meta)
                                        && negb (truthy (merged_at pr_meta))) l
               = closed_without_merge_count l).
  { apply count_if_ext. intros r Hr. destruct (Hwf r Hr) as [H1 H2].
    now rewrite !truthy_is_set. }
  assert (Hrate : acceptance_rate (calculate_pr_stats_from_metadata l)
                  = acceptance_rate_spec (merged_count l)
                      (closed_without_merge_count l)).
  { unfold calculate_pr_stats_from_metadata, acceptance_rate_spec. simpl.
    rewrite Hm, Hc.
    pose proof (count_if_nonneg (fun r => is_set (merged_at r)) l) as H1.
    pose proof (count_if_nonneg
                  (fun r => is_set (closed_at r)
                            && negb (is_set (merged_at r))) l) as H2.
    fold (merged_count l) in H1. fold (closed_without_merge_count l) in H2.
    destruct (Z.ltb_spec 0 (merged_count l + closed_without_merge_count l));
      destruct (Z.eqb_spec (merged_count l + closed_without_merge_count l) 0);
      try lia; try reflexivity.
    unfold py_round2. f_equal. apply f64_round2_spec. }
  split; [reflexivity|]. split; [exact Hm|]. split; [exact Hrate|].
  split; [|split; [|split; [|split; [|split; [|split; [|split]]]]]].
  - intros Hzero. rewrite Hrate. unfold acceptance_rate_spec.
    now rewrite Hzero.
  - intros Hopen.
    assert (Hm0 : merged_count l = 0).
    { apply count_if_none. intros r Hr. destruct (Hopen r Hr) as [-> _].
      reflexivity. }
    assert (Hc0 : closed_without_merge_count l = 0).
    { apply count_if_none. intros r Hr. destruct (Hopen r Hr) as [-> ->].
      reflexivity. }
    split.
    + rewrite Hrate, Hm0, Hc0. reflexivity.
    + change (merged (calculate_pr_stats_from_metadata l))
        with (count_if (fun pr_meta => truthy (merged_at pr_meta)) l).
      now rewrite Hm.
  - reflexivity.
  - vm_compute. reflexivity.
  - vm_compute. reflexivity.
  - vm_compute. reflexivity.
  - vm_compute. reflexivity.
  - vm_compute. reflexivity.
Qed.

Lemma calculate_pr_stats_correct_witness :
  acceptance_rate
    (calculate_pr_stats_from_metadata
       (copies 1 merged_record ++ copies 2 closed_record))
  = acceptance_rate_spec 1 2.
Proof.
  refine (proj1 (proj2 (proj2 (calculate_pr_stats_correct
                                 (copies 1 merged_record
                                  ++ copies 2 closed_record) _)))).
  intros r Hr. unfold timestamp_or_null.
  destruct Hr as [<-|[<-|[<-|[]]]]; simpl; split; discriminate.
Defined.

(** The reference rate itself, evaluated: rounding down, rounding up, and a
    quotient that needs none. *)
Lemma acceptance_rate_spec_examples :
  acceptance_rate_spec 1 2 = PyFloat (float_of_fraction false 3333 100)
  /\ acceptance_rate_spec 2 1 = PyFloat (float_of_fraction false 6667 100)
  /\ acceptance_rate_spec 1 1 = PyFloat (f64_of_Z 50)
  /\ acceptance_rate_spec 0 0 = PyInt 0.
Proof. repeat split; vm_compute; reflexivity. Qed.

(** The rate is computed in binary64: 23 merged of 160 decided is 14.375
    exactly, but [23 / 160 * 100] is a float just below it, and the rate is
    14.37. *)
Lemma acceptance_rate_is_binary64 :
  acceptance_rate
    (calculate_pr_stats_from_metadata
       (copies 23 {| html_url := None; created_at := None;
                     merged_at := Some "m"; closed_at := None |}
        ++ copies 137 {| html_url := None; created_at := None;
                         merged_at := None; closed_at := Some "c" |}))
  = PyFloat (f64_div (f64_of_Z 1437) (f64_of_Z 100)).
Proof. vm_compute. reflexivity. Qed.

(** ** SyncPlanner: the watermark *)

Section Watermark.
Variable fromisoformat : string -> exc datetime.

Lemma scan_record_spec (latest : option datetime) (r : MetadataRecord) :
  scan_record fromisoformat latest r
  = Ret (match parsed_date fromisoformat r with
         | Some dt => later latest dt
         | None => latest
         end).
Proof.
  unfold scan_record, parsed_date.
  destruct (created_at r) as [s|]; [|reflexivity].
  destruct (truthy (Some s)); [|reflexivity].
  destruct (parse_created_at fromisoformat s) as [dt|]; simpl;
    [|reflexivity].
  destruct latest as [l|]; simpl; [|reflexivity].
  destruct (Z.ltb_spec l dt); do 2 f_equal; lia.
Qed.

Lemma fold_later_dated (records : list MetadataRecord)
    (latest : option datetime) :
  fold_left (fun acc r => match parsed_date fromisoformat r with
                          | Some dt => later acc dt
                          | None => acc
                          end) records latest
  = fold_left later (dated fromisoformat records) latest.
Proof.
  revert latest. induction records as [|r records IH]; simpl; intros latest;
    [reflexivity|].
  rewrite fold_left_app, IH.
  destruct (parsed_date fromisoformat r); reflexivity.
Qed.

(** Reading the records of a shard does not raise. *)
Lemma scan_records_returns (records : list MetadataRecord)
    (latest : option datetime) :
  scan_records fromisoformat records latest
  = Ret (fold_left later (dated fromisoformat records) latest).
Proof.
  rewrite <- fold_later_dated. revert latest.
  induction records as [|r records IH]; simpl; intros latest; [reflexivity|].
  rewrite scan_record_spec. simpl. apply IH.
Qed.

Lemma scan_file_spec (h : hub) (latest : option datetime) (f : string) :
  scan_file fromisoformat h latest f
  = Ret (fold_left later
           (dated fromisoformat (readable_records h [f])) latest).
Proof.
  unfold scan_file, readable_records. simpl. rewrite app_nil_r.
  destruct (hf_hub_download h f) as [file|]; simpl; [|reflexivity].
  now rewrite scan_records_returns.
Qed.

Lemma dated_app (l1 l2 : list MetadataRecord) :
  dated fromisoformat (l1 ++ l2)
  = (dated fromisoformat l1 ++ dated fromisoformat l2)%list.
Proof. unfold dated. apply flat_map_app. Qed.

Lemma readable_records_cons (h : hub) (f : string) (files : list string) :
  readable_records h (f :: files)
  = (readable_records h [f] ++ readable_records h files)%list.
Proof. unfold readable_records. simpl. now rewrite app_nil_r. Qed.

Lemma scan_files_spec (h : hub) (files : list string)
    (latest : option datetime) :
  scan_files fromisoformat h files latest
  = Ret (fold_left later
           (dated fromisoformat (readable_records h files)) latest).
Proof.
  revert latest. induction files as [|f files IH]; intros latest;
    [reflexivity|].
  rewrite readable_records_cons, dated_app, fold_left_app.
  simpl. rewrite scan_file_spec. simpl. apply IH.
Qed.

Lemma get_latest_pr_date_spec (h : hub) (agent : string) :
  get_latest_pr_date_for_agent fromisoformat h agent
  = Ret (if hub_list_fails h then None
         else watermark_spec fromisoformat h agent).
Proof.
  unfold get_latest_pr_date_for_agent, watermark_spec, list_repo_files,
    max_date.
  destruct (hub_list_fails h); simpl; [reflexivity|].
  destruct (agent_files_of agent (dict_keys (hub_files h))) as [|f files]
    eqn:E; [reflexivity|].
  rewrite scan_files_spec. reflexivity.
Qed.

Lemma later_fold_max (l : list datetime) (init : option datetime) :
  fold_left later l init
  = match init, l with
    | None, [] => None
    | None, x :: l' => Some (fold_left Z.max l' x)
    | Some a, _ => Some (fold_left Z.max l a)
    end.
Proof.
  revert init. induction l as [|x l IH]; intros init.
  - destruct init; reflexivity.
  - simpl. rewrite IH. destruct init; reflexivity.
Qed.

Lemma fold_max_bounds (l : list datetime) (a : datetime) :
  (fold_left Z.max l a = a \/ In (fold_left Z.max l a) l)
  /\ a <= fold_left Z.max l a
  /\ (forall x, In x l -> x <= fold_left Z.max l a).
Proof.
  revert a. induction l as [|x l IH]; simpl; intros a.
  - split; [now left|]. split; [lia|]. intros x [].
  - destruct (IH (Z.max a x)) as (Hin & Hle & Hall).
    split; [|split].
    + destruct Hin as [Heq|Hin]; [|right; now right].
      rewrite Heq. destruct (Z.max_spec a x) as [[_ ->]|[_ ->]];
        [right; now left|now left].
    + lia.
    + intros y [<-|Hy]; [lia|now apply Hall].
Qed.

(** [max_date] is the greatest element, and absent only for no date. *)
Lemma max_date_spec (l : list datetime) :
  match max_date l with
  | None => l = []
  | Some m => In m l /\ forall x, In x l -> x <= m
  end.
Proof.
  unfold max_date. rewrite later_fold_max.
  destruct l as [|x l]; [reflexivity|].
  destruct (fold_max_bounds l x) as (Hin & Hle & Hall).
  split.
  - destruct Hin as [->|Hin]; [now left|now right].
  - intros y [<-|Hy]; [exact Hle|now apply Hall].
Qed.
End Watermark.

(** C9, as the code has it.  [get_latest_pr_date_for_agent] never raises.
    A failure while listing the files gives no watermark.  A failure while
    downloading or loading one shard skips that shard only, and a date that
    does not parse skips that record only: the result is the maximum
    [created_at] over the records that could be read and dated, absent only
    when there is none. *)
Theorem get_latest_pr_date_contains_failures
    (fromisoformat : string -> exc datetime) (h : hub) (agent : string) :
  (exists v, get_latest_pr_date_for_agent fromisoformat h agent = Ret v)
  /\ (hub_list_fails h = true ->
      get_latest_pr_date_for_agent fromisoformat h agent = Ret None)
  /\ (hub_list_fails h = false ->
      get_latest_pr_date_for_agent fromisoformat h agent
      = Ret (watermark_spec fromisoformat h agent))
  /\ (forall files,
        (forall f, In f files -> hf_hub_download h f = Raise) ->
        readable_records h files = []).
Proof.
  rewrite get_latest_pr_date_spec.
  split; [eauto|]. split; [intros ->; reflexivity|].
  split; [intros ->; reflexivity|].
  intros files Hall. unfold readable_records.
  induction files as [|f files IH]; simpl; [reflexivity|].
  rewrite (Hall f) by now left. simpl.
  apply IH. intros f' Hf'. apply Hall. now right.
Qed.

Lemma get_latest_pr_date_contains_failures_witness :
  get_latest_pr_date_for_agent fromisoformat_utc failing_hub "agent-x"
  = Ret (watermark_spec fromisoformat_utc failing_hub "agent-x").
Proof.
  refine (proj1 (proj2 (proj2 (get_latest_pr_date_contains_failures
                                 fromisoformat_utc failing_hub "agent-x"))) _).
  reflexivity.
Defined.

(** C9 as stated fails: one shard of the two cannot be downloaded, and the
    watermark is the date of the other, not [None]. *)
Lemma get_latest_pr_date_download_failure_not_none :
  hf_hub_download failing_hub "agent-x/2024.01.01.jsonl" = Raise
  /\ get_latest_pr_date_for_agent fromisoformat_utc failing_hub "agent-x"
     = Ret (Some (utc 2024 1 2 0 0 0))
  /\ get_latest_pr_date_for_agent fromisoformat_utc failing_hub "agent-x"
     <> Ret None.
Proof.
  split; [reflexivity|]. split; [vm_compute; reflexivity|].
  vm_compute. discriminate.
Qed.

(** ** Records without a usable creation date *)

Lemma date_key_eqb_eq (a b : date_key) : date_key_eqb a b = true <-> a = b.
Proof.
  destruct a as [[y1 m1] d1], b as [[y2 m2] d2]. unfold date_key_eqb.
  rewrite !andb_true_iff, !Z.eqb_eq. split.
  - intros [[-> ->] ->]. reflexivity.
  - intros [= -> -> ->]. auto.
Qed.

Section Undated.
Variable fromisoformat : string -> exc datetime.

Lemma group_step_undated (grouped : @dict date_key (list MetadataRecord))
    (r : MetadataRecord) :
  parsed_date fromisoformat r = None ->
  group_step fromisoformat grouped r = grouped.
Proof.
  unfold parsed_date, group_step.
  destruct (created_at r) as [s|]; [|reflexivity].
  destruct (truthy (Some s)); simpl; [|reflexivity].
  destruct (parse_created_at fromisoformat s); [discriminate|reflexivity].
Qed.

Lemma group_step_dated (grouped : @dict date_key (list MetadataRecord))
    (r : MetadataRecord) :
  dated_groups fromisoformat grouped ->
  dated_groups fromisoformat (group_step fromisoformat grouped r).
Proof.
  intros Hg. destruct (parsed_date fromisoformat r) as [dt|] eqn:Hp;
    [|now rewrite group_step_undated].
  unfold group_step. unfold parsed_date in Hp.
  destruct (created_at r) as [s|] eqn:Hc; [|exact Hg].
  destruct (truthy (Some s)) eqn:Ht; simpl; [|exact Hg].
  destruct (parse_created_at fromisoformat s) as [dt'|] eqn:Hparse;
    [|exact Hg].
  intros key bucket r' Hin Hr'.
  apply (dict_set_In date_key_eqb date_key_eqb_eq) in Hin.
  destruct Hin as [[_ ->]|Hin]; [|now apply (Hg key bucket)].
  apply in_app_or in Hr'. destruct Hr' as [Hr'|[<-|[]]].
  - destruct (dict_get date_key_eqb (civil_from_days (day_of dt')) grouped)
      as [l|] eqn:Hget; [|destruct Hr'].
    apply (dict_get_In date_key_eqb date_key_eqb_eq) in Hget.
    now apply (Hg (civil_from_days (day_of dt')) l).
  - unfold parsed_date. rewrite Hc, Ht, Hparse. discriminate.
Qed.

Lemma group_metadata_dated (l : list MetadataRecord) :
  dated_groups fromisoformat (group_metadata_by_date fromisoformat l).
Proof.
  unfold group_metadata_by_date.
  assert (Hgen : forall grouped,
             dated_groups fromisoformat grouped ->
             dated_groups fromisoformat
               (fold_left (group_step fromisoformat) l grouped)).
  { induction l as [|r l IH]; simpl; intros grouped Hg; [exact Hg|].
    apply IH. now apply group_step_dated. }
  apply Hgen. intros key bucket r [].
Qed.

Lemma group_metadata_skips (l1 l2 : list MetadataRecord) (r : MetadataRecord) :
  parsed_date fromisoformat r = None ->
  group_metadata_by_date fromisoformat (l1 ++ r :: l2)
  = group_metadata_by_date fromisoformat (l1 ++ l2).
Proof.
  intros Hp. unfold group_metadata_by_date.
  rewrite !fold_left_app. simpl. now rewrite group_step_undated.
Qed.
End Undated.

(** In a shard keyed by url, a record is in the shard exactly when it is
    the one held under its url. *)
Lemma shard_wf_lookup (l : list MetadataRecord) (r : MetadataRecord) :
  shard_wf l -> (In r l <-> lookup_url (url_of r) l = Some r).
Proof.
  intros Hwf. unfold lookup_url. rewrite (by_url_wf l Hwf). split.
  - intros Hin. apply (dict_get_nodup String.eqb String.eqb_eq).
    + unfold dict_keys. rewrite map_map. simpl. now apply shard_wf_url_of.
    + apply in_map_iff. now exists r.
  - intros Hget. apply (dict_get_In String.eqb String.eqb_eq) in Hget.
    apply in_map_iff in Hget as (r' & [= _ ->] & Hin). exact Hin.
Qed.




(** ** RateLimitedClient *)

Lemma f64_one : f64_of_Z 1 = S754_finite false 4503599627370496 (-52).
Proof. reflexivity. Qed.

Lemma f64_sixty : f64_of_Z 60 = S754_finite false 8444249301319680 (-47).
Proof. reflexivity. Qed.

Lemma f64_hundred_twenty :
  f64_of_Z 120 = S754_finite false 8444249301319680 (-46).
Proof. reflexivity. Qed.

Lemma SFcompare_antisym (x y : f64) :
  SFcompare x y = option_map CompOpp (SFcompare y x).
Proof.
  destruct x as [sx|sx| |sx mx ex], y as [sy|sy| |sy my ey]; simpl;
    try reflexivity;
    try (destruct sx; reflexivity); try (destruct sy; reflexivity);
    try (destruct sx, sy; reflexivity).
  destruct sx, sy; simpl; try reflexivity;
    rewrite (Z.compare_antisym ex ey);
    destruct (ex ?= ey); simpl; try reflexivity;
    repeat f_equal; symmetry; exact (Pos.compare_cont_antisym my mx Eq).
Qed.

Lemma SFltb_leb (x y : f64) : SFltb x y = true -> SFleb x y = true.
Proof.
  unfold SFltb, SFleb. destruct (SFcompare x y) as [[]|]; try discriminate.
  reflexivity.
Qed.

Lemma SFltb_asym (x y : f64) : SFltb x y = true -> SFltb y x = false.
Proof.
  unfold SFltb. rewrite (SFcompare_antisym y x).
  destruct (SFcompare x y) as [[]|]; try discriminate. reflexivity.
Qed.

(** Not above, and comparable: at most. *)
Lemma SFltb_false_leb (x y z : f64) :
  SFleb y y = true -> SFltb y x = false -> SFltb z x = true ->
  SFleb x y = true.
Proof.
  unfold SFltb, SFleb. rewrite (SFcompare_antisym x y).
  intros Hyy Hyx Hzx.
  assert (Hx : x <> S754_nan).
  { intros ->. destruct z; discriminate. }
  assert (Hy : y <> S754_nan).
  { intros ->. discriminate. }
  destruct (SFcompare y x) as [[]|] eqn:E; simpl; try reflexivity;
    try discriminate.
  destruct x, y; simpl in E; try discriminate; congruence.
Qed.

Lemma clamp_bounds (lo hi w : f64) :
  SFltb lo hi = true -> SFleb lo lo = true -> SFleb hi hi = true ->
  SFleb lo (clamp lo hi w) = true /\ SFleb (clamp lo hi w) hi = true.
Proof.
  intros Hlh Hll Hhh. unfold clamp, py_max, py_min.
  destruct (SFltb hi w) eqn:E1.
  - rewrite Hlh. split; [now apply SFltb_leb|exact Hhh].
  - destruct (SFltb lo w) eqn:E2.
    + split; [now apply SFltb_leb|].
      now apply (SFltb_false_leb w hi lo).
    + split; [exact Hll|now apply SFltb_leb].
Qed.

(** Below one, so not above 120. *)
Lemma below_one_not_above (w : f64) :
  SFltb w (f64_of_Z 1) = true -> SFltb (f64_of_Z 120) w = false.
Proof.
  rewrite f64_one, f64_hundred_twenty. unfold SFltb, SFcompare.
  destruct w as [s|s| |s m e]; intros H.
  - destruct s; reflexivity.
  - destruct s; [reflexivity|discriminate].
  - reflexivity.
  - destruct s; [reflexivity|].
    destruct (Z.compare_spec (-46) e) as [Heq|Hlt|Hgt]; [| |reflexivity];
      destruct (Z.compare_spec e (-52)); try lia; discriminate.
Qed.

(** The inner [max(..., 1)] of the reset branch is absorbed by the clamp. *)
Lemma clamp_absorbs_floor (w : f64) :
  clamp (f64_of_Z 1) (f64_of_Z 120) (py_max w (f64_of_Z 1))
  = clamp (f64_of_Z 1) (f64_of_Z 120) w.
Proof.
  unfold py_max at 1. destruct (SFltb w (f64_of_Z 1)) eqn:E; [|reflexivity].
  unfold clamp, py_max, py_min.
  rewrite (below_one_not_above w E), (SFltb_asym w (f64_of_Z 1) E).
  reflexivity.
Qed.

Lemma next_delay_sixty : next_delay (f64_of_Z 60) = f64_of_Z 60.
Proof. reflexivity. Qed.

Lemma delay_at_spec (k : nat) : delay_at k = backoff_spec k.
Proof.
  assert (Hsat : forall j, delay_at (6 + j) = f64_of_Z 60).
  { induction j as [|j IH]; [reflexivity|].
    rewrite Nat.add_succ_r. unfold delay_at in *. simpl Nat.iter.
    simpl in IH. rewrite IH. reflexivity. }
  destruct (Nat.lt_ge_cases k 6) as [Hlt|Hge].
  - do 6 (destruct k as [|k]; [reflexivity|]). lia.
  - replace k with (6 + (k - 6))%nat by lia. rewrite Hsat.
    unfold backoff_spec. f_equal.
    assert (2 ^ 6 <= 2 ^ Z.of_nat (6 + (k - 6))).
    { apply Z.pow_le_mono_r; lia. }
    change (2 ^ 6) with 64 in H. lia.
Qed.

(** [int(x)] is the whole part of [x]. *)
Lemma py_int_spec (x : f64) :
  py_int x = match whole_seconds x with
             | Some n => Ret n
             | None => Raise
             end.
Proof.
  destruct x as [s|s| |s m e]; try reflexivity.
  unfold py_int, whole_seconds, truncate, exact_value. f_equal.
  destruct e as [|p|p].
  - destruct s; unfold Qle_bool, Qceiling, Qfloor, Qopp, inject_Z;
      cbn [Qnum Qden]; change (2 ^ 0) with 1.
    + replace (0 * 1 <=? - (Zpos m * 1) * 1) with false
        by (symmetry; apply Z.leb_gt; lia).
      rewrite Z.opp_involutive, Z.div_1_r. reflexivity.
    + replace (0 * 1 <=? Zpos m * 1 * 1) with true
        by (symmetry; apply Z.leb_le; lia).
      now rewrite Z.div_1_r.
  - assert (Hpos : 0 < Zpos m * 2 ^ Zpos p) by
      (apply Z.mul_pos_pos; [reflexivity|apply Z.pow_pos_nonneg; lia]).
    destruct s; unfold Qle_bool, Qceiling, Qfloor, Qopp, inject_Z;
      cbn [Qnum Qden].
    + replace (0 * 1 <=? - (Zpos m * 2 ^ Zpos p) * 1) with false
        by (symmetry; apply Z.leb_gt; lia).
      rewrite Z.opp_involutive, Z.div_1_r. reflexivity.
    + replace (0 * 1 <=? Zpos m * 2 ^ Zpos p * 1) with true
        by (symmetry; apply Z.leb_le; lia).
      now rewrite Z.div_1_r.
  - change (Z.pow_pos 2 p) with (2 ^ Zpos p).
    rewrite <- Pos2Z.inj_pow.
    destruct s; unfold Qle_bool, Qceiling, Qfloor, Qopp, inject_Z;
      cbn [Qnum Qden Z.opp].
    + replace (0 * Zpos (2 ^ p) <=? Zneg m * 1) with false
        by (symmetry; apply Z.leb_gt; lia).
      reflexivity.
    + replace (0 * Zpos (2 ^ p) <=? Zpos m * 1) with true
        by (symmetry; apply Z.leb_le; lia).
      reflexivity.
Qed.

Section BackoffFacts.
Variable py_float : string -> exc f64.
(** [float('')] raises [ValueError]. *)
Hypothesis py_float_empty : py_float EmptyString = Raise.

Lemma retry_after_wait_spec (resp : http_response) :
  retry_after_wait py_float resp = retry_after_spec py_float resp.
Proof.
  unfold retry_after_wait, retry_after_spec, header_number.
  destruct (retry_after_header resp) as [s|]; [|reflexivity].
  unfold truthy. destruct (String.eqb_spec s EmptyString) as [->|_];
    cbn [negb]; [now rewrite py_float_empty|].
  now destruct (py_float s).
Qed.

Lemma reset_timestamp_spec (resp : http_response) :
  (if rate_limited (status_code resp)
   then reset_timestamp py_float resp else None)
  = reset_spec py_float resp.
Proof.
  unfold reset_spec, rate_limited, reset_timestamp, header_number.
  destruct ((status_code resp =? 403) || (status_code resp =? 429));
    [|reflexivity].
  destruct (ratelimit_reset_header resp) as [s|]; [|reflexivity].
  unfold truthy. destruct (String.eqb_spec s EmptyString) as [->|_];
    cbn [negb]; [now rewrite py_float_empty|].
  destruct (py_float s) as [x|]; [|reflexivity].
  cbn [bind]. rewrite py_int_spec. now destruct (whole_seconds x).
Qed.

Lemma backoff_wait_spec (resp : http_response) (now uniform : f64)
    (k : nat) :
  backoff_wait py_float resp now uniform (delay_at k)
  = wait_spec py_float resp now uniform k.
Proof.
  unfold wait_spec. rewrite <- retry_after_wait_spec, <- reset_timestamp_spec.
  unfold backoff_wait. rewrite delay_at_spec.
  destruct (retry_after_wait py_float resp) as [w|]; [reflexivity|].
  destruct (rate_limited (status_code resp)); [|reflexivity].
  destruct (reset_timestamp py_float resp) as [reset|]; [|reflexivity].
  apply clamp_absorbs_floor.
Qed.

Lemma backoff_wait_bounds (resp : http_response) (now uniform delay : f64) :
  SFleb (f64_of_Z 1) (backoff_wait py_float resp now uniform delay) = true
  /\ SFleb (backoff_wait py_float resp now uniform delay) (f64_of_Z 120)
     = true.
Proof.
  unfold backoff_wait.
  match goal with
  | |- context [py_max (f64_of_Z 1) (py_min ?w (f64_of_Z 120))] =>
      change (py_max (f64_of_Z 1) (py_min w (f64_of_Z 120)))
        with (clamp (f64_of_Z 1) (f64_of_Z 120) w)
  end.
  apply clamp_bounds; reflexivity.
Qed.

Lemma retryable_not_success (status : Z) :
  retryable status = true -> (200 <=? status) && (status <? 300) = false.
Proof.
  unfold retryable, rate_limited.
  rewrite !orb_true_iff, !andb_true_iff, !Z.eqb_eq, Z.leb_le, Z.ltb_lt.
  intros H. apply andb_false_iff.
  destruct (Z.leb_spec 200 status); [|now left].
  right. apply Z.ltb_ge. lia.
Qed.

Lemma request_with_backoff_from_retried (k : nat) (attempts : list attempt) :
  forallb retried attempts = true ->
  request_with_backoff_from py_float (delay_at k) attempts
  = (None, waits_spec py_float k attempts).
Proof.
  revert k. induction attempts as [|a rest IH]; simpl; intros k Hall;
    [reflexivity|].
  apply andb_true_iff in Hall. destruct Hall as [Ha Hrest].
  change (next_delay (delay_at k)) with (delay_at (S k)).
  rewrite (IH (S k) Hrest).
  unfold retried in Ha. destruct (outcome a) as [|resp].
  - unfold exception_wait, clamp. now rewrite delay_at_spec.
  - rewrite (retryable_not_success _ Ha), Ha.
    now rewrite backoff_wait_spec.
Qed.
End BackoffFacts.



(** The reference wait itself, evaluated at second 1000 and attempt 3
    without jitter: the Retry-After of 7 seconds wins over the reset header;
    the reset at second 1030 gives 32; a 503 ignores the reset header and
    backs off 8 seconds; a Retry-After of 500 is clamped to 120. *)
Lemma wait_spec_examples :
  wait_spec py_float_digits resp_retry_after (f64_of_Z 1000) (f64_of_Z 0) 3
  = f64_of_Z 7
  /\ wait_spec py_float_digits resp_reset (f64_of_Z 1000) (f64_of_Z 0) 3
     = f64_of_Z 32
  /\ wait_spec py_float_digits resp_server_error (f64_of_Z 1000)
       (f64_of_Z 0) 3 = f64_of_Z 8
  /\ wait_spec py_float_digits resp_retry_after_long (f64_of_Z 1000)
       (f64_of_Z 0) 3 = f64_of_Z 120.
Proof. repeat split; vm_compute; reflexivity. Qed.

(** The priority order at work, at second 1000 and attempt 3 (delay 8),
    without jitter: Retry-After wins over the reset header; the reset header
    gives [1030 - 1000 + 2]; a 503 ignores it and backs off; a Retry-After of
    500 is clamped to 120. *)
Lemma backoff_wait_examples :
  backoff_wait py_float_digits resp_retry_after (f64_of_Z 1000)
    (f64_of_Z 0) (delay_at 3) = f64_of_Z 7
  /\ backoff_wait py_float_digits resp_reset (f64_of_Z 1000)
       (f64_of_Z 0) (delay_at 3) = f64_of_Z 32
  /\ backoff_wait py_float_digits resp_server_error (f64_of_Z 1000)
       (f64_of_Z 0) (delay_at 3) = f64_of_Z 8
  /\ backoff_wait py_float_digits resp_retry_after_long (f64_of_Z 1000)
       (f64_of_Z 0) (delay_at 3) = f64_of_Z 120.
Proof. repeat split; vm_compute; reflexivity. Qed.

(** ** RangePartitioner: the dictionary shared by a pass *)

Lemma add_item_keeps (st : prs_dict * Z) (pr : RawMatch) (i : Z)
    (old : RawMatch) :
  dict_get Z.eqb i (fst st) = Some old ->
  dict_get Z.eqb i (fst (add_item st pr)) = Some old.
Proof.
  destruct st as [d n]. unfold add_item. cbn [fst].
  destruct (raw_id pr) as [j|]; [|auto].
  destruct (truthy_int (Some j) && negb (dict_mem Z.eqb j d)) eqn:E; [|auto].
  cbn [fst]. intros Hget.
  destruct (Z.eq_dec i j) as [->|Hne].
  - apply andb_true_iff in E. destruct E as [_ E].
    unfold dict_mem in E. rewrite Hget in E. discriminate.
  - now rewrite (dict_get_set_neq Z.eqb Z.eqb_eq).
Qed.

(** An item whose id is in the dictionary is never stored again: the entry
    under its id stays the one that was there. *)
Lemma add_items_keeps (items : list RawMatch) (st : prs_dict * Z) (i : Z)
    (old : RawMatch) :
  dict_get Z.eqb i (fst st) = Some old ->
  dict_get Z.eqb i (fst (add_items items st)) = Some old.
Proof.
  unfold add_items. revert st.
  induction items as [|pr items IH]; simpl; intros st Hget; [exact Hget|].
  apply IH. now apply add_item_keeps.
Qed.

Lemma add_item_keys (st : prs_dict * Z) (pr : RawMatch) :
  NoDup (dict_keys (fst st)) ->
  NoDup (dict_keys (fst (add_item st pr)))
  /\ (forall i, In i (dict_keys (fst (add_item st pr)))
                <-> In i (dict_keys (fst st)) \/ In i (taken_ids [pr]))
  /\ snd (add_item st pr) - snd st
     = Z.of_nat (List.length (fst (add_item st pr)))
       - Z.of_nat (List.length (fst st)).
Proof.
  destruct st as [d n]. unfold add_item, taken_ids. simpl. intros Hnd.
  destruct (raw_id pr) as [j|]; simpl.
  - destruct (negb (j =? 0)) eqn:Ht; simpl.
    + destruct (dict_mem Z.eqb j d) eqn:Hm; simpl.
      * split; [exact Hnd|]. split; [|lia].
        intros i. split; [now left|].
        intros [H|[<-|[]]]; [exact H|].
        now apply (dict_mem_In Z.eqb Z.eqb_eq).
      * split; [now apply (dict_set_nodup Z.eqb Z.eqb_eq)|]. split.
        -- intros i. rewrite (dict_keys_set Z.eqb), Hm.
           rewrite in_app_iff. simpl. tauto.
        -- rewrite (dict_set_length Z.eqb), Hm. lia.
    + split; [exact Hnd|]. split; [|lia]. intros i. simpl. tauto.
  - split; [exact Hnd|]. split; [|lia]. intros i. simpl. tauto.
Qed.

Lemma taken_ids_app (l1 l2 : list RawMatch) :
  taken_ids (l1 ++ l2) = (taken_ids l1 ++ taken_ids l2)%list.
Proof. unfold taken_ids. apply flat_map_app. Qed.

(** Adding a page keeps the keys distinct, adds exactly the true ids of the
    page, and counts exactly the entries that are new. *)
Lemma add_items_keys (items : list RawMatch) (st : prs_dict * Z) :
  NoDup (dict_keys (fst st)) ->
  NoDup (dict_keys (fst (add_items items st)))
  /\ (forall i, In i (dict_keys (fst (add_items items st)))
                <-> In i (dict_keys (fst st)) \/ In i (taken_ids items))
  /\ snd (add_items items st) - snd st
     = Z.of_nat (List.length (fst (add_items items st)))
       - Z.of_nat (List.length (fst st)).
Proof.
  unfold add_items. revert st.
  induction items as [|pr items IH]; intros st Hnd.
  - simpl. split; [exact Hnd|]. split; [|lia]. intros i. tauto.
  - cbn [fold_left].
    destruct (add_item_keys st pr Hnd) as (Hnd1 & Hk1 & Hc1).
    destruct (IH (add_item st pr) Hnd1) as (Hnd2 & Hk2 & Hc2).
    split; [exact Hnd2|]. split; [|lia].
    intros i. rewrite Hk2, Hk1.
    change (taken_ids (pr :: items)) with (taken_ids ([pr] ++ items)).
    rewrite (taken_ids_app [pr] items), in_app_iff. tauto.
Qed.

Lemma add_items_length_le (items : list RawMatch) (st : prs_dict * Z) :
  (List.length (fst st) <= List.length (fst (add_items items st)))%nat.
Proof.
  unfold add_items. revert st.
  induction items as [|pr items IH]; intros st; [simpl; lia|].
  cbn [fold_left]. etransitivity; [|apply IH].
  destruct st as [d n]. unfold add_item. cbn [fst].
  destruct (raw_id pr) as [j|]; [|cbn [fst]; lia].
  destruct (truthy_int (Some j) && negb (dict_mem Z.eqb j d));
    cbn [fst]; [|lia].
  rewrite (dict_set_length Z.eqb). destruct (dict_mem Z.eqb j d); lia.
Qed.

Lemma add_items_app (l1 l2 : list RawMatch) (st : prs_dict * Z) :
  add_items (l1 ++ l2) st = add_items l2 (add_items l1 st).
Proof. unfold add_items. apply fold_left_app. Qed.

(** ** RangePartitioner: the page loop *)

(** Ten iterations are enough: the loop leaves at page 10 at the latest. *)
Lemma scan_pages_enough (n : nat) (api : search_api) (query : search_query)
    (debug_limit : option Z) (page total : Z) (d : prs_dict) :
  (0 < n)%nat -> 10 < page + Z.of_nat n ->
  scan_pages n api query debug_limit page total d <> PagesExhausted.
Proof.
  revert page total d.
  induction n as [|n IH]; intros page total d Hpos Hsum; [lia|].
  simpl. destruct (limit_reached debug_limit total); [discriminate|].
  destruct (api query page) as [| | |total_count items]; try discriminate.
  destruct items as [|pr items]; [discriminate|].
  destruct (add_items (pr :: items) (d, total)) as [d' total'].
  destruct ((1000 <? total_count) && (page =? 10)); [discriminate|].
  destruct (Z.leb_spec 10 page) as [Hge|Hlt].
  - rewrite orb_true_r. discriminate.
  - rewrite orb_false_r.
    destruct (Z.of_nat (List.length (pr :: items)) <? per_page);
      [discriminate|].
    apply IH; lia.
Qed.

(** Unfolding of the partitioner on its page loop. *)
Lemma fetch_prs_unfold (fuel : nat) (api : search_api) (base : string)
    (start_date end_date : datetime) (d : prs_dict) (limit : option Z) :
  fetch_prs_with_time_partition (S fuel) api base start_date end_date d limit
  = match scan_pages 10 api
            {| q_base := base; q_from_day := day_of start_date;
               q_to_day := day_of end_date |} limit 1 0 d with
    | PagesExhausted => None
    | Returned total d' => Some (total, d')
    | Overflow d' =>
        let mid_date := start_date + timedelta_div (end_date - start_date) 2 in
        match fetch_prs_with_time_partition fuel api base start_date mid_date
                d' limit with
        | None => None
        | Some (count1, d1) =>
            match fetch_prs_with_time_partition fuel api base
                    (mid_date + timedelta_days 1) end_date d1 limit with
            | None => None
            | Some (count2, d2) => Some (count1 + count2, d2)
            end
        end
    end.
Proof. reflexivity. Qed.

(** More fuel does not change a result. *)
Lemma fetch_prs_fuel_mono (fuel : nat) (api : search_api) (base : string)
    (start_date end_date : datetime) (d : prs_dict) (limit : option Z)
    (r : Z * prs_dict) :
  fetch_prs_with_time_partition fuel api base start_date end_date d limit
  = Some r ->
  fetch_prs_with_time_partition (S fuel) api base start_date end_date d limit
  = Some r.
Proof.
  revert start_date end_date d r.
  induction fuel as [|fuel IH]; intros s e d r; [discriminate|].
  rewrite (fetch_prs_unfold (S fuel)), (fetch_prs_unfold fuel).
  destruct (scan_pages 10 api _ limit 1 0 d) as [total d'|d'|]; auto.
  cbv zeta.
  destruct (fetch_prs_with_time_partition fuel api base s _ d' limit)
    as [[c1 d1]|] eqn:E1; [|discriminate].
  rewrite (IH _ _ _ _ E1).
  destruct (fetch_prs_with_time_partition fuel api base _ e d1 limit)
    as [[c2 d2]|] eqn:E2; [|discriminate].
  now rewrite (IH _ _ _ _ E2).
Qed.

(** ** RangePartitioner: bisection of a date range *)

Lemma us_per_day_pos : 0 < us_per_day.
Proof. reflexivity. Qed.

Lemma day_of_mono (a b : datetime) : a <= b -> day_of a <= day_of b.
Proof. intros H. apply Z.div_le_mono; [exact us_per_day_pos|exact H]. Qed.

Lemma day_of_next (a : datetime) :
  day_of (a + timedelta_days 1) = day_of a + 1.
Proof.
  unfold day_of, timedelta_days. apply Z.div_add.
  pose proof us_per_day_pos. lia.
Qed.

(** Halving rounds to a nearest integer. *)
Lemma divide_and_round_half (t : Z) :
  t - 1 <= 2 * divide_and_round t 2 <= t + 1.
Proof.
  unfold divide_and_round.
  pose proof (Z.div_mod t 2 ltac:(lia)) as Hdm.
  pose proof (Z.mod_pos_bound t 2 ltac:(lia)) as Hb.
  change (0 <? 2) with true. cbv iota.
  destruct (Z.ltb_spec 2 (t mod 2 * 2)); [lia|]. simpl orb.
  destruct ((t mod 2 * 2 =? 2) && Z.odd (t / 2)) eqn:E; [|lia].
  apply andb_true_iff in E. destruct E as [E _].
  apply Z.eqb_eq in E. lia.
Qed.

(** The midpoint lies between the two ends, in whichever order they are. *)
Lemma mid_date_between (s e : datetime) :
  let mid := s + timedelta_div (e - s) 2 in
  (s <= e -> s <= mid <= e) /\ (e <= s -> e <= mid <= s).
Proof.
  unfold timedelta_div. pose proof (divide_and_round_half (e - s)). lia.
Qed.

Lemma bisect_days (s e : datetime) (day : Z) :
  day_of s <= day_of e ->
  let mid := s + timedelta_div (e - s) 2 in
  (in_days (day_of s) (day_of e) day
   <-> in_days (day_of s) (day_of mid) day
       \/ in_days (day_of (mid + timedelta_days 1)) (day_of e) day)
  /\ ~ (in_days (day_of s) (day_of mid) day
        /\ in_days (day_of (mid + timedelta_days 1)) (day_of e) day).
Proof.
  intros Hse mid. rewrite day_of_next. unfold in_days.
  destruct (mid_date_between s e) as [Hle Hge]. fold mid in Hle, Hge.
  assert (Hmid : day_of s <= day_of mid <= day_of e).
  { destruct (Z.le_ge_cases s e) as [H|H].
    - destruct (Hle H). split; now apply day_of_mono.
    - destruct (Hge H).
      pose proof (day_of_mono e mid ltac:(lia)).
      pose proof (day_of_mono mid s ltac:(lia)). lia. }
  lia.
Qed.

(** ** RangePartitioner: on the synthetic provider *)

Lemma matching_In (table : list (Z * RawMatch)) (a b : Z) (pr : RawMatch) :
  In pr (matching table a b)
  <-> exists day, In (day, pr) table /\ in_days a b day.
Proof.
  unfold matching, in_days. rewrite in_map_iff. split.
  - intros ([day pr'] & <- & Hin). apply filter_In in Hin.
    destruct Hin as [Hin Hr]. simpl in *. exists day.
    apply andb_true_iff in Hr. destruct Hr as [H1 H2].
    apply Z.leb_le in H1, H2. auto.
  - intros (day & Hin & Ha & Hb). exists (day, pr). split; [reflexivity|].
    apply filter_In. split; [exact Hin|]. simpl.
    apply andb_true_iff. split; now apply Z.leb_le.
Qed.

Lemma taken_ids_In (items : list RawMatch) (i : Z) :
  In i (taken_ids items)
  <-> exists pr, In pr items /\ raw_id pr = Some i /\ i <> 0.
Proof.
  unfold taken_ids. rewrite in_flat_map. split.
  - intros (pr & Hin & Hi). exists pr. split; [exact Hin|].
    destruct (raw_id pr) as [j|]; [|destruct Hi]. simpl in Hi.
    destruct (Z.eqb_spec j 0); simpl in Hi; [destruct Hi|].
    destruct Hi as [<-|[]]. auto.
  - intros (pr & Hin & Hid & Hnz). exists pr. split; [exact Hin|].
    rewrite Hid. simpl. destruct (Z.eqb_spec i 0); [contradiction|].
    now left.
Qed.

Lemma matching_empty (table : list (Z * RawMatch)) (a b : Z) :
  b < a -> matching table a b = [].
Proof.
  intros Hlt. destruct (matching table a b) as [|pr l] eqn:E; [reflexivity|].
  assert (Hin : In pr (matching table a b)) by (rewrite E; now left).
  apply matching_In in Hin. destruct Hin as (day & _ & Hd).
  unfold in_days in Hd. lia.
Qed.

Lemma firstn_add {A : Type} (a b : nat) (l : list A) :
  firstn (a + b) l = (firstn a l ++ firstn b (skipn a l))%list.
Proof.
  revert l. induction a as [|a IH]; intros l; [reflexivity|].
  destruct l as [|x l]; simpl.
  - now destruct b.
  - now rewrite IH.
Qed.

Section Synthetic.
Variable tables : string -> list (Z * RawMatch).
Variable base : string.
Variables from_day to_day : Z.

Let query : search_query :=
  {| q_base := base; q_from_day := from_day; q_to_day := to_day |}.
Let found : list RawMatch := matching (tables base) from_day to_day.

Lemma synthetic_page (k : nat) :
  synthetic_provider tables query (Z.of_nat k + 1)
  = Page (Z.of_nat (List.length found))
      (firstn 100 (skipn (100 * k) found)).
Proof.
  unfold synthetic_provider, query, found.
  cbn [q_base q_from_day q_to_day].
  replace (Z.to_nat (per_page * (Z.of_nat k + 1 - 1))) with (100 * k)%nat
    by (unfold per_page; lia).
  reflexivity.
Qed.

(** The result of the page loop on the synthetic provider, begun at page
    [k + 1] with the first [100 * k] matches stored: an overflow with the
    first 1000 matches stored when there are more than 1000, and else all
    matches stored and the new ones counted. *)
Lemma scan_synthetic_from (d : prs_dict) (n k : nat) :
  (n + k = 10)%nat -> (k <= 9)%nat ->
  (100 * k <= List.length found)%nat ->
  let st := add_items (firstn (100 * k) found) (d, 0) in
  scan_pages n (synthetic_provider tables) query None
    (Z.of_nat k + 1) (snd st) (fst st)
  = if 1000 <? Z.of_nat (List.length found)
    then Overflow (fst (add_items (firstn 1000 found) (d, 0)))
    else Returned (snd (add_items found (d, 0)))
                  (fst (add_items found (d, 0))).
Proof.
  revert k. induction n as [|n IH]; intros k Hnk Hk Hlen st; [lia|].
  cbn [scan_pages limit_reached]. rewrite synthetic_page.
  set (items := firstn 100 (skipn (100 * k) found)).
  assert (Hitems : (List.length items
                    = Nat.min 100 (List.length found - 100 * k))%nat).
  { unfold items. now rewrite length_firstn, length_skipn. }
  assert (Hnext : add_items items st
                  = add_items (firstn (100 * k + 100) found) (d, 0)).
  { unfold st, items. now rewrite firstn_add, add_items_app. }
  rewrite <- (surjective_pairing st), Hnext.
  set (st' := add_items (firstn (100 * k + 100) found) (d, 0)).
  rewrite (surjective_pairing st'). cbv beta iota.
  assert (Hstep :
             (100 * S k <= List.length found)%nat -> (S k <= 9)%nat ->
             (if 1000 <? Z.of_nat (List.length found)
              then Overflow (fst (add_items (firstn 1000 found) (d, 0)))
              else Returned (snd (add_items found (d, 0)))
                     (fst (add_items found (d, 0))))
             = scan_pages n (synthetic_provider tables) query None
                 (Z.of_nat k + 1 + 1) (snd st') (fst st')).
  { intros H1 H2. symmetry.
    replace (Z.of_nat k + 1 + 1) with (Z.of_nat (S k) + 1) by lia.
    unfold st'.
    replace (100 * k + 100)%nat with (100 * S k)%nat by lia.
    apply (IH (S k)); lia. }
  destruct items as [|pr items'] eqn:Eitems.
  - cbn [List.length] in Hitems.
    assert (Hall : firstn (100 * k) found = found)
      by (apply firstn_all2; lia).
    destruct (Z.ltb_spec 1000 (Z.of_nat (List.length found))); [lia|].
    unfold st. now rewrite Hall.
  - unfold per_page.
    destruct (Z.ltb_spec 1000 (Z.of_nat (List.length found)))
      as [Hbig|Hsmall].
    + destruct (Z.eqb_spec (Z.of_nat k + 1) 10) as [Hten|Hnot].
      * simpl andb. cbv iota. unfold st'.
        replace (100 * k + 100)%nat with 1000%nat by lia. reflexivity.
      * simpl andb. cbv iota.
        destruct (Z.ltb_spec (Z.of_nat (List.length (pr :: items'))) 100)
          as [Hshort|Hfull]; [lia|].
        destruct (Z.leb_spec 10 (Z.of_nat k + 1)); [lia|].
        simpl orb. cbv iota. symmetry. apply Hstep; lia.
    + simpl andb. cbv iota.
      assert (Hall : (List.length (pr :: items') < 100)%nat
                     \/ (9 <= k)%nat ->
                     firstn (100 * k + 100) found = found)
        by (intros; apply firstn_all2; lia).
      destruct (Z.ltb_spec (Z.of_nat (List.length (pr :: items'))) 100)
        as [Hshort|Hfull].
      * simpl orb. cbv iota. unfold st'. rewrite Hall by lia. reflexivity.
      * destruct (Z.leb_spec 10 (Z.of_nat k + 1)) as [Hten|Hless].
        -- simpl orb. cbv iota. unfold st'. rewrite Hall by lia.
           reflexivity.
        -- simpl orb. cbv iota. symmetry. apply Hstep; lia.
Qed.

Lemma scan_synthetic (d : prs_dict) :
  scan_pages 10 (synthetic_provider tables) query None 1 0 d
  = if 1000 <? Z.of_nat (List.length found)
    then Overflow (fst (add_items (firstn 1000 found) (d, 0)))
    else Returned (snd (add_items found (d, 0)))
                  (fst (add_items found (d, 0))).
Proof.
  apply (scan_synthetic_from d 10 0); lia.
Qed.
End Synthetic.

(** ** RangePartitioner: completeness on a thin table *)

Lemma collects_trans (d d1 d2 : prs_dict) (l1 l2 l : list RawMatch) :
  collects d d1 l1 -> collects d1 d2 l2 ->
  (forall i, In i (taken_ids l) <-> In i (taken_ids l1) \/ In i (taken_ids l2)) ->
  collects d d2 l.
Proof.
  intros [_ H1] [Hn H2] Hl. split; [exact Hn|].
  intros i. rewrite H2, H1, Hl. tauto.
Qed.

Lemma collects_add_items (items : list RawMatch) (d : prs_dict) :
  NoDup (dict_keys d) ->
  collects d (fst (add_items items (d, 0))) items.
Proof.
  intros Hn. destruct (add_items_keys items (d, 0) Hn) as (H1 & H2 & _).
  now split.
Qed.

Lemma taken_ids_firstn (k : nat) (l : list RawMatch) (i : Z) :
  In i (taken_ids (firstn k l)) -> In i (taken_ids l).
Proof.
  rewrite !taken_ids_In. intros (pr & Hin & H). exists pr.
  split; [|exact H]. rewrite <- (firstn_skipn k l).
  apply in_or_app. now left.
Qed.

Section Completeness.
Variable tables : string -> list (Z * RawMatch).
Hypothesis tables_thin : thin tables.
Variable base : string.

Let api : search_api := synthetic_provider tables.
Let found (s e : datetime) : list RawMatch :=
  matching (tables base) (day_of s) (day_of e).

Lemma found_bisect (s e : datetime) (i : Z) :
  day_of s <= day_of e ->
  let mid := s + timedelta_div (e - s) 2 in
  In i (taken_ids (found s e))
  <-> In i (taken_ids (found s mid))
      \/ In i (taken_ids (found (mid + timedelta_days 1) e)).
Proof.
  intros Hse mid. unfold found. rewrite !taken_ids_In. split.
  - intros (pr & Hin & Hid). apply matching_In in Hin.
    destruct Hin as (day & Hin & Hday).
    apply (bisect_days s e day Hse) in Hday. fold mid in Hday.
    destruct Hday as [Hday|Hday]; [left|right]; exists pr;
      (split; [|exact Hid]); apply matching_In; eauto.
  - intros [(pr & Hin & Hid)|(pr & Hin & Hid)]; exists pr;
      (split; [|exact Hid]); apply matching_In in Hin;
      destruct Hin as (day & Hin & Hday); apply matching_In; exists day;
      (split; [exact Hin|]);
      apply (bisect_days s e day Hse); fold mid; auto.
Qed.

Lemma found_small (s e : datetime) :
  day_of e <= day_of s -> (List.length (found s e) <= 1000)%nat.
Proof.
  intros Hes. unfold found.
  destruct (Z.eq_dec (day_of e) (day_of s)) as [->|Hne].
  - apply tables_thin.
  - rewrite matching_empty by lia. simpl. lia.
Qed.

(** A range of one day, or of none, is read in one partition. *)
Lemma fetch_single_day (s e : datetime) (d : prs_dict) :
  NoDup (dict_keys d) -> day_of e <= day_of s ->
  exists c d',
    fetch_prs_with_time_partition 1 api base s e d None = Some (c, d')
    /\ collects d d' (found s e).
Proof.
  intros Hn Hes. rewrite fetch_prs_unfold. unfold api.
  rewrite scan_synthetic. fold (found s e).
  pose proof (found_small s e Hes) as Hsmall.
  destruct (Z.ltb_spec 1000 (Z.of_nat (List.length (found s e)))); [lia|].
  eexists. eexists. split; [reflexivity|].
  now apply collects_add_items.
Qed.

(** One level of the recursion: when both halves are read with [fuel], the
    range is read with one more. *)
Lemma fetch_step (fuel : nat) (s e : datetime) (d : prs_dict) :
  let mid := s + timedelta_div (e - s) 2 in
  NoDup (dict_keys d) ->
  (forall d0, NoDup (dict_keys d0) ->
     exists c1 d1,
       fetch_prs_with_time_partition fuel api base s mid d0 None
       = Some (c1, d1)
       /\ collects d0 d1 (found s mid)) ->
  (forall d0, NoDup (dict_keys d0) ->
     exists c2 d2,
       fetch_prs_with_time_partition fuel api base
         (mid + timedelta_days 1) e d0 None = Some (c2, d2)
       /\ collects d0 d2 (found (mid + timedelta_days 1) e)) ->
  exists c d',
    fetch_prs_with_time_partition (S fuel) api base s e d None
    = Some (c, d')
    /\ collects d d' (found s e).
Proof.
  intros mid Hn Hleft Hright. rewrite fetch_prs_unfold. unfold api.
  rewrite scan_synthetic. fold (found s e). fold api.
  destruct (Z.ltb_spec 1000 (Z.of_nat (List.length (found s e))))
    as [Hbig|Hsmall].
  - cbv zeta. fold mid.
    pose proof (collects_add_items (firstn 1000 (found s e)) d Hn) as H10.
    set (d10 := fst (add_items (firstn 1000 (found s e)) (d, 0))) in *.
    destruct (Hleft d10 (proj1 H10)) as (c1 & d1 & -> & H1).
    destruct (Hright d1 (proj1 H1)) as (c2 & d2 & -> & H2).
    exists (c1 + c2), d2. split; [reflexivity|].
    assert (Hse : day_of s <= day_of e).
    { destruct (Z.le_gt_cases (day_of s) (day_of e)) as [H|H]; [exact H|].
      pose proof (found_small s e ltac:(lia)). lia. }
    destruct H10 as [_ H10]. destruct H1 as [_ H1]. destruct H2 as [Hn2 H2].
    split; [exact Hn2|].
    intros i. rewrite H2, H1, H10.
    pose proof (found_bisect s e i Hse) as Hb. cbv zeta in Hb.
    fold mid in Hb.
    pose proof (taken_ids_firstn 1000 (found s e) i). tauto.
  - eexists. eexists. split; [reflexivity|].
    now apply collects_add_items.
Qed.

(** Partition completeness: with enough fuel the partitioner returns, and
    the dictionary then holds, besides what it held, exactly the matches of
    the whole range, each once. *)
Lemma fetch_complete (n : nat) (s e : datetime) (d : prs_dict) :
  NoDup (dict_keys d) -> e - s <= 2 ^ Z.of_nat n ->
  exists c d',
    fetch_prs_with_time_partition (S (S n)) api base s e d None
    = Some (c, d')
    /\ collects d d' (found s e).
Proof.
  revert s e d. induction n as [|n IH]; intros s e d Hn Hspan.
  - pose proof (divide_and_round_half (e - s)) as Hhalf.
    assert (Hr : divide_and_round (e - s) 2 <= 0).
    { destruct (Z.eq_dec (e - s) 1) as [->|Hne]; [discriminate|].
      change (2 ^ Z.of_nat 0) with 1 in Hspan. lia. }
    change (2 ^ Z.of_nat 0) with 1 in Hspan.
    apply fetch_step; [exact Hn| |]; intros d0 Hd0;
      apply fetch_single_day; try exact Hd0.
    + apply day_of_mono. unfold timedelta_div. lia.
    + apply day_of_mono. unfold timedelta_div, timedelta_days.
      pose proof us_per_day_pos. lia.
  - pose proof (divide_and_round_half (e - s)) as Hhalf.
    assert (Hpow : 2 ^ Z.of_nat (S n) = 2 * 2 ^ Z.of_nat n).
    { rewrite Nat2Z.inj_succ. apply Z.pow_succ_r. lia. }
    apply fetch_step; [exact Hn| |]; intros d0 Hd0;
      apply IH; try exact Hd0; unfold timedelta_div, timedelta_days;
      pose proof us_per_day_pos; lia.
Qed.
End Completeness.

(** ** RangePartitioner: the count returned *)

(** The page loop counts exactly the entries it adds, until it overflows. *)
Lemma scan_pages_count (n : nat) (api : search_api) (query : search_query)
    (limit : option Z) (page total : Z) (d : prs_dict) :
  NoDup (dict_keys d) ->
  match scan_pages n api query limit page total d with
  | Returned t d' =>
      NoDup (dict_keys d')
      /\ t - total = Z.of_nat (List.length d') - Z.of_nat (List.length d)
  | Overflow d' =>
      NoDup (dict_keys d') /\ (List.length d <= List.length d')%nat
  | PagesExhausted => True
  end.
Proof.
  revert page total d. induction n as [|n IH]; intros page total d Hn;
    [exact I|].
  cbn [scan_pages].
  destruct (limit_reached limit total); [split; [exact Hn|lia]|].
  destruct (api query page) as [| | |tc items]; try (split; [exact Hn|lia]).
  destruct items as [|pr items]; [split; [exact Hn|lia]|].
  destruct (add_items_keys (pr :: items) (d, total) Hn) as (Hn' & _ & Hc).
  pose proof (add_items_length_le (pr :: items) (d, total)) as Hle.
  destruct (add_items (pr :: items) (d, total)) as [d' total'].
  cbn [fst snd] in *.
  destruct ((1000 <? tc) && (page =? 10)); [split; [exact Hn'|lia]|].
  destruct ((Z.of_nat (List.length (pr :: items)) <? per_page)
            || (10 <=? page)); [split; [exact Hn'|lia]|].
  specialize (IH (page + 1) total' d' Hn').
  destruct (scan_pages n api query limit (page + 1) total' d')
    as [t d''|d''|]; [| |exact I].
  - destruct IH as [Hn'' Ht]. split; [exact Hn''|lia].
  - destruct IH as [Hn'' Ht]. split; [exact Hn''|lia].
Qed.

(** The partitioner never counts more than it adds, and keeps the keys
    distinct. *)
Lemma fetch_count_le_added (fuel : nat) (api : search_api) (base : string)
    (s e : datetime) (d : prs_dict) (limit : option Z) (c : Z)
    (d' : prs_dict) :
  NoDup (dict_keys d) ->
  fetch_prs_with_time_partition fuel api base s e d limit = Some (c, d') ->
  NoDup (dict_keys d')
  /\ c <= Z.of_nat (List.length d') - Z.of_nat (List.length d).
Proof.
  revert s e d c d'. induction fuel as [|fuel IH]; intros s e d c d' Hn;
    [discriminate|].
  rewrite fetch_prs_unfold.
  pose proof (scan_pages_count 10 api
                {| q_base := base; q_from_day := day_of s;
                   q_to_day := day_of e |} limit 1 0 d Hn) as Hscan.
  destruct (scan_pages 10 api _ limit 1 0 d) as [t d0|d0|]; [| |discriminate].
  - intros [= <- <-]. destruct Hscan as [H1 H2]. split; [exact H1|lia].
  - destruct Hscan as [Hn0 Hlen]. cbv zeta.
    destruct (fetch_prs_with_time_partition fuel api base s _ d0 limit)
      as [[c1 d1]|] eqn:E1; [|discriminate].
    destruct (IH _ _ _ _ _ Hn0 E1) as [Hn1 Hc1].
    destruct (fetch_prs_with_time_partition fuel api base _ e d1 limit)
      as [[c2 d2]|] eqn:E2; [|discriminate].
    destruct (IH _ _ _ _ _ Hn1 E2) as [Hn2 Hc2].
    intros [= <- <-]. split; [exact Hn2|lia].
Qed.

(** One dictionary for all the patterns of a pass: its keys stay distinct,
    so every id gives one record. *)
Lemma mine_patterns_nodup (fuel : nat) (api : search_api)
    (patterns : list string) (s e : datetime) (d d' : prs_dict)
    (limit : option Z) :
  NoDup (dict_keys d) ->
  mine_patterns fuel api patterns s e d limit = Some d' ->
  NoDup (dict_keys d').
Proof.
  revert d. induction patterns as [|p patterns IH]; simpl; intros d Hn.
  - now intros [= <-].
  - destruct (fetch_prs_with_time_partition fuel api p s e d limit)
      as [[c d1]|] eqn:E; [|discriminate].
    apply IH. now apply (fetch_count_le_added _ _ _ _ _ _ _ _ _ Hn E).
Qed.

Lemma mapM_length {A B : Type} (f : A -> exc B) (l : list A) (l' : list B) :
  mapM f l = Ret l' -> List.length l' = List.length l.
Proof.
  revert l'. induction l as [|a l IH]; simpl; intros l'.
  - now intros [= <-].
  - destruct (f a) as [b|]; simpl; [|discriminate].
    destruct (mapM f l) as [bs|]; simpl; [|discriminate].
    intros [= <-]. simpl. now rewrite (IH bs).
Qed.

(** The records of a pass are as many as the distinct ids found. *)
Lemma fetch_all_prs_metadata_one_per_id (fuel : nat) (api : search_api)
    (debug_mode : bool) (now : datetime) (identifier : string)
    (start_from_date : option datetime) (records : list MetadataRecord) :
  fetch_all_prs_metadata fuel api debug_mode now identifier start_from_date
  = Some (Ret records) ->
  exists d : prs_dict,
    NoDup (dict_keys d) /\ List.length records = List.length (dict_keys d).
Proof.
  unfold fetch_all_prs_metadata.
  destruct (mine_patterns fuel api (query_patterns identifier) _ _ []
              (if debug_mode then Some 10 else None)) as [d|] eqn:E;
    [|discriminate].
  intros [= Hmap]. exists d. split.
  - apply (mine_patterns_nodup _ _ _ _ _ [] _ _ (NoDup_nil Z) E).
  - rewrite (mapM_length _ _ _ Hmap). unfold dict_values, dict_keys.
    now rewrite !length_map.
Qed.

(** A match found by all three patterns, and one found by one: two
    records. *)
Lemma fetch_all_prs_metadata_two_patterns :
  fetch_all_prs_metadata 1 provider_two_patterns false (utc 2024 2 1 0 0 0)
    "agent-x" None
  = Some (Ret [ {| html_url := Some "https://github.com/o/r/pull/1";
                   created_at := Some "2024-01-01T00:00:00Z";
                   merged_at := None; closed_at := None |};
                {| html_url := Some "https://github.com/o/r/pull/2";
                   created_at := Some "2024-01-02T00:00:00Z";
                   merged_at := None; closed_at := None |} ]).
Proof. vm_compute. reflexivity. Qed.

(** ** RangePartitioner: 1500 matches over 150 days *)

Lemma fetch_1500 :
  fetch_prs_with_time_partition 2 provider_1500 "is:pr author:agent-x"
    range_start range_end [] None
  = Some (500, all_1500).
Proof. vm_compute. reflexivity. Qed.

Lemma all_1500_keys : dict_keys all_1500 = map Z.of_nat (seq 1 1500).
Proof. vm_compute. reflexivity. Qed.

Lemma all_1500_values :
  dict_values all_1500
  = matching (evenly_spread day_2024_01_01 10 1500)
      (day_of range_start) (day_of range_end).
Proof. vm_compute. reflexivity. Qed.

Lemma matching_length_days (table : list (Z * RawMatch)) (day : Z) :
  List.length (matching table day day)
  = List.length (filter (fun x => x =? day) (map fst table)).
Proof.
  unfold matching. rewrite length_map.
  induction table as [|[x pr] table IH]; [reflexivity|].
  cbn [filter map fst].
  replace ((day <=? x) && (x <=? day)) with (x =? day)
    by (destruct (Z.eqb_spec x day), (Z.leb_spec day x), (Z.leb_spec x day);
        try reflexivity; lia).
  destruct (x =? day); cbn [List.length]; now rewrite IH.
Qed.

Lemma evenly_spread_days :
  map fst (evenly_spread day_2024_01_01 10 1500)
  = flat_map (fun j => repeat (day_2024_01_01 + Z.of_nat j) 10) (seq 0 150).
Proof. vm_compute. reflexivity. Qed.

Lemma evenly_spread_thin :
  thin (fun _ => evenly_spread day_2024_01_01 10 1500).
Proof.
  intros _ day. rewrite matching_length_days, evenly_spread_days.
  set (days := flat_map (fun j => repeat (day_2024_01_01 + Z.of_nat j) 10)
                 (seq 0 150)).
  assert (Hrange : forallb (fun x => (day_2024_01_01 <=? x)
                                     && (x <? day_2024_01_01 + 150)) days
                   = true) by (vm_compute; reflexivity).
  assert (Hcount : forallb
                     (fun j => Nat.leb
                                 (List.length
                                    (filter
                                       (fun x =>
                                          x =? day_2024_01_01 + Z.of_nat j)
                                       days)) 1000)
                     (seq 0 150) = true) by (vm_compute; reflexivity).
  destruct (Z_le_gt_dec day_2024_01_01 day) as [Hlo|Hlo];
    [destruct (Z_lt_ge_dec day (day_2024_01_01 + 150)) as [Hhi|Hhi]|].
  - rewrite forallb_forall in Hcount.
    specialize (Hcount (Z.to_nat (day - day_2024_01_01))).
    replace (day_2024_01_01 + Z.of_nat (Z.to_nat (day - day_2024_01_01)))
      with day in Hcount by lia.
    apply Nat.leb_le. apply Hcount. apply in_seq. lia.
  - destruct (filter (fun x => x =? day) days) as [|x l] eqn:E;
      [simpl; lia|].
    assert (Hin : In x (filter (fun x => x =? day) days))
      by (rewrite E; now left).
    apply filter_In in Hin. destruct Hin as [Hin Hx].
    apply Z.eqb_eq in Hx. subst x.
    rewrite forallb_forall in Hrange. specialize (Hrange _ Hin).
    apply andb_true_iff in Hrange. destruct Hrange as [_ H2].
    apply Z.ltb_lt in H2. lia.
  - destruct (filter (fun x => x =? day) days) as [|x l] eqn:E;
      [simpl; lia|].
    assert (Hin : In x (filter (fun x => x =? day) days))
      by (rewrite E; now left).
    apply filter_In in Hin. destruct Hin as [Hin Hx].
    apply Z.eqb_eq in Hx. subst x.
    rewrite forallb_forall in Hrange. specialize (Hrange _ Hin).
    apply andb_true_iff in Hrange. destruct Hrange as [H1 _].
    apply Z.leb_le in H1. lia.
Qed.

(** C1.  When page 10 is reached and the provider reports more than 1000
    matches, the partitioner bisects the date range at its midpoint, fetches
    [start .. mid] and [mid + 1 day .. end] recursively with the same
    dictionary, and returns the sum of their counts.  At day granularity the
    two halves cover the range and are disjoint.  Hence, on a provider none
    of whose days holds more than 1000 matches, the dictionary ends up with
    exactly the matches of the range, each once; so it does for 1500 matches
    spread evenly over 150 days. *)
Theorem partition_bisects_and_collects :
  (forall fuel api base s e d limit d10,
      scan_pages 10 api
        {| q_base := base; q_from_day := day_of s; q_to_day := day_of e |}
        limit 1 0 d = Overflow d10 ->
      fetch_prs_with_time_partition (S fuel) api base s e d limit
      = match fetch_prs_with_time_partition fuel api base s
                (s + timedelta_div (e - s) 2) d10 limit with
        | None => None
        | Some (count1, d1) =>
            match fetch_prs_with_time_partition fuel api base
                    (s + timedelta_div (e - s) 2 + timedelta_days 1) e d1
                    limit with
            | None => None
            | Some (count2, d2) => Some (count1 + count2, d2)
            end
        end)
  /\ (forall n api query limit total d total_count items,
        limit_reached limit total = false ->
        api query 10 = Page total_count items ->
        items <> [] -> 1000 < total_count ->
        scan_pages (S n) api query limit 10 total d
        = Overflow (fst (add_items items (d, total))))
  /\ (forall tables base s e d,
        1000 < Z.of_nat (List.length
                           (matching (tables base) (day_of s) (day_of e))) ->
        scan_pages 10 (synthetic_provider tables)
          {| q_base := base; q_from_day := day_of s; q_to_day := day_of e |}
          None 1 0 d
        = Overflow
            (fst (add_items
                    (firstn 1000
                       (matching (tables base) (day_of s) (day_of e)))
                    (d, 0))))
  /\ (forall s e day,
        day_of s <= day_of e ->
        (in_days (day_of s) (day_of e) day
         <-> in_days (day_of s) (day_of (s + timedelta_div (e - s) 2)) day
             \/ in_days
                  (day_of (s + timedelta_div (e - s) 2 + timedelta_days 1))
                  (day_of e) day)
        /\ ~ (in_days (day_of s) (day_of (s + timedelta_div (e - s) 2)) day
              /\ in_days
                   (day_of (s + timedelta_div (e - s) 2 + timedelta_days 1))
                   (day_of e) day))
  /\ (forall tables base n s e d,
        thin tables -> NoDup (dict_keys d) -> e - s <= 2 ^ Z.of_nat n ->
        exists c d',
          fetch_prs_with_time_partition (S (S n)) (synthetic_provider tables)
            base s e d None = Some (c, d')
          /\ collects d d' (matching (tables base) (day_of s) (day_of e)))
  /\ (exists c,
        fetch_prs_with_time_partition 2 provider_1500 "is:pr author:agent-x"
          range_start range_end [] None = Some (c, all_1500))
  /\ dict_values all_1500
     = matching (evenly_spread day_2024_01_01 10 1500)
         (day_of range_start) (day_of range_end)
  /\ List.length all_1500 = 1500%nat
  /\ NoDup (dict_keys all_1500).
Proof.
  split.
  { intros fuel api base s e d limit d10 Hscan.
    rewrite fetch_prs_unfold, Hscan. reflexivity. }
  split.
  { intros n api query limit total d tc items Hlimit Hpage Hitems Hbig.
    cbn [scan_pages]. rewrite Hlimit, Hpage.
    destruct items as [|pr items]; [now contradiction Hitems|].
    rewrite (surjective_pairing (add_items (pr :: items) (d, total))).
    apply Z.ltb_lt in Hbig. rewrite Hbig. reflexivity. }
  split.
  { intros tables base s e d Hbig. rewrite scan_synthetic.
    apply Z.ltb_lt in Hbig. now rewrite Hbig. }
  split.
  { intros s e day Hse. exact (bisect_days s e day Hse). }
  split.
  { intros tables base n s e d Hthin Hn Hspan.
    now apply fetch_complete. }
  split; [exists 500; exact fetch_1500|].
  split; [exact all_1500_values|].
  split; [reflexivity|].
  rewrite all_1500_keys. apply Injective_map_NoDup.
  - intros x y. apply Nat2Z.inj.
  - apply seq_NoDup.
Qed.

Lemma partition_bisects_and_collects_witness :
  exists c d',
    fetch_prs_with_time_partition 46
      (synthetic_provider (fun _ => evenly_spread day_2024_01_01 10 1500))
      "is:pr author:agent-x" range_start range_end [] None = Some (c, d')
    /\ collects [] d'
         (matching (evenly_spread day_2024_01_01 10 1500)
            (day_of range_start) (day_of range_end)).
Proof.
  refine (proj1 (proj2 (proj2 (proj2 (proj2 partition_bisects_and_collects))))
            (fun _ => evenly_spread day_2024_01_01 10 1500)
            "is:pr author:agent-x" 44%nat range_start range_end []
            evenly_spread_thin (NoDup_nil Z) _).
  vm_compute. discriminate.
Defined.

(** C2 against the code.  The count of a partition that overflows leaves out
    what its own ten pages added: on the 1500 matches, none of them known
    before, the partitioner stores 1500 new entries and returns 500. *)
Theorem partition_count_omits_overflowed_pages :
  fetch_prs_with_time_partition 2 provider_1500 "is:pr author:agent-x"
    range_start range_end [] None = Some (500, all_1500)
  /\ Z.of_nat (List.length all_1500) - Z.of_nat (List.length (@nil (Z * RawMatch)))
     = 1500.
Proof. split; [exact fetch_1500|reflexivity]. Qed.

(* ===================================================================== *)
(** * Part III.  Further properties of the code                          *)
(* ===================================================================== *)

(** ** RangePartitioner: pages requested *)

Lemma scan_pages_only_ten (n : nat) (api1 api2 : search_api)
    (query : search_query) (limit : option Z) (page total : Z)
    (d : prs_dict) :
  1 <= page <= 10 ->
  (forall p, 1 <= p <= 10 -> api1 query p = api2 query p) ->
  scan_pages n api1 query limit page total d
  = scan_pages n api2 query limit page total d.
Proof.
  revert page total d. induction n as [|n IH]; intros page total d Hp Hagree;
    [reflexivity|].
  cbn [scan_pages]. rewrite (Hagree page Hp).
  destruct (limit_reached limit total); [reflexivity|].
  destruct (api2 query page) as [| | |tc items]; try reflexivity.
  destruct items as [|pr items]; [reflexivity|].
  destruct (add_items (pr :: items) (d, total)) as [d' total'].
  destruct ((1000 <? tc) && (page =? 10)); [reflexivity|].
  destruct (Z.leb_spec 10 page) as [Hge|Hlt].
  - rewrite orb_true_r. reflexivity.
  - rewrite orb_false_r.
    destruct (Z.of_nat (List.length (pr :: items)) <? per_page);
      [reflexivity|].
    apply IH; [lia|exact Hagree].
Qed.

(** X1.  The page loop of a partition always leaves within ten iterations,
    whatever the provider answers, and it never asks for a page beyond the
    tenth: two providers that agree on pages 1 to 10 of the query give the
    same result. *)
Theorem scan_pages_within_ten_pages
    (api : search_api) (query : search_query) (limit : option Z)
    (total : Z) (d : prs_dict) :
  scan_pages 10 api query limit 1 total d <> PagesExhausted
  /\ (forall api',
        (forall p, 1 <= p <= 10 -> api query p = api' query p) ->
        scan_pages 10 api query limit 1 total d
        = scan_pages 10 api' query limit 1 total d).
Proof.
  split.
  - apply scan_pages_enough; lia.
  - intros api' Hagree. apply scan_pages_only_ten; [lia|exact Hagree].
Qed.

Lemma scan_pages_within_ten_pages_witness :
  scan_pages 10 provider_1500
    {| q_base := "is:pr author:agent-x"; q_from_day := day_of range_start;
       q_to_day := day_of range_end |} None 1 0 []
  = scan_pages 10
      (fun query page => if page <=? 10 then provider_1500 query page
                         else NoResponse)
      {| q_base := "is:pr author:agent-x"; q_from_day := day_of range_start;
         q_to_day := day_of range_end |} None 1 0 [].
Proof.
  refine (proj2 (scan_pages_within_ten_pages provider_1500 _ None 0 []) _ _).
  intros p Hp. destruct (Z.leb_spec p 10); [reflexivity|lia].
Defined.

(** ** RangePartitioner: entries are never replaced *)

Lemma scan_pages_keeps (n : nat) (api : search_api) (query : search_query)
    (limit : option Z) (page total : Z) (d d' : prs_dict) (i : Z)
    (old : RawMatch) :
  scan_dict (scan_pages n api query limit page total d) = Some d' ->
  dict_get Z.eqb i d = Some old -> dict_get Z.eqb i d' = Some old.
Proof.
  revert page total d. induction n as [|n IH]; intros page total d;
    [discriminate|].
  cbn [scan_pages].
  destruct (limit_reached limit total); [now intros [= <-]|].
  destruct (api query page) as [| | |tc items]; try now intros [= <-].
  destruct items as [|pr items]; [now intros [= <-]|].
  pose proof (add_items_keeps (pr :: items) (d, total) i old) as Hkeep.
  destruct (add_items (pr :: items) (d, total)) as [d1 total1].
  cbn [fst] in Hkeep.
  destruct ((1000 <? tc) && (page =? 10));
    [intros [= <-]; exact Hkeep|].
  destruct ((Z.of_nat (List.length (pr :: items)) <? per_page)
            || (10 <=? page)); [intros [= <-]; exact Hkeep|].
  intros Hscan Hget. apply (IH _ _ _ Hscan). now apply Hkeep.
Qed.

Lemma fetch_keeps (fuel : nat) (api : search_api) (base : string)
    (s e : datetime) (d d' : prs_dict) (limit : option Z) (c i : Z)
    (old : RawMatch) :
  fetch_prs_with_time_partition fuel api base s e d limit = Some (c, d') ->
  dict_get Z.eqb i d = Some old -> dict_get Z.eqb i d' = Some old.
Proof.
  revert s e d c d'. induction fuel as [|fuel IH]; intros s e d c d';
    [discriminate|].
  rewrite fetch_prs_unfold.
  pose proof (scan_pages_keeps 10 api
                {| q_base := base; q_from_day := day_of s;
                   q_to_day := day_of e |} limit 1 0 d) as Hscan.
  destruct (scan_pages 10 api _ limit 1 0 d) as [t d0|d0|]; [| |discriminate].
  - intros [= <- <-]. now apply Hscan.
  - cbv zeta.
    destruct (fetch_prs_with_time_partition fuel api base s _ d0 limit)
      as [[c1 d1]|] eqn:E1; [|discriminate].
    destruct (fetch_prs_with_time_partition fuel api base _ e d1 limit)
      as [[c2 d2]|] eqn:E2; [|discriminate].
    intros [= <- <-] Hget.
    apply (IH _ _ _ _ _ E2). apply (IH _ _ _ _ _ E1). now apply (Hscan d0).
Qed.

(** X2.  Nothing that is in the shared dictionary is replaced or removed:
    after a partition, and after the whole pass over the patterns, every id
    that was present still maps to the match it mapped to (the first match
    found under an id is the one kept). *)
Theorem pass_keeps_first_match
    (fuel : nat) (api : search_api) (patterns : list string)
    (s e : datetime) (d d' : prs_dict) (limit : option Z) (i : Z)
    (old : RawMatch) :
  mine_patterns fuel api patterns s e d limit = Some d' ->
  dict_get Z.eqb i d = Some old ->
  dict_get Z.eqb i d' = Some old.
Proof.
  revert d. induction patterns as [|p patterns IH]; simpl; intros d.
  - now intros [= <-].
  - destruct (fetch_prs_with_time_partition fuel api p s e d limit)
      as [[c d1]|] eqn:E; [|discriminate].
    intros Hrest Hget. apply (IH d1 Hrest).
    now apply (fetch_keeps _ _ _ _ _ _ _ _ _ _ _ E).
Qed.

Lemma pass_keeps_first_match_witness :
  dict_get Z.eqb 1
    [(1, snd shared_match); (2, snd author_only_match)]
  = Some (snd shared_match).
Proof.
  refine (pass_keeps_first_match 1 provider_two_patterns
            ["is:pr author:agent-x"; "is:pr head:agent-x/"]
            (utc 2024 1 1 0 0 0) (utc 2024 1 31 0 0 0)
            [(1, snd shared_match)] _ None 1 (snd shared_match) _ _).
  - vm_compute. reflexivity.
  - reflexivity.
Defined.

(** ** RangePartitioner: what the count says *)

(** X3.  A partition never counts more than it adds to the dictionary, and
    keeps the ids distinct; when its page loop ends without overflow the
    count is exactly the number of entries added. *)
Theorem partition_count_bounds
    (fuel : nat) (api : search_api) (base : string) (s e : datetime)
    (d d' : prs_dict) (limit : option Z) (c : Z) :
  NoDup (dict_keys d) ->
  fetch_prs_with_time_partition (S fuel) api base s e d limit = Some (c, d') ->
  NoDup (dict_keys d')
  /\ c <= Z.of_nat (List.length d') - Z.of_nat (List.length d)
  /\ (forall t d0,
        scan_pages 10 api
          {| q_base := base; q_from_day := day_of s; q_to_day := day_of e |}
          limit 1 0 d = Returned t d0 ->
        c = Z.of_nat (List.length d') - Z.of_nat (List.length d)).
Proof.
  intros Hn Hfetch.
  destruct (fetch_count_le_added _ _ _ _ _ _ _ _ _ Hn Hfetch) as [Hn' Hle].
  split; [exact Hn'|]. split; [exact Hle|].
  intros t d0 Hscan. rewrite fetch_prs_unfold, Hscan in Hfetch.
  injection Hfetch as <- <-.
  pose proof (scan_pages_count 10 api
                {| q_base := base; q_from_day := day_of s;
                   q_to_day := day_of e |} limit 1 0 d Hn) as Hcount.
  rewrite Hscan in Hcount. lia.
Qed.

Lemma partition_count_bounds_witness :
  NoDup (dict_keys all_1500)
  /\ 500 <= Z.of_nat (List.length all_1500)
            - Z.of_nat (List.length (@nil (Z * RawMatch))).
Proof.
  destruct (partition_count_bounds 1 provider_1500 "is:pr author:agent-x"
              range_start range_end [] all_1500 None 500 (NoDup_nil Z)
              fetch_1500) as (H1 & H2 & _).
  split; [exact H1|exact H2].
Defined.

(** ** RangePartitioner: the debug limit *)

Lemma add_items_count_le (items : list RawMatch) (st : prs_dict * Z) :
  snd (add_items items st) <= snd st + Z.of_nat (List.length items).
Proof.
  unfold add_items. revert st.
  induction items as [|pr items IH]; intros st; [simpl; lia|].
  cbn [fold_left List.length]. specialize (IH (add_item st pr)).
  assert (Hone : snd (add_item st pr) <= snd st + 1).
  { destruct st as [d n]. unfold add_item. cbn [snd].
    destruct (raw_id pr) as [j|]; [|cbn [snd]; lia].
    destruct (truthy_int (Some j) && negb (dict_mem Z.eqb j d));
      cbn [snd]; lia. }
  lia.
Qed.

Lemma scan_pages_limit (n : nat) (api : search_api) (query : search_query)
    (l page total : Z) (d : prs_dict) :
  pages_bounded api -> total < l + per_page ->
  forall t d',
    scan_pages n api query (Some l) page total d = Returned t d' ->
    t < l + per_page.
Proof.
  intros Hb. revert page total d.
  induction n as [|n IH]; intros page total d Htotal t d'; [discriminate|].
  cbn [scan_pages limit_reached].
  destruct (Z.leb_spec l total) as [Hreached|Hbelow].
  - intros [= <- <-]. exact Htotal.
  - destruct (api query page) as [| | |tc items] eqn:Hpage;
      try (intros [= <- <-]; exact Htotal).
    destruct items as [|pr items]; [intros [= <- <-]; exact Htotal|].
    pose proof (add_items_count_le (pr :: items) (d, total)) as Hadd.
    pose proof (Hb _ _ _ _ Hpage) as Hsize.
    destruct (add_items (pr :: items) (d, total)) as [d1 total1].
    cbn [snd] in Hadd.
    destruct ((1000 <? tc) && (page =? 10)); [discriminate|].
    destruct ((Z.of_nat (List.length (pr :: items)) <? per_page)
              || (10 <=? page)).
    + intros [= <- <-]. lia.
    + apply IH. lia.
Qed.

(** X4.  The debug limit is checked before each page, not after each item:
    with a limit [l >= 0] and pages of at most [per_page] items, a partition
    that ends without overflow returns fewer than [l + per_page], and with
    limit [0] it returns at once without a request; the count can pass the
    limit, as it does on the 1500 matches with limit 10, where the first page
    brings it to 100. *)
Theorem debug_limit_bounds_partition
    (api : search_api) (query : search_query) (l : Z) (d : prs_dict) :
  pages_bounded api -> 0 <= l ->
  (forall t d',
      scan_pages 10 api query (Some l) 1 0 d = Returned t d' ->
      t < l + per_page)
  /\ scan_pages 10 api query (Some 0) 1 0 d = Returned 0 d
  /\ (exists d',
        fetch_prs_with_time_partition 1 provider_1500 "is:pr author:agent-x"
          range_start range_end [] (Some 10) = Some (100, d')).
Proof.
  intros Hb Hl. split; [|split].
  - intros t d'. apply scan_pages_limit; [exact Hb|unfold per_page; lia].
  - reflexivity.
  - eexists. vm_compute. reflexivity.
Qed.

Lemma synthetic_pages_bounded (tables : string -> list (Z * RawMatch)) :
  pages_bounded (synthetic_provider tables).
Proof.
  intros query page tc items. unfold synthetic_provider.
  set (served := firstn (Z.to_nat per_page) _).
  assert (Hserved : (List.length served <= 100)%nat)
    by (unfold served; rewrite length_firstn; unfold per_page; lia).
  clearbody served. intros [= _ <-]. unfold per_page. lia.
Qed.

Lemma debug_limit_bounds_partition_witness :
  scan_pages 10 provider_1500
    {| q_base := "is:pr author:agent-x"; q_from_day := day_of range_start;
       q_to_day := day_of range_end |} (Some 0) 1 0 [] = Returned 0 []
  /\ (exists d',
        fetch_prs_with_time_partition 1 provider_1500 "is:pr author:agent-x"
          range_start range_end [] (Some 10) = Some (100, d')).
Proof.
  refine (proj2 (debug_limit_bounds_partition provider_1500 _ 10 [] _ _)).
  - apply synthetic_pages_bounded.
  - lia.
Defined.

(** ** PatternMiner: the union of the patterns *)

Lemma taken_ids_nil : taken_ids [] = [].
Proof. reflexivity. Qed.

(** X5.  On a provider none of whose days holds more than 1000 matches of a
    pattern, the pass over a list of patterns returns (with fuel for the
    bisections) and the shared dictionary then holds, besides what it held,
    exactly the ids matched by at least one pattern in the range, each
    once. *)
Theorem pass_collects_union
    (tables : string -> list (Z * RawMatch)) (patterns : list string)
    (n : nat) (s e : datetime) (d : prs_dict) :
  thin tables -> NoDup (dict_keys d) -> e - s <= 2 ^ Z.of_nat n ->
  exists d',
    mine_patterns (S (S n)) (synthetic_provider tables) patterns s e d None
    = Some d'
    /\ collects d d'
         (matches_of_patterns tables patterns (day_of s) (day_of e)).
Proof.
  intros Hthin Hn Hspan. revert d Hn.
  induction patterns as [|p patterns IH]; intros d Hn.
  - exists d. split; [reflexivity|]. split; [exact Hn|].
    intros i. unfold matches_of_patterns. simpl. tauto.
  - destruct (fetch_complete tables Hthin p n s e d Hn Hspan)
      as (c & d1 & Hfetch & Hc1).
    destruct (IH d1 (proj1 Hc1)) as (d' & Hrest & Hc2).
    exists d'. split.
    + cbn [mine_patterns]. rewrite Hfetch. exact Hrest.
    + apply (collects_trans d d1 d' _ _ _ Hc1 Hc2).
      intros i. unfold matches_of_patterns. cbn [flat_map].
      rewrite taken_ids_app, in_app_iff. reflexivity.
Qed.

Lemma pass_collects_union_witness :
  exists d',
    mine_patterns 46
      (synthetic_provider (fun _ => evenly_spread day_2024_01_01 10 1500))
      (query_patterns "agent-x") range_start range_end [] None = Some d'
    /\ collects [] d'
         (matches_of_patterns
            (fun _ => evenly_spread day_2024_01_01 10 1500)
            (query_patterns "agent-x") (day_of range_start)
            (day_of range_end)).
Proof.
  refine (pass_collects_union _ (query_patterns "agent-x") 44 range_start
            range_end [] evenly_spread_thin (NoDup_nil Z) _).
  vm_compute. discriminate.
Defined.

(** ** RateLimitedClient: the retry loop *)

Lemma not_above_sixty (w : f64) :
  SFltb (f64_of_Z 60) w = false -> SFltb (f64_of_Z 1) w = true ->
  SFleb w (f64_of_Z 120) = true.
Proof.
  rewrite f64_one, f64_sixty, f64_hundred_twenty.
  unfold SFltb, SFleb, SFcompare.
  destruct w as [s|s| |s m e]; intros H60 H1.
  - destruct s; discriminate.
  - destruct s; discriminate.
  - discriminate.
  - destruct s; [discriminate|].
    destruct (Z.compare_spec (-47) e) as [Heq|Hlt|Hgt]; [| discriminate |].
    + subst e. reflexivity.
    + destruct (Z.compare_spec e (-46)); try lia; reflexivity.
Qed.

Lemma exception_wait_bounds (uniform delay : f64) :
  between (f64_of_Z 1) (f64_of_Z 60) (exception_wait uniform delay)
  /\ between (f64_of_Z 1) (f64_of_Z 120) (exception_wait uniform delay).
Proof.
  assert (H60 : between (f64_of_Z 1) (f64_of_Z 60)
                  (exception_wait uniform delay)).
  { unfold between, exception_wait.
    apply (clamp_bounds (f64_of_Z 1) (f64_of_Z 60)); reflexivity. }
  split; [exact H60|]. split; [apply H60|].
  unfold exception_wait, py_max, py_min.
  destruct (SFltb (f64_of_Z 60) (f64_add delay uniform)) eqn:E1;
    [reflexivity|].
  destruct (SFltb (f64_of_Z 1) (f64_add delay uniform)) eqn:E2;
    [|reflexivity].
  now apply not_above_sixty.
Qed.

Lemma request_with_backoff_from_outcome (py_float : string -> exc f64)
    (attempts : list attempt) (delay : f64) :
  (List.length (snd (request_with_backoff_from py_float delay attempts))
   <= List.length attempts)%nat
  /\ Forall (between (f64_of_Z 1) (f64_of_Z 120))
       (snd (request_with_backoff_from py_float delay attempts))
  /\ (fst (request_with_backoff_from py_float delay attempts) = None
      <-> forallb retried attempts = true)
  /\ (forall resp,
        fst (request_with_backoff_from py_float delay attempts) = Some resp ->
        retryable (status_code resp) = false
        /\ exists a,
             nth_error attempts
               (List.length
                  (snd (request_with_backoff_from py_float delay attempts)))
             = Some a
             /\ outcome a = Response resp).
Proof.
  revert delay. induction attempts as [|a rest IH]; intros delay.
  - simpl. split; [lia|]. split; [constructor|]. split; [tauto|].
    intros resp. discriminate.
  - cbn [request_with_backoff_from forallb]. unfold retried at 1.
    specialize (IH (next_delay delay)).
    destruct (request_with_backoff_from py_float (next_delay delay) rest)
      as [r waits] eqn:Erest.
    cbn [fst snd] in IH. destruct IH as (Hlen & Hall & Hnone & Hsome).
    destruct (outcome a) as [|resp] eqn:Ea.
    + cbn [fst snd List.length andb]. split; [lia|].
      split; [constructor; [apply exception_wait_bounds|exact Hall]|].
      split; [exact Hnone|].
      intros resp' Hr. destruct (Hsome resp' Hr) as [Hret Hnth].
      split; [exact Hret|]. exact Hnth.
    + destruct ((200 <=? status_code resp) && (status_code resp <? 300))
        eqn:Eok.
      * cbn [fst snd List.length].
        assert (Hnot : retryable (status_code resp) = false).
        { destruct (retryable (status_code resp)) eqn:Er; [|reflexivity].
          rewrite (retryable_not_success _ Er) in Eok. discriminate. }
        rewrite Hnot. cbn [andb].
        split; [lia|]. split; [constructor|].
        split; [split; discriminate|].
        intros resp' [= <-]. split; [exact Hnot|].
        exists a. split; [reflexivity|exact Ea].
      * destruct (retryable (status_code resp)) eqn:Er.
        -- cbn [fst snd List.length andb]. split; [lia|].
           split; [constructor; [apply backoff_wait_bounds|exact Hall]|].
           split; [exact Hnone|].
           intros resp' Hr. destruct (Hsome resp' Hr) as [Hret Hnth].
           split; [exact Hret|]. exact Hnth.
        -- cbn [fst snd List.length andb].
           split; [lia|]. split; [constructor|].
           split; [split; discriminate|].
           intros resp' [= <-]. split; [exact Er|].
           exists a. split; [reflexivity|exact Ea].
Qed.

(** X6.  The retry loop is bounded and never hands back a response it should
    have retried: it sleeps at most once per attempt, every sleep lasts
    between 1 and 120 seconds, the result is [None] exactly when every one of
    the attempts ended in an exception or a 403, 429 or 5xx, and a response
    that is returned is the one of the first attempt that was not retried,
    with a status that is not retryable. *)
Theorem request_with_backoff_outcome
    (py_float : string -> exc f64) (attempts : list attempt) :
  (List.length (snd (request_with_backoff py_float attempts))
   <= List.length attempts)%nat
  /\ Forall (between (f64_of_Z 1) (f64_of_Z 120))
       (snd (request_with_backoff py_float attempts))
  /\ (fst (request_with_backoff py_float attempts) = None
      <-> forallb retried attempts = true)
  /\ (forall resp,
        fst (request_with_backoff py_float attempts) = Some resp ->
        retryable (status_code resp) = false
        /\ exists a,
             nth_error attempts
               (List.length (snd (request_with_backoff py_float attempts)))
             = Some a
             /\ outcome a = Response resp).
Proof. apply request_with_backoff_from_outcome. Qed.

Lemma request_with_backoff_outcome_witness :
  retryable
    (status_code {| status_code := 200; retry_after_header := None;
                    ratelimit_reset_header := None |}) = false.
Proof.
  refine (proj1 (proj2 (proj2 (proj2
            (request_with_backoff_outcome py_float_digits
               [ {| outcome := RequestException; clock := f64_of_Z 1000;
                    jitter := f64_of_Z 0 |};
                 {| outcome := Response resp_retry_after;
                    clock := f64_of_Z 1001; jitter := f64_of_Z 0 |};
                 {| outcome :=
                      Response {| status_code := 200;
                                  retry_after_header := None;
                                  ratelimit_reset_header := None |};
                    clock := f64_of_Z 1008; jitter := f64_of_Z 0 |} ])))
            _ _)).
  vm_compute. reflexivity.
Defined.

(** ** PatternMiner: when the extraction raises *)

Lemma extract_pr_metadata_cases (pr : RawMatch) :
  (raw_pull_request pr = PullRequestNull /\ extract_pr_metadata pr = Raise)
  \/ (raw_pull_request pr <> PullRequestNull
      /\ extract_pr_metadata pr = Ret (extracted pr)).
Proof.
  unfold extract_pr_metadata, extracted, raw_merged_at.
  destruct (raw_pull_request pr); simpl.
  - right. split; [discriminate|reflexivity].
  - left. split; reflexivity.
  - right. split; [discriminate|reflexivity].
Qed.

Lemma mapM_extract (l : list RawMatch) :
  (mapM extract_pr_metadata l = Raise
   /\ exists pr, In pr l /\ raw_pull_request pr = PullRequestNull)
  \/ (mapM extract_pr_metadata l = Ret (map extracted l)
      /\ forall pr, In pr l -> raw_pull_request pr <> PullRequestNull).
Proof.
  induction l as [|pr l IH]; simpl.
  - right. split; [reflexivity|]. intros pr [].
  - destruct (extract_pr_metadata_cases pr) as [[Hnull ->]|[Hok ->]]; simpl.
    + left. split; [reflexivity|]. exists pr. auto.
    + destruct IH as [[-> (pr' & Hin & Hnull)]|[-> Hall]]; simpl.
      * left. split; [reflexivity|]. exists pr'. auto.
      * right. split; [reflexivity|].
        intros pr' [<-|Hin]; [exact Hok|now apply Hall].
Qed.

(** X7.  The records of a pass are the extraction of the dictionary's
    matches, one per id and in the order the ids were first found; but a
    single match whose [pull_request] is [null] makes the whole pass raise,
    and then the identity gets no record at all. *)
Theorem pass_raises_on_null_pull_request
    (fuel : nat) (api : search_api) (debug_mode : bool) (now : datetime)
    (identifier : string) (start_from_date : option datetime)
    (d : prs_dict) :
  mine_patterns fuel api (query_patterns identifier)
    (fetch_window_start now start_from_date) now []
    (if debug_mode then Some 10 else None) = Some d ->
  (fetch_all_prs_metadata fuel api debug_mode now identifier start_from_date
   = Some Raise
   <-> exists pr, In pr (dict_values d)
                  /\ raw_pull_request pr = PullRequestNull)
  /\ (fetch_all_prs_metadata fuel api debug_mode now identifier
        start_from_date <> Some Raise ->
      fetch_all_prs_metadata fuel api debug_mode now identifier
        start_from_date = Some (Ret (map extracted (dict_values d)))).
Proof.
  intros Hmine. unfold fetch_all_prs_metadata. rewrite Hmine.
  destruct (mapM_extract (dict_values d)) as [[-> Hex]|[-> Hall]].
  - split; [split; [intros _; exact Hex|reflexivity]|].
    intros H. now contradiction H.
  - split; [|reflexivity]. split; [discriminate|].
    intros (pr & Hin & Hnull). now apply Hall in Hin.
Qed.

Lemma pass_raises_on_null_pull_request_witness :
  fetch_all_prs_metadata 1
    (fun _ _ => Page 1 [ {| raw_id := Some 5; raw_html_url := None;
                            raw_created_at := None; raw_closed_at := None;
                            raw_pull_request := PullRequestNull |} ])
    false (utc 2024 2 1 0 0 0) "agent-x" None
  = Some Raise.
Proof.
  refine (proj2 (proj1 (pass_raises_on_null_pull_request 1 _ false
                          (utc 2024 2 1 0 0 0) "agent-x" None
                          [(5, {| raw_id := Some 5; raw_html_url := None;
                                  raw_created_at := None;
                                  raw_closed_at := None;
                                  raw_pull_request := PullRequestNull |})]
                          _)) _).
  - reflexivity.
  - eexists. split; [left; reflexivity|reflexivity].
Defined.

(** ** ShardStore: the day groups *)

Section Groups.
Variable fromisoformat : string -> exc datetime.

Lemma group_step_cases (grouped : @dict date_key (list MetadataRecord))
    (r : MetadataRecord) :
  match date_key_of fromisoformat r with
  | Some k =>
      group_step fromisoformat grouped r
      = dict_set date_key_eqb k (group_get k grouped ++ [r])%list grouped
  | None => group_step fromisoformat grouped r = grouped
  end.
Proof.
  unfold date_key_of, parsed_date, group_step, group_get.
  destruct (created_at r) as [s|]; [|reflexivity].
  destruct (truthy (Some s)); simpl; [|reflexivity].
  destruct (parse_created_at fromisoformat s); reflexivity.
Qed.

Lemma date_key_eqb_refl (k : date_key) : date_key_eqb k k = true.
Proof. now apply date_key_eqb_eq. Qed.

Lemma group_fold_inv (l : list MetadataRecord)
    (grouped : @dict date_key (list MetadataRecord)) :
  NoDup (dict_keys grouped) ->
  (forall key, dict_get date_key_eqb key grouped <> Some []) ->
  NoDup (dict_keys (fold_left (group_step fromisoformat) l grouped))
  /\ (forall key,
        dict_get date_key_eqb key
          (fold_left (group_step fromisoformat) l grouped) <> Some [])
  /\ (forall key,
        group_get key (fold_left (group_step fromisoformat) l grouped)
        = (group_get key grouped
           ++ filter (on_day fromisoformat key) l)%list).
Proof.
  revert grouped. induction l as [|r l IH]; intros grouped Hn Hne.
  - simpl. split; [exact Hn|]. split; [exact Hne|].
    intros key. now rewrite app_nil_r.
  - cbn [fold_left filter]. pose proof (group_step_cases grouped r) as Hstep.
    assert (Hon : forall key,
               on_day fromisoformat key r
               = match date_key_of fromisoformat r with
                 | Some k => date_key_eqb k key
                 | None => false
                 end) by reflexivity.
    destruct (date_key_of fromisoformat r) as [k|] eqn:Hk.
    + rewrite Hstep.
      assert (Hn' : NoDup (dict_keys
                             (dict_set date_key_eqb k
                                (group_get k grouped ++ [r])%list grouped)))
        by now apply (dict_set_nodup date_key_eqb date_key_eqb_eq).
      assert (Hne' : forall key,
                 dict_get date_key_eqb key
                   (dict_set date_key_eqb k
                      (group_get k grouped ++ [r])%list grouped)
                 <> Some []).
      { intros key. destruct (date_key_eqb key k) eqn:E.
        - apply date_key_eqb_eq in E. subst key.
          rewrite (dict_get_set_eq date_key_eqb date_key_eqb_eq).
          intros [= H]. now apply app_eq_nil in H.
        - rewrite (dict_get_set_neq date_key_eqb date_key_eqb_eq);
            [apply Hne|].
          intros ->. rewrite date_key_eqb_refl in E. discriminate. }
      destruct (IH _ Hn' Hne') as (H1 & H2 & H3).
      split; [exact H1|]. split; [exact H2|].
      intros key. rewrite H3, Hon. unfold group_get at 1.
      destruct (date_key_eqb k key) eqn:E.
      * apply date_key_eqb_eq in E. subst key.
        rewrite (dict_get_set_eq date_key_eqb date_key_eqb_eq).
        now rewrite <- app_assoc.
      * rewrite (dict_get_set_neq date_key_eqb date_key_eqb_eq);
          [reflexivity|].
        intros ->. rewrite date_key_eqb_refl in E. discriminate.
    + rewrite Hstep. destruct (IH _ Hn Hne) as (H1 & H2 & H3).
      split; [exact H1|]. split; [exact H2|].
      intros key. now rewrite H3, Hon.
Qed.
End Groups.

(** X8.  The day groups partition the dated records: the keys are pairwise
    distinct, the group of a day holds exactly the records created on that
    day, in the order of the list, and a day without record has no group
    (no group is empty). *)
Theorem group_metadata_by_date_partition
    (fromisoformat : string -> exc datetime) (l : list MetadataRecord) :
  NoDup (dict_keys (group_metadata_by_date fromisoformat l))
  /\ (forall key,
        dict_get date_key_eqb key (group_metadata_by_date fromisoformat l)
        = match filter (on_day fromisoformat key) l with
          | [] => None
          | bucket => Some bucket
          end).
Proof.
  unfold group_metadata_by_date.
  destruct (group_fold_inv fromisoformat l []) as (H1 & H2 & H3).
  { constructor. }
  { intros key. discriminate. }
  split; [exact H1|].
  intros key. specialize (H2 key). specialize (H3 key).
  unfold group_get in H3. simpl in H3.
  destruct (dict_get date_key_eqb key
              (fold_left (group_step fromisoformat) l [])) as [bucket|].
  - rewrite <- H3. destruct bucket; [now contradiction H2|reflexivity].
  - now rewrite <- H3.
Qed.

(** ** ShardStore: the shape of the merged shard *)

Section DictShape.
Context {K V : Type} (eqb : K -> K -> bool).
Hypothesis eqb_eq : forall x y, eqb x y = true <-> x = y.

Lemma dict_set_shape_mem (k : K) (v : V) (d o : @dict K V) :
  NoDup (dict_keys d) -> dict_mem eqb k d = true ->
  dict_get eqb k o = None ->
  map (fun kv => (fst kv, match dict_get eqb (fst kv) o with
                          | Some w => w
                          | None => snd kv
                          end)) (dict_set eqb k v d)
  = map (fun kv => (fst kv, match dict_get eqb (fst kv) ((k, v) :: o) with
                            | Some w => w
                            | None => snd kv
                            end)) d.
Proof.
  intros Hn Hmem Ho. induction d as [|[k1 v1] d IH]; [discriminate|].
  inversion Hn as [|? ? Hnotin Hn']; subst.
  cbn [dict_set]. destruct (eqb k k1) eqn:E.
  - apply eqb_eq in E. subst k1. cbn [map fst snd dict_get].
    rewrite (eqb_refl_true eqb eqb_eq), Ho. f_equal.
    apply map_ext_in. intros [k2 v2] Hin. cbn [fst snd dict_get].
    rewrite (eqb_neq_false eqb eqb_eq k2 k); [reflexivity|].
    intros ->. apply Hnotin. apply (in_map fst) in Hin. exact Hin.
  - cbn [map fst snd dict_get].
    assert (Hne : k1 <> k).
    { intros ->. rewrite (eqb_refl_true eqb eqb_eq) in E. discriminate. }
    rewrite (eqb_neq_false eqb eqb_eq k1 k Hne). f_equal.
    apply IH; [exact Hn'|].
    unfold dict_mem in *. cbn [dict_get] in Hmem. now rewrite E in Hmem.
Qed.

Lemma dict_mem_set (k k' : K) (v : V) (d : @dict K V) :
  dict_mem eqb k' (dict_set eqb k v d) = dict_mem eqb k' d || eqb k' k.
Proof.
  unfold dict_mem. destruct (eqb k' k) eqn:E.
  - apply eqb_eq in E. subst k'. rewrite (dict_get_set_eq eqb eqb_eq).
    now rewrite orb_true_r.
  - rewrite (dict_get_set_neq eqb eqb_eq).
    + now rewrite orb_false_r.
    + intros ->. rewrite (eqb_refl_true eqb eqb_eq) in E. discriminate.
Qed.

(** [d.update(o)] entry by entry. *)
Lemma dict_update_shape (d o : @dict K V) :
  NoDup (dict_keys d) -> NoDup (dict_keys o) ->
  dict_update eqb d o
  = (map (fun kv => (fst kv, match dict_get eqb (fst kv) o with
                             | Some w => w
                             | None => snd kv
                             end)) d
     ++ filter (fun kv => negb (dict_mem eqb (fst kv) d)) o)%list.
Proof.
  unfold dict_update. revert d.
  induction o as [|[k v] o IH]; intros d Hd Ho.
  - simpl. rewrite app_nil_r. symmetry. rewrite <- (map_id d) at 2.
    apply map_ext. now intros [k v].
  - cbn [fold_left fst snd]. inversion Ho as [|? ? Hnotin Ho']; subst.
    assert (Hko : dict_get eqb k o = None)
      by now apply (dict_get_None eqb eqb_eq).
    rewrite IH by (try apply (dict_set_nodup eqb eqb_eq); assumption).
    assert (Hfilter : forall base : @dict K V,
               (forall k', In k' (dict_keys o) ->
                           dict_mem eqb k' base = dict_mem eqb k' d) ->
               filter (fun kv => negb (dict_mem eqb (fst kv) base)) o
               = filter (fun kv => negb (dict_mem eqb (fst kv) d)) o).
    { intros base Hbase. apply filter_ext_in. intros [k' v'] Hin.
      cbn [fst]. rewrite Hbase; [reflexivity|].
      apply (in_map fst) in Hin. exact Hin. }
    rewrite Hfilter.
    2:{ intros k' Hk'. rewrite dict_mem_set.
        rewrite (eqb_neq_false eqb eqb_eq k' k); [apply orb_false_r|].
        intros ->. contradiction. }
    cbn [filter fst]. destruct (dict_mem eqb k d) eqn:Hmem; cbn [negb].
    + now rewrite (dict_set_shape_mem k v d o Hd Hmem Hko).
    + rewrite (dict_set_fresh eqb k v d Hmem), map_app. cbn [map fst snd].
      rewrite Hko, <- app_assoc. cbn [app]. f_equal.
      apply map_ext_in. intros [k1 v1] Hin. cbn [fst snd dict_get].
      rewrite (eqb_neq_false eqb eqb_eq k1 k); [reflexivity|].
      intros ->. apply (in_map fst) in Hin.
      apply (dict_mem_In eqb eqb_eq) in Hin. cbn [fst] in Hin. congruence.
Qed.
End DictShape.

Lemma merge_metadata_upserted (existing new : list MetadataRecord) :
  shard_wf existing -> merge_metadata existing new = upserted existing new.
Proof.
  intros Hwf. unfold merge_metadata, upserted, dict_values.
  destruct (by_url_inv existing) as [Hke Hne].
  destruct (by_url_inv new) as [Hkn Hnn].
  rewrite (dict_update_shape String.eqb String.eqb_eq) by assumption.
  rewrite map_app. f_equal.
  - rewrite (by_url_wf existing Hwf), !map_map. apply map_ext.
    intros r. cbn [fst snd]. unfold lookup_url.
    now destruct (dict_get String.eqb (url_of r) (by_url new)).
  - induction (by_url new) as [|[k r] d IH]; [reflexivity|].
    assert (Hk : url_of r = k).
    { destruct (Hkn k r (or_introl eq_refl)) as [Hu _].
      unfold url_of. now rewrite Hu. }
    cbn [filter map fst snd]. rewrite Hk.
    assert (IH' : map snd
                    (filter (fun kv => negb (dict_mem String.eqb (fst kv)
                                               (by_url existing))) d)
                  = filter (fun r0 => negb (dict_mem String.eqb (url_of r0)
                                              (by_url existing)))
                      (map snd d)).
    { apply IH.
      - intros k' r' Hin. apply Hkn. now right.
      - now inversion Hnn. }
    destruct (dict_mem String.eqb k (by_url existing)); cbn [negb map snd];
      now rewrite IH'.
Qed.

(** X9.  An upsert keeps the shard in order: every existing record stays in
    its place, replaced in place when a new record has its url, and the
    records with new urls are appended.  So an upsert of nothing leaves the
    shard as it is, and upserting the same records a second time changes
    nothing. *)
Theorem merge_metadata_shape (existing new : list MetadataRecord) :
  shard_wf existing ->
  merge_metadata existing new = upserted existing new
  /\ merge_metadata existing [] = existing
  /\ merge_metadata (merge_metadata existing new) new
     = merge_metadata existing new.
Proof.
  intros Hwf. split; [now apply merge_metadata_upserted|].
  assert (Hid : forall l, shard_wf l -> merge_metadata l [] = l).
  { intros l Hl. rewrite merge_metadata_upserted by exact Hl.
    unfold upserted. simpl. rewrite app_nil_r. apply map_id. }
  split; [now apply Hid|].
  pose proof (merge_metadata_wf existing new) as Hm.
  set (merged := merge_metadata existing new) in *.
  rewrite (merge_metadata_upserted merged new Hm). unfold upserted.
  assert (Hlook : forall r, In r merged ->
                            lookup_url (url_of r) merged = Some r).
  { intros r Hin. unfold lookup_url. rewrite by_url_wf by exact Hm.
    apply (dict_get_nodup String.eqb String.eqb_eq).
    - unfold dict_keys. rewrite map_map. simpl. now apply shard_wf_url_of.
    - apply in_map_iff. now exists r. }
  replace (filter _ (dict_values (by_url new))) with (@nil MetadataRecord).
  - rewrite app_nil_r. rewrite <- (map_id merged) at 2.
    apply map_ext_in. intros r Hin.
    pose proof (merge_metadata_lookup existing new (url_of r)) as Hl.
    fold merged in Hl. rewrite (Hlook r Hin) in Hl.
    destruct (lookup_url (url_of r) new) as [r'|]; [|reflexivity].
    now injection Hl.
  - symmetry.
    assert (Hgone : forall l : list MetadataRecord,
               (forall r, In r l ->
                          dict_mem String.eqb (url_of r) (by_url merged)
                          = true) ->
               filter (fun r => negb (dict_mem String.eqb (url_of r)
                                        (by_url merged))) l = []).
    { induction l as [|r l IH]; intros Hall; [reflexivity|].
      cbn [filter]. rewrite (Hall r) by now left. cbn [negb].
      apply IH. intros r' Hr'. apply Hall. now right. }
    apply Hgone. intros r Hin.
    destruct (by_url_inv new) as [Hkn Hnn].
    unfold dict_values in Hin. apply in_map_iff in Hin.
    destruct Hin as ([k r'] & Heq & Hin). cbn [snd] in Heq. subst r'.
    assert (Hk : url_of r = k).
    { destruct (Hkn k r Hin) as [Hu _]. unfold url_of. now rewrite Hu. }
    pose proof (merge_metadata_lookup existing new k) as Hl.
    fold merged in Hl. unfold lookup_url in Hl.
    rewrite (dict_get_nodup String.eqb String.eqb_eq k r (by_url new) Hnn Hin)
      in Hl.
    unfold dict_mem. rewrite Hk, Hl. reflexivity.
Qed.

Lemma merge_metadata_shape_witness :
  merge_metadata agent_x_records [] = agent_x_records.
Proof.
  refine (proj1 (proj2 (merge_metadata_shape agent_x_records [] _))).
  split.
  - repeat constructor; simpl; intuition discriminate.
  - intros r [<-|[<-|[<-|[]]]]; reflexivity.
Defined.

(** ** ShardStore: what a save touches *)

Lemma save_day_effect (agent : string) (h h' : hub) (key : date_key)
    (day_metadata : list MetadataRecord) :
  save_day agent h key day_metadata = Ret h' ->
  hub_upload_fails h (shard_filename agent key) = false
  /\ hub_files h'
     = dict_set String.eqb (shard_filename agent key)
         (save_jsonl
            (merge_metadata
               match hf_hub_download h (shard_filename agent key) with
               | Ret file => load_jsonl file
               | Raise => []
               end day_metadata)) (hub_files h)
  /\ hub_list_fails h' = hub_list_fails h
  /\ hub_download_fails h' = hub_download_fails h
  /\ hub_upload_fails h' = hub_upload_fails h.
Proof.
  unfold save_day, upload_file.
  destruct (hub_upload_fails h (shard_filename agent key)); [discriminate|].
  intros [= <-]. simpl. auto.
Qed.

Lemma save_days_frame (agent : string)
    (grouped : list (date_key * list MetadataRecord)) (h : hub) (f : string) :
  (forall key, In key (map fst grouped) -> f <> shard_filename agent key) ->
  dict_get String.eqb f (hub_files (snd (save_days agent grouped h)))
  = dict_get String.eqb f (hub_files h).
Proof.
  revert h. induction grouped as [|[key day] grouped IH]; intros h Hf;
    [reflexivity|].
  cbn [save_days].
  destruct (save_day agent h key day) as [h'|] eqn:E; [|reflexivity].
  rewrite IH by (intros k Hk; apply Hf; now right).
  destruct (save_day_effect _ _ _ _ _ E) as (_ & -> & _).
  apply (dict_get_set_neq String.eqb String.eqb_eq).
  apply Hf. now left.
Qed.

(** X10.  A save touches nothing but the day shards of its records: in
    debug mode, and in production mode without a token, the repository is
    left as it was; otherwise every file whose path is not the shard of one
    of the day groups keeps its content.  The debug cache is written in debug
    mode only, and there only the entry of the identity. *)
Theorem save_touches_only_day_shards
    (fromisoformat : string -> exc datetime) (debug_mode hf_token : bool)
    (metadata_list : list MetadataRecord) (agent : string) (w : world) :
  (debug_mode = true \/ hf_token = false ->
   w_hub (snd (save_pr_metadata_to_hf fromisoformat debug_mode hf_token
                 metadata_list agent w)) = w_hub w)
  /\ (forall f,
        (forall key,
            In key (dict_keys
                      (group_metadata_by_date fromisoformat metadata_list)) ->
            f <> shard_filename agent key) ->
        dict_get String.eqb f
          (hub_files
             (w_hub (snd (save_pr_metadata_to_hf fromisoformat debug_mode
                            hf_token metadata_list agent w))))
        = dict_get String.eqb f (hub_files (w_hub w)))
  /\ (debug_mode = false ->
      w_debug_cache (snd (save_pr_metadata_to_hf fromisoformat debug_mode
                            hf_token metadata_list agent w))
      = w_debug_cache w)
  /\ (forall other, other <> agent ->
        dict_get String.eqb other
          (w_debug_cache (snd (save_pr_metadata_to_hf fromisoformat
                                 debug_mode hf_token metadata_list agent w)))
        = dict_get String.eqb other (w_debug_cache w)).
Proof.
  unfold save_pr_metadata_to_hf.
  destruct debug_mode; [|destruct hf_token]; cbn [negb].
  - cbn [snd w_hub w_debug_cache]. split; [reflexivity|].
    split; [reflexivity|]. split; [discriminate|].
    intros other Hne.
    now apply (dict_get_set_neq String.eqb String.eqb_eq).
  - pose proof (save_days_frame agent
                  (group_metadata_by_date fromisoformat metadata_list)
                  (w_hub w)) as Hframe.
    destruct (save_days agent
                (group_metadata_by_date fromisoformat metadata_list)
                (w_hub w)) as [ok h'].
    cbn [snd w_hub w_debug_cache] in *.
    split; [intros [H|H]; discriminate|].
    split; [exact Hframe|]. split; reflexivity.
  - cbn [snd]. split; [reflexivity|]. split; [reflexivity|].
    split; reflexivity.
Qed.

Lemma save_touches_only_day_shards_witness :
  w_hub (snd (save_pr_metadata_to_hf fromisoformat_utc true true
                agent_x_records "agent-x" empty_world))
  = w_hub empty_world.
Proof.
  refine (proj1 (save_touches_only_day_shards fromisoformat_utc true true
                   agent_x_records "agent-x" empty_world) _).
  left. reflexivity.
Defined.

Lemma save_days_flags (agent : string)
    (grouped : list (date_key * list MetadataRecord)) (h : hub) :
  hub_upload_fails (snd (save_days agent grouped h)) = hub_upload_fails h.
Proof.
  revert h. induction grouped as [|[key day] grouped IH]; intros h;
    [reflexivity|].
  cbn [save_days].
  destruct (save_day agent h key day) as [h'|] eqn:E; [|reflexivity].
  rewrite IH. now destruct (save_day_effect _ _ _ _ _ E) as (_ & _ & _ & _ & ->).
Qed.

Lemma save_days_app (agent : string)
    (g1 g2 : list (date_key * list MetadataRecord)) (h : hub) :
  save_days agent (g1 ++ g2) h
  = if fst (save_days agent g1 h)
    then save_days agent g2 (snd (save_days agent g1 h))
    else save_days agent g1 h.
Proof.
  revert h. induction g1 as [|[key day] g1 IH]; intros h; [reflexivity|].
  cbn [save_days app].
  destruct (save_day agent h key day) as [h'|]; [apply IH|reflexivity].
Qed.

Lemma save_days_ok (agent : string)
    (grouped : list (date_key * list MetadataRecord)) (h : hub) :
  fst (save_days agent grouped h)
  = forallb (fun g => negb (hub_upload_fails h (shard_filename agent (fst g))))
      grouped.
Proof.
  revert h. induction grouped as [|[key day] grouped IH]; intros h;
    [reflexivity|].
  cbn [save_days forallb fst].
  destruct (save_day agent h key day) as [h'|] eqn:E.
  - destruct (save_day_effect _ _ _ _ _ E) as (Hok & _ & _ & _ & Hflags).
    rewrite Hok, IH, Hflags. reflexivity.
  - unfold save_day, upload_file in E.
    destruct (hub_upload_fails h (shard_filename agent key));
      [reflexivity|discriminate].
Qed.



(** X12.  What a shard holds after its upsert: when the save of a day
    returns, downloading and loading the shard gives the merge of what could
    be read before with the records of the day.  What could be read is
    nothing when the download failed, so after a failed download of an
    existing shard the shard holds the new records only. *)
Theorem save_day_then_load
    (agent : string) (h h' : hub) (key : date_key)
    (day_metadata : list MetadataRecord) :
  save_day agent h key day_metadata = Ret h' ->
  hub_download_fails h (shard_filename agent key) = false ->
  (exists file,
      hf_hub_download h' (shard_filename agent key) = Ret file
      /\ load_jsonl file
         = merge_metadata
             match dict_get String.eqb (shard_filename agent key)
                     (hub_files h) with
             | Some old => load_jsonl old
             | None => []
             end day_metadata)
  /\ (forall h0 h0',
        hub_download_fails h0 (shard_filename agent key) = true ->
        save_day agent h0 key day_metadata = Ret h0' ->
        dict_get String.eqb (shard_filename agent key) (hub_files h0')
        = Some (save_jsonl (merge_metadata [] day_metadata))).
Proof.
  intros Hsave Hdl.
  assert (Hload : forall l, load_jsonl (save_jsonl l) = l).
  { induction l as [|r l IH]; [reflexivity|]. simpl. now rewrite IH. }
  split.
  - destruct (save_day_effect _ _ _ _ _ Hsave) as (_ & Hfiles & _ & Hd & _).
    unfold hf_hub_download in *. rewrite Hd, Hdl, Hfiles.
    rewrite (dict_get_set_eq String.eqb String.eqb_eq).
    eexists. split; [reflexivity|]. rewrite Hload, Hdl.
    now destruct (dict_get String.eqb (shard_filename agent key)
                    (hub_files h)).
  - intros h0 h0' Hfail Hsave0.
    destruct (save_day_effect _ _ _ _ _ Hsave0) as (_ & Hfiles & _).
    rewrite Hfiles. unfold hf_hub_download. rewrite Hfail.
    apply (dict_get_set_eq String.eqb String.eqb_eq).
Qed.

Lemma save_day_then_load_witness :
  exists file,
    hf_hub_download
      {| hub_files :=
           [("agent-x/2024.01.01.jsonl", save_jsonl (merge_metadata [] agent_x_records))];
         hub_list_fails := false;
         hub_download_fails := fun _ => false;
         hub_upload_fails := fun _ => false |}
      (shard_filename "agent-x" (2024, 1, 1)) = Ret file
    /\ load_jsonl file = merge_metadata [] agent_x_records.
Proof.
  refine (proj1 (save_day_then_load "agent-x" (w_hub empty_world) _
                   (2024, 1, 1) agent_x_records _ _)).
  - reflexivity.
  - reflexivity.
Defined.

(** ** SyncPlanner: the watermark is the latest date *)

(** X13.  The watermark, when there is one, is the creation date of a record
    that was read, and no record that was read and dated is later; there is
    none exactly when the listing failed or no record could be read and
    dated. *)
Theorem watermark_is_latest_date
    (fromisoformat : string -> exc datetime) (h : hub) (agent : string) :
  (forall m,
      get_latest_pr_date_for_agent fromisoformat h agent = Ret (Some m) ->
      hub_list_fails h = false
      /\ In m (agent_dates fromisoformat h agent)
      /\ forall x, In x (agent_dates fromisoformat h agent) -> x <= m)
  /\ (get_latest_pr_date_for_agent fromisoformat h agent = Ret None
      <-> hub_list_fails h = true
          \/ agent_dates fromisoformat h agent = []).
Proof.
  rewrite get_latest_pr_date_spec. unfold watermark_spec.
  fold (agent_dates fromisoformat h agent).
  pose proof (max_date_spec (agent_dates fromisoformat h agent)) as Hmax.
  destruct (hub_list_fails h).
  - split; [intros m; discriminate|]. split; auto.
  - destruct (max_date (agent_dates fromisoformat h agent)) as [m|].
    + split.
      * intros m' [= <-]. destruct Hmax as [Hin Hle]. auto.
      * split; [discriminate|]. intros [H|H]; [discriminate|].
        destruct Hmax as [Hin _]. rewrite H in Hin. destruct Hin.
    + split; [intros m; discriminate|]. split; auto.
Qed.

Lemma watermark_is_latest_date_witness :
  In (utc 2024 1 2 0 0 0) (agent_dates fromisoformat_utc failing_hub "agent-x").
Proof.
  refine (proj1 (proj2 (proj1 (watermark_is_latest_date fromisoformat_utc
                                 failing_hub "agent-x")
                          (utc 2024 1 2 0 0 0) _))).
  vm_compute. reflexivity.
Defined.

(** ** StatsAggregator: order and bounds *)

Lemma count_if_perm {A : Type} (p : A -> bool) (l l' : list A) :
  Permutation l l' -> count_if p l = count_if p l'.
Proof.
  intros H. unfold count_if. f_equal.
  induction H as [|x l l' H IH|x y l|l l' l'' H1 IH1 H2 IH2]; simpl.
  - reflexivity.
  - destruct (p x); simpl; now rewrite IH.
  - destruct (p x), (p y); reflexivity.
  - now rewrite IH1.
Qed.

Lemma count_if_le_length {A : Type} (p : A -> bool) (l : list A) :
  count_if p l <= Z.of_nat (List.length l).
Proof.
  unfold count_if. pose proof (filter_length_le p l). lia.
Qed.

Lemma count_if_zero {A : Type} (p : A -> bool) (l : list A) :
  count_if p l = 0 <-> forall a, In a l -> p a = false.
Proof.
  split; [|apply count_if_none].
  unfold count_if. induction l as [|x l IH]; simpl; [intros _ a []|].
  destruct (p x) eqn:E; simpl.
  - lia.
  - intros H a [<-|Hin]; [exact E|now apply IH].
Qed.

(** X14.  The statistics do not depend on the order of the records; the
    merged count lies between 0 and the total; and the rate is the integer 0
    exactly when no record is merged or closed (otherwise it is a float). *)
Theorem calculate_pr_stats_order_and_bounds (l l' : list MetadataRecord) :
  Permutation l l' ->
  calculate_pr_stats_from_metadata l = calculate_pr_stats_from_metadata l'
  /\ 0 <= merged (calculate_pr_stats_from_metadata l)
          <= total_prs (calculate_pr_stats_from_metadata l)
  /\ (acceptance_rate (calculate_pr_stats_from_metadata l) = PyInt 0
      <-> forall r, In r l -> decided r = false).
Proof.
  intros Hperm. split; [|split].
  - unfold calculate_pr_stats_from_metadata.
    rewrite (Permutation_length Hperm).
    rewrite (count_if_perm _ l l' Hperm).
    rewrite (count_if_perm (fun pr_meta => truthy (closed_at pr_meta)
                                           && negb (truthy (merged_at pr_meta)))
               l l' Hperm).
    reflexivity.
  - cbn [calculate_pr_stats_from_metadata merged total_prs].
    split; [apply count_if_nonneg|apply count_if_le_length].
  - unfold calculate_pr_stats_from_metadata. cbn [acceptance_rate].
    set (m := count_if (fun pr_meta => truthy (merged_at pr_meta)) l).
    set (c := count_if (fun pr_meta => truthy (closed_at pr_meta)
                                       && negb (truthy (merged_at pr_meta)))
                l).
    pose proof (count_if_nonneg (fun pr_meta => truthy (merged_at pr_meta)) l)
      as Hm.
    pose proof (count_if_nonneg
                  (fun pr_meta => truthy (closed_at pr_meta)
                                  && negb (truthy (merged_at pr_meta))) l)
      as Hc.
    fold m in Hm. fold c in Hc.
    assert (Hzero : m + c = 0 <-> forall r, In r l -> decided r = false).
    { split.
      - intros H r Hr.
        assert (Hm0 : m = 0) by lia. assert (Hc0 : c = 0) by lia.
        pose proof (proj1 (count_if_zero _ l) Hm0 r Hr) as H1.
        pose proof (proj1 (count_if_zero _ l) Hc0 r Hr) as H2.
        cbv beta in H1, H2. unfold decided. rewrite H1 in *.
        simpl in *. now rewrite andb_true_r in H2.
      - intros H.
        assert (Hm0 : m = 0).
        { apply count_if_zero. intros r Hr. specialize (H r Hr).
          unfold decided in H. now apply orb_false_iff in H. }
        assert (Hc0 : c = 0).
        { apply count_if_zero. intros r Hr. specialize (H r Hr).
          unfold decided in H. apply orb_false_iff in H.
          destruct H as [_ ->]. reflexivity. }
        lia. }
    destruct (Z.ltb_spec 0 (m + c)) as [Hpos|Hnon]; cbn [py_round2].
    + split; [discriminate|]. intros H. apply Hzero in H. lia.
    + split; [intros _|reflexivity]. apply Hzero. lia.
Qed.

Lemma calculate_pr_stats_order_and_bounds_witness :
  calculate_pr_stats_from_metadata agent_x_records
  = calculate_pr_stats_from_metadata (rev agent_x_records).
Proof.
  refine (proj1 (calculate_pr_stats_order_and_bounds agent_x_records
                   (rev agent_x_records) _)).
  apply Permutation_rev.
Defined.

(** ** Leaderboard rows: list and dictionary *)

Lemma cache_fold_fresh (l : list leaderboard_entry)
    (d : @dict string leaderboard_entry) :
  NoDup (dict_keys d ++ map le_github_identifier l) ->
  fold_left
    (fun d entry => dict_set String.eqb (le_github_identifier entry) entry d)
    l d
  = (d ++ map (fun entry => (le_github_identifier entry, entry)) l)%list.
Proof.
  revert d. induction l as [|x l IH]; intros d Hn.
  - simpl. now rewrite app_nil_r.
  - cbn [fold_left map].
    assert (Hfresh : dict_mem String.eqb (le_github_identifier x) d = false).
    { destruct (dict_mem String.eqb (le_github_identifier x) d) eqn:E;
        [|reflexivity].
      apply (dict_mem_In String.eqb String.eqb_eq) in E.
      exfalso. apply (NoDup_app_disjoint _ _ _ Hn E). now left. }
    rewrite dict_set_fresh by exact Hfresh. rewrite IH.
    + now rewrite <- app_assoc.
    + unfold dict_keys in *. rewrite map_app. cbn [map fst].
      now rewrite <- app_assoc.
Qed.

Lemma cache_fold_get (l : list leaderboard_entry)
    (d : @dict string leaderboard_entry) (id : string) :
  dict_get String.eqb id
    (fold_left
       (fun d entry => dict_set String.eqb (le_github_identifier entry) entry d)
       l d)
  = match find (fun entry => String.eqb id (le_github_identifier entry))
            (rev l) with
    | Some entry => Some entry
    | None => dict_get String.eqb id d
    end.
Proof.
  revert d. induction l as [|x l IH] using rev_ind; intros d; [reflexivity|].
  rewrite fold_left_app, rev_app_distr. cbn [fold_left rev app find].
  destruct (String.eqb id (le_github_identifier x)) eqn:E.
  - apply String.eqb_eq in E. subst id.
    apply (dict_get_set_eq String.eqb String.eqb_eq).
  - rewrite (dict_get_set_neq String.eqb String.eqb_eq); [apply IH|].
    intros ->. rewrite String.eqb_refl in E. discriminate.
Qed.

(** X15.  List and dictionary of leaderboard rows: the dictionary holds
    under each identifier the last row of the list with that identifier;
    when the identifiers of the list are pairwise distinct, going to the
    dictionary and back gives the list again, in order; and a dictionary of
    rows keyed by their own identifiers is rebuilt from its list of
    values. *)
Theorem cache_dict_round_trip (cache_list : list leaderboard_entry) :
  (forall id,
      dict_get String.eqb id (cache_to_dict cache_list)
      = find (fun entry => String.eqb id (le_github_identifier entry))
          (rev cache_list))
  /\ (NoDup (map le_github_identifier cache_list) ->
      dict_to_cache (cache_to_dict cache_list) = cache_list)
  /\ (forall d : @dict string leaderboard_entry,
        NoDup (dict_keys d) ->
        (forall k entry, In (k, entry) d -> le_github_identifier entry = k) ->
        cache_to_dict (dict_to_cache d) = d).
Proof.
  split; [|split].
  - intros id. unfold cache_to_dict. rewrite cache_fold_get.
    now destruct (find _ (rev cache_list)).
  - intros Hn. unfold cache_to_dict, dict_to_cache, dict_values.
    rewrite cache_fold_fresh by exact Hn. simpl.
    rewrite map_map. simpl. apply map_id.
  - intros d Hn Hkeyed. unfold cache_to_dict, dict_to_cache, dict_values.
    assert (Hkeys : map le_github_identifier (map snd d) = dict_keys d).
    { unfold dict_keys. rewrite map_map. apply map_ext_in.
      intros [k entry] Hin. simpl. now apply Hkeyed. }
    rewrite cache_fold_fresh by (simpl; now rewrite Hkeys).
    simpl. rewrite map_map. rewrite <- (map_id d) at 2.
    apply map_ext_in. intros [k entry] Hin. simpl.
    now rewrite (Hkeyed k entry Hin).
Qed.

Lemma cache_dict_round_trip_witness :
  dict_to_cache
    (cache_to_dict
       [ {| le_agent_name := "Agent X"; le_organization := "Unknown";
            le_github_identifier := "agent-x";
            le_stats := calculate_pr_stats_from_metadata agent_x_records |} ])
  = [ {| le_agent_name := "Agent X"; le_organization := "Unknown";
         le_github_identifier := "agent-x";
         le_stats := calculate_pr_stats_from_metadata agent_x_records |} ].
Proof.
  refine (proj1 (proj2 (cache_dict_round_trip _)) _).
  repeat constructor. intros [].
Defined.

(** ** Store paths: writer and readers agree *)

Lemma str_length_app (s t : string) :
  String.length (s ++ t) = (String.length s + String.length t)%nat.
Proof. induction s as [|a s IH]; simpl; [reflexivity | now rewrite IH]. Qed.

Lemma str_app_assoc (s t u : string) : ((s ++ t) ++ u = s ++ (t ++ u))%string.
Proof. induction s as [|a s IH]; simpl; [reflexivity | now rewrite IH]. Qed.

Lemma substring_whole (t : string) : substring 0 (String.length t) t = t.
Proof. induction t as [|a t IH]; simpl; [reflexivity | now rewrite IH]. Qed.

Lemma substring_app_suffix (s t : string) :
  substring (String.length s) (String.length t) (s ++ t) = t.
Proof.
  induction s as [|a s IH]; simpl; [apply substring_whole | exact IH].
Qed.

Lemma endswith_app (s t : string) : endswith (s ++ t) t = true.
Proof.
  unfold endswith. rewrite str_length_app.
  replace (String.length s + String.length t - String.length t)%nat
    with (String.length s) by lia.
  rewrite substring_app_suffix, String.eqb_refl, andb_true_r.
  apply Nat.leb_le. lia.
Qed.

Lemma has_char_app (c : ascii) (s t : string) :
  has_char c (s ++ t) = has_char c s || has_char c t.
Proof.
  induction s as [|a s IH]; simpl; [reflexivity|].
  now rewrite IH, orb_assoc.
Qed.

Lemma split_on_none (c : ascii) (t : string) :
  has_char c t = false -> split_on c t = [t].
Proof.
  induction t as [|a t IH]; simpl; [reflexivity|].
  intros H. apply orb_false_iff in H as [Ha Ht].
  now rewrite Ha, (IH Ht).
Qed.

Lemma split_on_sep (c : ascii) (s t : string) :
  has_char c s = false ->
  split_on c (s ++ String c t) = s :: split_on c t.
Proof.
  induction s as [|a s IH]; simpl.
  - intros _. now rewrite Ascii.eqb_refl.
  - intros H. apply orb_false_iff in H as [Ha Hs].
    now rewrite Ha, (IH Hs).
Qed.

Lemma prefix_sep (c : ascii) (s1 s2 r : string) :
  has_char c s1 = false -> has_char c s2 = false ->
  String.prefix (s1 ++ String c EmptyString) (s2 ++ String c r)
  = String.eqb s1 s2.
Proof.
  revert s2. induction s1 as [|a s1 IH]; intros [|b s2]; simpl.
  - intros _ _. destruct (ascii_dec c c); [now destruct r | congruence].
  - intros _ H. apply orb_false_iff in H as [Hb _].
    destruct (ascii_dec c b) as [->|]; [|reflexivity].
    now rewrite Ascii.eqb_refl in Hb.
  - intros H _. apply orb_false_iff in H as [Ha _].
    destruct (ascii_dec a c) as [->|]; [|reflexivity].
    now rewrite Ascii.eqb_refl in Ha.
  - intros H1 H2. apply orb_false_iff in H1 as [_ H1].
    apply orb_false_iff in H2 as [_ H2].
    destruct (ascii_dec a b) as [->|Hab].
    + now rewrite Ascii.eqb_refl, (IH s2 H1 H2).
    + apply Ascii.eqb_neq in Hab. now rewrite Hab.
Qed.

Lemma string_of_uint_plain (c : ascii) (d : Decimal.uint) :
  c = "/"%char \/ c = "."%char ->
  has_char c (NilEmpty.string_of_uint d) = false.
Proof.
  intros Hc. induction d; simpl; try rewrite IHd;
    destruct Hc as [-> | ->]; reflexivity.
Qed.

Lemma string_of_Z_plain (c : ascii) (z : Z) :
  c = "/"%char \/ c = "."%char -> has_char c (string_of_Z z) = false.
Proof.
  intros Hc. unfold string_of_Z.
  assert (Hu : forall d, has_char c (NilZero.string_of_uint d) = false).
  { intros d. destruct d; try apply (string_of_uint_plain c _ Hc).
    destruct Hc as [-> | ->]; reflexivity. }
  destruct (Z.to_int z) as [d|d]; simpl; [apply Hu|].
  rewrite Hu. destruct Hc as [-> | ->]; reflexivity.
Qed.

Lemma string_of_Z_inj (x y : Z) : string_of_Z x = string_of_Z y -> x = y.
Proof.
  unfold string_of_Z. intros H.
  assert (Hnn : forall z, Z.to_int z <> Decimal.Pos Decimal.Nil
                          /\ Z.to_int z <> Decimal.Neg Decimal.Nil).
  { intros [|p|p]; simpl; split; try discriminate;
      intros [= Hp]; now apply (DecimalPos.Unsigned.to_uint_nonnil p). }
  apply DecimalZ.to_int_inj.
  assert (Hs : Some (Z.to_int x) = Some (Z.to_int y)).
  { rewrite <- (NilZero.isi (Z.to_int x)) by apply Hnn.
    rewrite <- (NilZero.isi (Z.to_int y)) by apply Hnn.
    now rewrite H. }
  now injection Hs.
Qed.

Lemma pad2_plain (c : ascii) (n : Z) :
  c = "/"%char \/ c = "."%char -> has_char c (pad2 n) = false.
Proof.
  intros Hc. unfold pad2. destruct (n <? 10).
  - simpl. rewrite (string_of_Z_plain c n Hc).
    destruct Hc as [-> | ->]; reflexivity.
  - apply string_of_Z_plain, Hc.
Qed.

Lemma shard_filename_parts (a : string) (y m d : Z) :
  shard_filename a (y, m, d)
  = (a ++ String "/"
            (string_of_Z y
               ++ String "." (pad2 m ++ "." ++ pad2 d ++ ".jsonl")))%string.
Proof. reflexivity. Qed.

Lemma local_filename_plain (y m d : Z) :
  has_char "/"
    (string_of_Z y ++ String "." (pad2 m ++ "." ++ pad2 d ++ ".jsonl"))
  = false.
Proof.
  rewrite has_char_app, (string_of_Z_plain "/" y) by now left.
  cbn [has_char orb]. change (Ascii.eqb "." "/") with false. cbn [orb].
  rewrite has_char_app, (pad2_plain "/" m) by now left.
  cbn [orb]. change ("." ++ pad2 d ++ ".jsonl")%string
    with (String "." (pad2 d ++ ".jsonl")).
  cbn [has_char]. change (Ascii.eqb "." "/") with false. cbn [orb].
  rewrite has_char_app, (pad2_plain "/" d) by now left.
  reflexivity.
Qed.

Lemma shard_filename_split (a : string) (y m d : Z) :
  has_char "/" a = false ->
  split_on "/" (shard_filename a (y, m, d))
  = [a; (string_of_Z y
           ++ String "." (pad2 m ++ "." ++ pad2 d ++ ".jsonl"))%string].
Proof.
  intros Ha. rewrite shard_filename_parts, (split_on_sep _ _ _ Ha).
  now rewrite (split_on_none _ _ (local_filename_plain y m d)).
Qed.

Lemma shard_filename_jsonl (a : string) (key : date_key) :
  endswith (shard_filename a key) ".jsonl" = true.
Proof.
  destruct key as [[y m] d]. unfold shard_filename.
  rewrite <- !str_app_assoc. apply endswith_app.
Qed.

Lemma year_file_shard (a : string) (y m d year : Z) :
  has_char "/" a = false ->
  year_file year (shard_filename a (y, m, d)) = (y =? year).
Proof.
  intros Ha. unfold year_file.
  rewrite shard_filename_jsonl, (shard_filename_split a y m d Ha).
  cbn [List.length Nat.eqb nth]. unfold startswith.
  change (string_of_Z year ++ ".")%string
    with (string_of_Z year ++ String "." EmptyString)%string.
  rewrite prefix_sep by (apply string_of_Z_plain; now right).
  destruct (String.eqb_spec (string_of_Z year) (string_of_Z y)) as [E|N].
  - apply string_of_Z_inj in E. subst. symmetry. apply Z.eqb_refl.
  - symmetry. apply Z.eqb_neq. intros ->. now apply N.
Qed.

Lemma agent_file_shard (a b : string) (key : date_key) :
  has_char "/" a = false -> has_char "/" b = false ->
  startswith (shard_filename a key) (b ++ "/")
  && endswith (shard_filename a key) ".jsonl"
  = String.eqb a b.
Proof.
  intros Ha Hb. rewrite shard_filename_jsonl, andb_true_r.
  destruct key as [[y m] d]. rewrite shard_filename_parts.
  unfold startswith.
  change (b ++ "/")%string with (b ++ String "/" EmptyString)%string.
  rewrite (prefix_sep _ _ _ _ Hb Ha). apply String.eqb_sym.
Qed.

(** X16.  Path agreement of writer and readers.  For an identity without a
    slash, the shard path that [save_pr_metadata_to_hf] writes for a day is
    selected by the watermark scan of an identity exactly when that identity
    is the writer's, and by the loader of a year exactly when the day lies in
    that year; the loader tags its records with the writer's identity. *)
Theorem shard_read_by_its_identity_and_year
    (a : string) (y m d : Z) (files : list string) :
  has_char "/" a = false ->
  (forall b,
      has_char "/" b = false ->
      (In (shard_filename a (y, m, d)) (agent_files_of b files)
       <-> In (shard_filename a (y, m, d)) files /\ a = b))
  /\ (forall year,
        In (shard_filename a (y, m, d)) (filter (year_file year) files)
        <-> In (shard_filename a (y, m, d)) files /\ y = year)
  /\ nth 0 (split_on "/" (shard_filename a (y, m, d))) EmptyString = a.
Proof.
  intros Ha. split; [|split].
  - intros b Hb. unfold agent_files_of. rewrite filter_In.
    rewrite (agent_file_shard a b (y, m, d) Ha Hb).
    now rewrite String.eqb_eq.
  - intros year. rewrite filter_In, (year_file_shard a y m d year Ha).
    now rewrite Z.eqb_eq.
  - now rewrite (shard_filename_split a y m d Ha).
Qed.

Lemma shard_read_by_its_identity_and_year_witness :
  In (shard_filename "agent-x" (2024, 1, 5))
     (filter (year_file 2024)
        ["agent-y/2024.01.05.jsonl"; "agent-x/2024.01.05.jsonl"])
  <-> In (shard_filename "agent-x" (2024, 1, 5))
        ["agent-y/2024.01.05.jsonl"; "agent-x/2024.01.05.jsonl"]
      /\ 2024 = 2024.
Proof.
  refine (proj1 (proj2 (shard_read_by_its_identity_and_year "agent-x"
                          2024 1 5 _ _)) 2024).
  reflexivity.
Defined.

(** ** Reading a period back *)

Lemma load_jsonl_In (file : list jsonl_line) (r : MetadataRecord) :
  In r (load_jsonl file) <-> In (Entry r) file.
Proof.
  induction file as [|[|r'] file IH]; simpl.
  - reflexivity.
  - rewrite IH. split; [now right|]. now intros [|].
  - rewrite IH. split.
    + intros [->|H]; [now left|now right].
    + intros [[= ->]|H]; [now left|now right].
Qed.

Lemma load_year_file_spec (h : hub) (f : string) :
  load_year_file h f
  = Ret (if (List.length (split_on "/" f) =? 2)%nat
         then shard_records h f else []).
Proof.
  unfold load_year_file, shard_records.
  destruct (List.length (split_on "/" f) =? 2)%nat; [|reflexivity].
  cbn [negb]. now destruct (hf_hub_download h f).
Qed.

Lemma load_year_files_spec (h : hub) (year : Z) (files : list string)
    (acc : list tagged_record) :
  load_year_files h (filter (year_file year) files) acc
  = Ret (acc ++ flat_map (shard_records h) (filter (year_file year) files))%list.
Proof.
  revert acc. induction files as [|f files IH]; intros acc; simpl.
  - now rewrite app_nil_r.
  - destruct (year_file year f) eqn:E; [|apply IH].
    simpl. rewrite load_year_file_spec. simpl. rewrite IH.
    unfold year_file in E.
    destruct (endswith f ".jsonl"); [|discriminate].
    destruct (List.length (split_on "/" f) =? 2)%nat; [|discriminate].
    now rewrite app_assoc.
Qed.

Lemma load_pr_metadata_for_year_spec (debug_mode : bool) (w : world)
    (year : Z) :
  load_pr_metadata_for_year debug_mode w year
  = Ret match (if debug_mode then cached_metadata (w_debug_cache w) else [])
        with
        | _ :: _ => cached_metadata (w_debug_cache w)
        | [] =>
            if hub_list_fails (w_hub w) then []
            else flat_map (shard_records (w_hub w))
                   (filter (year_file year) (dict_keys (hub_files (w_hub w))))
        end.
Proof.
  unfold load_pr_metadata_for_year, list_repo_files.
  assert (Hhub :
    try_except
      (files <- (if hub_list_fails (w_hub w) then Raise
                 else Ret (dict_keys (hub_files (w_hub w)))) ;;
       load_year_files (w_hub w) (filter (year_file year) files) [])
      (Ret [])
    = Ret (if hub_list_fails (w_hub w) then []
           else flat_map (shard_records (w_hub w))
                  (filter (year_file year) (dict_keys (hub_files (w_hub w)))))).
  { destruct (hub_list_fails (w_hub w)); [reflexivity|].
    simpl. now rewrite load_year_files_spec. }
  destruct debug_mode; cbn [andb]; [|exact Hhub].
  destruct (w_debug_cache w) as [|e c] eqn:Ec; cbn [negb]; [exact Hhub|].
  destruct (cached_metadata (e :: c)); [exact Hhub|reflexivity].
Qed.

(** X17.  [load_pr_metadata_for_year] never raises.  Outside debug mode it
    returns nothing when the listing fails, and otherwise exactly the
    readable lines of the listed [.jsonl] paths of two parts whose file name
    starts with the year and a dot, each tagged with the first part of its
    path; a shard whose download fails is skipped.  In debug mode it returns
    the cached records when there is one, and the stored ones otherwise. *)
Theorem load_year_returns_tagged_year_shards (w : world) (year : Z) :
  exists stored,
    load_pr_metadata_for_year false w year = Ret stored
    /\ load_pr_metadata_for_year true w year
       = Ret match cached_metadata (w_debug_cache w) with
             | [] => stored
             | cached => cached
             end
    /\ forall t,
         In t stored
         <-> hub_list_fails (w_hub w) = false
             /\ exists f file,
                  In f (dict_keys (hub_files (w_hub w)))
                  /\ year_file year f = true
                  /\ hf_hub_download (w_hub w) f = Ret file
                  /\ In (Entry (tagged_meta t)) file
                  /\ agent_identifier t
                     = nth 0 (split_on "/" f) EmptyString.
Proof.
  eexists. split; [apply load_pr_metadata_for_year_spec|].
  split.
  { rewrite load_pr_metadata_for_year_spec.
    now destruct (cached_metadata (w_debug_cache w)). }
  intros t. cbn match.
  destruct (hub_list_fails (w_hub w)).
  { split; [intros []|now intros [? _]]. }
  rewrite in_flat_map. split.
  - intros (f & Hf & Ht). apply filter_In in Hf as [Hf Hy].
    split; [reflexivity|]. unfold shard_records in Ht.
    destruct (hf_hub_download (w_hub w) f) as [file|] eqn:Ed; [|destruct Ht].
    apply in_map_iff in Ht as (r & <- & Hr).
    exists f, file. repeat split; auto. now apply load_jsonl_In.
  - intros (_ & f & file & Hf & Hy & Ed & Hr & Ha).
    exists f. split; [apply filter_In; now split|].
    unfold shard_records. rewrite Ed. apply in_map_iff.
    exists (tagged_meta t). split; [|now apply load_jsonl_In].
    destruct t as [a r]. simpl in *. now rewrite Ha.
Qed.

(** X18.  What is saved is what is counted.  After a day shard of an
    identity (without a slash) has been written, every record of the merged
    shard is returned by the loader of that day's year, under the tag the
    cycle filters on for that identity (the listing and the download of the
    shard not failing). *)
Theorem saved_day_is_loaded_for_its_year
    (a : string) (h h' : hub) (y m d : Z)
    (day_metadata : list MetadataRecord)
    (cache : @dict string (list MetadataRecord)) :
  has_char "/" a = false ->
  save_day a h (y, m, d) day_metadata = Ret h' ->
  hub_list_fails h = false ->
  hub_download_fails h (shard_filename a (y, m, d)) = false ->
  forall r,
    In r (merge_metadata
            match dict_get String.eqb (shard_filename a (y, m, d))
                    (hub_files h) with
            | Some old => load_jsonl old
            | None => []
            end day_metadata) ->
    exists stored,
      load_pr_metadata_for_year false
        {| w_hub := h'; w_debug_cache := cache |} y = Ret stored
      /\ In r (map tagged_meta
                 (filter (fun pr => String.eqb (agent_identifier pr) a)
                    stored)).
Proof.
  intros Ha Hsave Hlist Hdl r Hr.
  destruct (save_day_effect _ _ _ _ _ Hsave) as (_ & Hfiles & Hl & Hd & _).
  eexists. split; [apply load_pr_metadata_for_year_spec|].
  cbn match. cbn [w_hub]. rewrite Hl, Hlist.
  apply in_map_iff. exists (tag a r). split; [reflexivity|].
  apply filter_In. split; [|simpl; apply String.eqb_refl].
  apply in_flat_map. exists (shard_filename a (y, m, d)). split.
  - apply filter_In. split; [|rewrite (year_file_shard a y m d y Ha); apply Z.eqb_refl].
    rewrite Hfiles, (dict_keys_set String.eqb).
    destruct (dict_mem String.eqb (shard_filename a (y, m, d)) (hub_files h))
      eqn:E.
    + apply (dict_mem_In String.eqb String.eqb_eq). exact E.
    + apply in_or_app. right. now left.
  - unfold shard_records, hf_hub_download. rewrite Hd, Hdl, Hfiles.
    rewrite (dict_get_set_eq String.eqb String.eqb_eq).
    rewrite (shard_filename_split a y m d Ha). cbn [nth].
    apply in_map.
    assert (Hload : forall l, load_jsonl (save_jsonl l) = l).
    { induction l as [|r0 l IH]; [reflexivity|]. simpl. now rewrite IH. }
    rewrite Hload. unfold hf_hub_download. rewrite Hdl.
    destruct (dict_get String.eqb (shard_filename a (y, m, d)) (hub_files h));
      exact Hr.
Qed.

(** ** The cycle *)

Lemma load_production (w : world) (year : Z) :
  load_pr_metadata_for_year false w year
  = Ret (stored_for_year (w_hub w) year).
Proof. now rewrite load_pr_metadata_for_year_spec. Qed.

Lemma filter_flat_map {A B : Type} (p : B -> bool) (g : A -> list B)
    (l : list A) :
  filter p (flat_map g l) = flat_map (fun x => filter p (g x)) l.
Proof.
  induction l as [|x l IH]; simpl; [reflexivity|].
  now rewrite filter_app, IH.
Qed.

Lemma shard_records_other (h : hub) (f k : string) :
  nth 0 (split_on "/" f) EmptyString <> k ->
  filter (fun pr => String.eqb (agent_identifier pr) k) (shard_records h f)
  = [].
Proof.
  intros Hk. unfold shard_records.
  destruct (hf_hub_download h f) as [file|]; [|reflexivity].
  induction (load_jsonl file) as [|r l IH]; simpl; [reflexivity|].
  apply String.eqb_neq in Hk. now rewrite Hk.
Qed.

Lemma agent_view_set (h h' : hub) (f0 : string) (content : list jsonl_line)
    (year : Z) (k : string) :
  hub_files h' = dict_set String.eqb f0 content (hub_files h) ->
  hub_list_fails h' = hub_list_fails h ->
  hub_download_fails h' = hub_download_fails h ->
  nth 0 (split_on "/" f0) EmptyString <> k ->
  agent_view h' year k = agent_view h year k.
Proof.
  intros Hfiles Hl Hd Hk. unfold agent_view, stored_for_year.
  rewrite Hl. destruct (hub_list_fails h); [reflexivity|].
  rewrite !filter_flat_map.
  assert (Hpt : forall f,
    filter (fun pr => String.eqb (agent_identifier pr) k) (shard_records h' f)
    = filter (fun pr => String.eqb (agent_identifier pr) k)
        (shard_records h f)).
  { intros f. destruct (String.eqb_spec f0 f) as [<-|Hne].
    - now rewrite !shard_records_other.
    - unfold shard_records, hf_hub_download. rewrite Hd, Hfiles.
      now rewrite (dict_get_set_neq String.eqb String.eqb_eq) by congruence. }
  rewrite (flat_map_ext _ _ Hpt).
  rewrite Hfiles, (dict_keys_set String.eqb).
  destruct (dict_mem String.eqb f0 (hub_files h)); [reflexivity|].
  rewrite filter_app, flat_map_app. simpl.
  destruct (year_file year f0); simpl; rewrite ?shard_records_other by exact Hk;
    now rewrite ?app_nil_r.
Qed.

Lemma save_days_view (b : string)
    (grouped : list (date_key * list MetadataRecord)) (h : hub)
    (year : Z) (k : string) :
  has_char "/" b = false -> k <> b ->
  agent_view (snd (save_days b grouped h)) year k = agent_view h year k.
Proof.
  intros Hb Hk. revert h.
  induction grouped as [|[key day] grouped IH]; intros h; [reflexivity|].
  cbn [save_days].
  destruct (save_day b h key day) as [h'|] eqn:E; [|reflexivity].
  rewrite IH.
  destruct (save_day_effect _ _ _ _ _ E) as (_ & Hf & Hl & Hd & _).
  apply (agent_view_set h h' _ _ year k Hf Hl Hd).
  destruct key as [[y m] d]. rewrite (shard_filename_split b y m d Hb).
  cbn [nth]. congruence.
Qed.

Section CycleFacts.
Variable fromisoformat : string -> exc datetime.
Variable env : cycle_env.

Lemma process_agent_cases (agent : agent_entry) (id : string) (w w1 : world)
    (cache : @dict string leaderboard_entry)
    (r : exc (@dict string leaderboard_entry)) :
  process_agent fromisoformat env agent id w cache = Some (w1, r) ->
  (r = Raise /\ w1 = w)
  \/ exists new_metadata stored,
       w1 = match new_metadata with
            | [] => w
            | _ :: _ =>
                snd (save_pr_metadata_to_hf fromisoformat (env_debug env)
                       (env_hf_token env) new_metadata id w)
            end
       /\ load_pr_metadata_for_year (env_debug env) w1 (env_year env)
          = Ret stored
       /\ r = Ret (dict_set String.eqb id (entry_of agent id stored) cache).
Proof.
  unfold process_agent.
  destruct (get_latest_pr_date_for_agent fromisoformat (w_hub w) id)
    as [latest|]; [|intros [= <- <-]; now left].
  destruct (fetch_all_prs_metadata _ _ _ _ _ _) as [[new_metadata|]|];
    [|intros [= <- <-]; now left|discriminate].
  cbv zeta.
  set (w2 := match new_metadata with [] => w | _ :: _ => _ end).
  destruct (load_pr_metadata_for_year (env_debug env) w2 (env_year env))
    as [stored|] eqn:El.
  - intros [= <- <-]. right. exists new_metadata, stored. now rewrite El.
  - rewrite load_pr_metadata_for_year_spec in El. discriminate.
Qed.

Lemma agent_step_cases (agent : agent_entry)
    (st st' : world * @dict string leaderboard_entry) :
  agent_step fromisoformat env agent st = Some st' ->
  st' = st
  \/ exists id new_metadata stored,
       github_identifier agent = Some id /\ id <> EmptyString
       /\ fst st' = match new_metadata with
                    | [] => fst st
                    | _ :: _ =>
                        snd (save_pr_metadata_to_hf fromisoformat
                               (env_debug env) (env_hf_token env)
                               new_metadata id (fst st))
                    end
       /\ load_pr_metadata_for_year (env_debug env) (fst st') (env_year env)
          = Ret stored
       /\ snd st'
          = dict_set String.eqb id (entry_of agent id stored) (snd st).
Proof.
  unfold agent_step.
  destruct (github_identifier agent) as [id|]; [|intros [= <-]; now left].
  destruct (truthy (Some id)) eqn:Et; [|intros [= <-]; now left].
  destruct (process_agent fromisoformat env agent id (fst st) (snd st))
    as [[w1 r]|] eqn:Ep; [|discriminate].
  destruct (process_agent_cases _ _ _ _ _ _ Ep) as [[-> ->]|Hok].
  - intros [= <-]. left. now destruct st.
  - destruct Hok as (new_metadata & stored & Hw & Hl & ->).
    intros [= <-]. right. exists id, new_metadata, stored.
    repeat split; auto.
    simpl in Et. intros ->. discriminate.
Qed.

Lemma agents_loop_inv
    (P : world * @dict string leaderboard_entry -> Prop)
    (agents : list agent_entry) :
  (forall agent st st',
      In agent agents -> P st ->
      agent_step fromisoformat env agent st = Some st' -> P st') ->
  forall st st',
    P st -> agents_loop fromisoformat env agents st = Some st' -> P st'.
Proof.
  induction agents as [|agent agents IH]; intros Hstep st st' HP; simpl.
  - now intros [= <-].
  - destruct (agent_step fromisoformat env agent st) as [st1|] eqn:E;
      [|discriminate].
    apply IH.
    + intros a s s' Hin. apply Hstep. now right.
    + apply (Hstep agent st st1); auto. now left.
Qed.

Lemma update_all_inv
    (P : world * @dict string leaderboard_entry -> Prop)
    (agents : list agent_entry) (w : world)
    (st' : world * @dict string leaderboard_entry) :
  (forall agent st st',
      In agent agents -> P st ->
      agent_step fromisoformat env agent st = Some st' -> P st') ->
  P (w, []) ->
  update_all_agents_incremental fromisoformat env (Some agents) w = Some st' ->
  P st'.
Proof.
  intros Hstep H0. unfold update_all_agents_incremental.
  destruct agents as [|a agents]; [now intros [= <-]|].
  now apply agents_loop_inv.
Qed.

End CycleFacts.

Section CycleTheorems.
Variable fromisoformat : string -> exc datetime.
Variable env : cycle_env.


(** X20.  The dictionary that a cycle returns has one entry per key, each
    under its own non-empty [github_identifier] and with the name and
    organization of a roster entry of that identifier (['Unknown'] where the
    key is missing); so [dict_to_cache] followed by [cache_to_dict] gives it
    back. *)
Theorem cycle_entries_keyed_by_identifier
    (agents : list agent_entry) (w w' : world)
    (cache_dict : @dict string leaderboard_entry) :
  update_all_agents_incremental fromisoformat env (Some agents) w
  = Some (w', cache_dict) ->
  NoDup (dict_keys cache_dict)
  /\ (forall k entry,
        In (k, entry) cache_dict ->
        k <> EmptyString
        /\ le_github_identifier entry = k
        /\ exists agent,
             In agent agents
             /\ github_identifier agent = Some k
             /\ le_agent_name entry = get_or_unknown (agent_name agent)
             /\ le_organization entry
                = get_or_unknown (organization agent))
  /\ cache_to_dict (dict_to_cache cache_dict) = cache_dict.
Proof.
  intros Hrun.
  pose (P := fun st : world * @dict string leaderboard_entry =>
    NoDup (dict_keys (snd st))
    /\ forall k entry,
         In (k, entry) (snd st) ->
         k <> EmptyString
         /\ le_github_identifier entry = k
         /\ exists agent,
              In agent agents
              /\ github_identifier agent = Some k
              /\ le_agent_name entry = get_or_unknown (agent_name agent)
              /\ le_organization entry
                 = get_or_unknown (organization agent)).
  assert (HP : P (w', cache_dict)).
  { apply (update_all_inv fromisoformat env P agents w _); [| |exact Hrun].
    - intros agent st st' Hin [Hnd Hall] Hstep.
      destruct (agent_step_cases _ _ _ _ _ Hstep)
        as [->|(id & nm & stored & Hid & Hne & _ & _ & Hc)];
        [now split|].
      split; rewrite Hc.
      + now apply (dict_set_nodup String.eqb String.eqb_eq).
      + intros k entry Hk.
        apply (dict_set_In String.eqb String.eqb_eq) in Hk
          as [[-> ->]|Hk]; [|now apply Hall].
        split; [exact Hne|]. split; [reflexivity|].
        exists agent. now repeat split.
    - split; [constructor|intros k entry []]. }
  destruct HP as [Hnd Hall]. cbn [snd] in *.
  split; [exact Hnd|]. split; [exact Hall|].
  unfold cache_to_dict, dict_to_cache, dict_values.
  assert (Hkeys : map le_github_identifier (map snd cache_dict)
                  = dict_keys cache_dict).
  { unfold dict_keys. rewrite map_map. apply map_ext_in.
    intros [k entry] Hin. simpl. now apply Hall. }
  rewrite cache_fold_fresh by (simpl; now rewrite Hkeys).
  simpl. rewrite map_map. rewrite <- (map_id cache_dict) at 2.
  apply map_ext_in. intros [k entry] Hin. simpl.
  now rewrite (proj1 (proj2 (Hall k entry Hin))).
Qed.

(** X21.  A cycle in debug mode leaves the dataset repository as it was,
    and so does a cycle without a store token, which changes nothing at
    all. *)
Theorem cycle_without_upload_leaves_store
    (agents : list agent_entry) (w w' : world)
    (cache_dict : @dict string leaderboard_entry) :
  env_debug env = true \/ env_hf_token env = false ->
  update_all_agents_incremental fromisoformat env (Some agents) w
  = Some (w', cache_dict) ->
  w_hub w' = w_hub w
  /\ (env_debug env = false -> w' = w).
Proof.
  intros Hmode Hrun.
  pose (P := fun st : world * @dict string leaderboard_entry =>
    w_hub (fst st) = w_hub w /\ (env_debug env = false -> fst st = w)).
  change (P (w', cache_dict)).
  apply (update_all_inv fromisoformat env P agents w _); [| |exact Hrun].
  - intros agent st st' _ [Hh Hw] Hstep.
    destruct (agent_step_cases _ _ _ _ _ Hstep)
      as [->|(id & nm & stored & _ & _ & Hf & _)]; [now split|].
    unfold P. rewrite Hf. destruct nm as [|r nm]; [now split|].
    unfold save_pr_metadata_to_hf.
    destruct (env_debug env); [split; [exact Hh|discriminate]|].
    destruct Hmode as [Hd | ->]; [discriminate|]. now split.
  - now split.
Qed.

(** X22.  Outside debug mode, with identifiers that hold no slash, every
    entry of the dictionary a cycle returns carries the statistics of the
    records that the store holds for its identifier when the cycle ends:
    what later identities save does not touch them. *)
Theorem cycle_entries_reflect_final_store
    (agents : list agent_entry) (w w' : world)
    (cache_dict : @dict string leaderboard_entry) :
  env_debug env = false ->
  (forall agent id,
      In agent agents -> github_identifier agent = Some id ->
      has_char "/" id = false) ->
  update_all_agents_incremental fromisoformat env (Some agents) w
  = Some (w', cache_dict) ->
  forall k entry,
    In (k, entry) cache_dict ->
    exists stored,
      load_pr_metadata_for_year false w' (env_year env) = Ret stored
      /\ le_stats entry
         = calculate_pr_stats_from_metadata
             (map tagged_meta
                (filter (fun pr => String.eqb (agent_identifier pr) k)
                   stored)).
Proof.
  intros Hprod Hplain Hrun k entry Hin.
  exists (stored_for_year (w_hub w') (env_year env)).
  split; [apply load_production|].
  pose (P := fun st : world * @dict string leaderboard_entry =>
    NoDup (dict_keys (snd st))
    /\ forall k entry,
         In (k, entry) (snd st) ->
         le_stats entry
         = calculate_pr_stats_from_metadata
             (map tagged_meta (agent_view (w_hub (fst st)) (env_year env) k))).
  assert (HP : P (w', cache_dict)).
  { apply (update_all_inv fromisoformat env P agents w _); [| |exact Hrun].
    - intros agent st st' Hag [Hnd Hall] Hstep.
      destruct (agent_step_cases _ _ _ _ _ Hstep)
        as [->|(id & nm & stored & Hid & Hne & Hf & Hl & Hc)];
        [now split|].
      rewrite Hprod in Hl, Hf. rewrite load_production in Hl.
      injection Hl as <-.
      split; rewrite Hc;
        [now apply (dict_set_nodup String.eqb String.eqb_eq)|].
      intros k0 e0 Hk0.
      destruct (String.eqb_spec k0 id) as [->|Hk].
      + assert (Hg : dict_get String.eqb id
                       (dict_set String.eqb id
                          (entry_of agent id
                             (stored_for_year (w_hub (fst st'))
                                (env_year env))) (snd st))
                     = Some e0).
        { apply (dict_get_nodup String.eqb String.eqb_eq); [|exact Hk0].
          now apply (dict_set_nodup String.eqb String.eqb_eq). }
        rewrite (dict_get_set_eq String.eqb String.eqb_eq) in Hg.
        injection Hg as <-. reflexivity.
      + apply (dict_set_In String.eqb String.eqb_eq) in Hk0
          as [[-> _]|Hk0]; [now contradiction Hk|].
        rewrite (Hall k0 e0 Hk0). do 2 f_equal.
        rewrite Hf. destruct nm as [|r nm]; [reflexivity|].
        unfold save_pr_metadata_to_hf.
        destruct (env_hf_token env); cbn [negb]; [|reflexivity].
        destruct (save_days id _ (w_hub (fst st))) as [ok h] eqn:Es.
        cbn [snd w_hub]. symmetry.
        change h with (snd (ok, h)). rewrite <- Es.
        apply save_days_view; [now apply (Hplain agent)|exact Hk].
    - split; [constructor|intros k0 e0 []]. }
  destruct HP as [_ Hall]. apply (Hall k entry Hin).
Qed.

End CycleTheorems.

(** ** The theorems on an example store and an example cycle *)

Lemma saved_day_is_loaded_for_its_year_witness :
  exists stored,
    load_pr_metadata_for_year false
      {| w_hub := example_saved_hub; w_debug_cache := [] |} 2024 = Ret stored
    /\ In {| html_url := Some "https://github.com/o/r/pull/1";
             created_at := Some "2024-01-01T00:00:00Z";
             merged_at := Some "2024-01-02T00:00:00Z";
             closed_at := None |}
          (map tagged_meta
             (filter (fun pr => String.eqb (agent_identifier pr) "agent-x")
                stored)).
Proof.
  refine (saved_day_is_loaded_for_its_year "agent-x" (w_hub empty_world)
            example_saved_hub 2024 1 1 agent_x_records [] _ _ _ _ _ _).
  - reflexivity.
  - reflexivity.
  - reflexivity.
  - reflexivity.
  - vm_compute. left. reflexivity.
Defined.


Lemma cycle_entries_keyed_by_identifier_witness :
  exists w' cache_dict,
    update_all_agents_incremental fromisoformat_utc example_env
      (Some [agent_x_entry; nameless_entry]) empty_world
    = Some (w', cache_dict)
    /\ dict_keys cache_dict = ["agent-x"]
    /\ cache_to_dict (dict_to_cache cache_dict) = cache_dict.
Proof.
  destruct (update_all_agents_incremental fromisoformat_utc example_env
              (Some [agent_x_entry; nameless_entry]) empty_world)
    as [[w' cache_dict]|] eqn:E.
  - exists w', cache_dict. split; [reflexivity|]. split.
    + vm_compute in E. now injection E as <- <-.
    + exact (proj2 (proj2 (cycle_entries_keyed_by_identifier
                             fromisoformat_utc example_env
                             [agent_x_entry; nameless_entry] empty_world
                             w' cache_dict E))).
  - vm_compute in E. discriminate.
Defined.

Lemma cycle_without_upload_leaves_store_witness :
  exists w' cache_dict,
    update_all_agents_incremental fromisoformat_utc example_env_debug
      (Some [agent_x_entry; nameless_entry]) empty_world
    = Some (w', cache_dict)
    /\ w_hub w' = w_hub empty_world.
Proof.
  destruct (update_all_agents_incremental fromisoformat_utc example_env_debug
              (Some [agent_x_entry; nameless_entry]) empty_world)
    as [[w' cache_dict]|] eqn:E.
  - exists w', cache_dict. split; [reflexivity|].
    refine (proj1 (cycle_without_upload_leaves_store fromisoformat_utc
                     example_env_debug [agent_x_entry; nameless_entry]
                     empty_world w' cache_dict _ E)).
    left. reflexivity.
  - vm_compute in E. discriminate.
Defined.

Lemma cycle_entries_reflect_final_store_witness :
  exists w' cache_dict,
    update_all_agents_incremental fromisoformat_utc example_env
      (Some [agent_x_entry; nameless_entry]) empty_world
    = Some (w', cache_dict)
    /\ forall k entry,
         In (k, entry) cache_dict ->
         exists stored,
           load_pr_metadata_for_year false w' 2024 = Ret stored
           /\ le_stats entry
              = calculate_pr_stats_from_metadata
                  (map tagged_meta
                     (filter
                        (fun pr => String.eqb (agent_identifier pr) k)
                        stored)).
Proof.
  destruct (update_all_agents_incremental fromisoformat_utc example_env
              (Some [agent_x_entry; nameless_entry]) empty_world)
    as [[w' cache_dict]|] eqn:E.
  - exists w', cache_dict. split; [reflexivity|].
    refine (cycle_entries_reflect_final_store fromisoformat_utc example_env
              [agent_x_entry; nameless_entry] empty_world w' cache_dict
              _ _ E).
    + reflexivity.
    + intros agent id [<-|[<-|[]]]; intros [= <-]. reflexivity.
  - vm_compute in E. discriminate.
Defined.
